(** * CloudStack Terraform provider: resource lifecycle controllers

    A shallow embedding of the resource controllers of the provider
    (package [cloudstack]): the network CIDR arithmetic, the user-data
    normalisation, and the Create / Read / Update / Delete sequences of
    remote calls of each resource kind, with the properties the
    specification states about them. *)

From Stdlib Require Import ZArith Zbitwise Lia Ascii String.
From stdpp Require Import base gmap strings list fin_maps pretty.

Local Open Scope string_scope.
Local Open Scope list_scope.
Local Open Scope Z_scope.

(** ** Go values *)

(** A Go [error]: [None] is [nil], [Some msg] an error with that message. *)
Definition error := option string.

(** What a Go function body can do: return normally, return a non-nil
    error, or panic at run time (an index out of range). *)
Inductive Outcome (A : Type) : Type :=
| Ok (a : A)
| Err (msg : string)
| Panic (msg : string).
Arguments Ok {A} a.
Arguments Err {A} msg.
Arguments Panic {A} msg.

(** The typed values a configuration field or a request parameter holds:
    [schema.TypeString], [TypeInt], [TypeBool], [TypeList] / [TypeSet] of
    strings (a set is kept as the list its [List()] method returns),
    [TypeMap], and a list of maps (the [nicnetworklist] parameter). *)
Inductive value : Type :=
| VString (s : string)
| VInt (n : Z)
| VBool (b : bool)
| VList (l : list string)
| VMap (m : gmap string string)
| VMaps (l : list (gmap string string)).

#[global] Instance value_eq_dec : EqDecision value.
Proof. solve_decision. Defined.

(** ** [schema.ResourceData]

    [d_id] is the resource identity ([""] when absent), [d_old] the prior
    state, [d_new] the merged view [d.Get] reads and [d.Set] writes, and
    [d_conn] the connection info of [d.SetConnInfo]. *)
Record ResourceData : Type := mkResourceData {
  d_id : string;
  d_old : gmap string value;
  d_new : gmap string value;
  d_conn : gmap string string
}.

(** [d.Get(k).(string)]: the zero value when the field is unset. *)
Definition get_string (d : ResourceData) (k : string) : string :=
  match d_new d !! k with Some (VString s) => s | _ => "" end.

Definition get_int (d : ResourceData) (k : string) : Z :=
  match d_new d !! k with Some (VInt n) => n | _ => 0 end.

Definition get_bool (d : ResourceData) (k : string) : bool :=
  match d_new d !! k with Some (VBool b) => b | _ => false end.

Definition get_list (d : ResourceData) (k : string) : list string :=
  match d_new d !! k with Some (VList l) => l | _ => [] end.

Definition get_map (d : ResourceData) (k : string) : gmap string string :=
  match d_new d !! k with Some (VMap m) => m | _ => ∅ end.

(** [d.GetOk(k)]: the value, and whether it is set to a non-zero value.
    The value is only used when [ok] holds, so the pair is an option. *)
Definition getok_string (d : ResourceData) (k : string) : option string :=
  let s := get_string d k in if decide (s = "") then None else Some s.

Definition getok_int (d : ResourceData) (k : string) : option Z :=
  let n := get_int d k in if decide (n = 0) then None else Some n.

Definition getok_bool (d : ResourceData) (k : string) : option bool :=
  if get_bool d k then Some true else None.

Definition getok_list (d : ResourceData) (k : string) : option (list string) :=
  match get_list d k with [] => None | l => Some l end.

Definition getok_map (d : ResourceData) (k : string)
  : option (gmap string string) :=
  let m := get_map d k in if decide (m = ∅) then None else Some m.

(** [d.HasChange(k)]: prior state and merged view differ at [k]. *)
Definition has_change (d : ResourceData) (k : string) : bool :=
  bool_decide (d_old d !! k ≠ d_new d !! k).

Definition set_field (k : string) (v : value) (d : ResourceData)
  : ResourceData :=
  mkResourceData (d_id d) (d_old d) (<[k := v]> (d_new d)) (d_conn d).

Definition set_id (i : string) (d : ResourceData) : ResourceData :=
  mkResourceData i (d_old d) (d_new d) (d_conn d).

Definition set_conn_info (c : gmap string string) (d : ResourceData)
  : ResourceData :=
  mkResourceData (d_id d) (d_old d) (d_new d) c.

(** ** Strings *)

(** [strings.Contains]. *)
Fixpoint Contains (s substr : string) : bool :=
  if String.prefix substr s then true
  else match s with
       | EmptyString => false
       | String _ rest => Contains rest substr
       end.

(** The message every Delete matches against:
    [fmt.Sprintf("Invalid parameter id value=%s due to incorrect long value
    format, or entity does not exist", id)]. *)
Definition entity_gone_msg (id : string) : string :=
  "Invalid parameter id value=" +:+ id +:+
  " due to incorrect long value format, or entity does not exist".

Definition is_digit (c : ascii) : bool :=
  let n := Z.of_nat (nat_of_ascii c) in (48 <=? n) && (n <=? 57).

Definition digit_val (c : ascii) : Z := Z.of_nat (nat_of_ascii c) - 48.

(** ** Package [net]: dotted-quad CIDR text

    [ParseCIDR] follows Go's [net.ParseCIDR] on [a.b.c.d/n] text. IPv6 text
    is outside this model, which reports it as unparsable; none of the
    properties below concerns it. An address is the list of its bytes. *)
Module net.

Fixpoint parseIPv4_go (s : string) (i0 prevdot : bool) (fields : list Z)
    (val : Z) (digLen : nat) : option (list Z) :=
  match s with
  | EmptyString =>
      if (length fields <? 3)%nat then None else Some (fields ++ [val])
  | String c rest =>
      if is_digit c then
        if (digLen =? 1)%nat && (val =? 0) then None
        else
          let val' := val * 10 + digit_val c in
          if 255 <? val' then None
          else parseIPv4_go rest false false fields val' (S digLen)
      else if Ascii.eqb c "." then
        if i0 || prevdot || bool_decide (rest = EmptyString) then None
        else if (length fields =? 3)%nat then None
        else parseIPv4_go rest false true (fields ++ [val]) 0 0%nat
      else None
  end.

Definition parseIPv4 (s : string) : option (list Z) :=
  parseIPv4_go s true false [] 0 0%nat.

(** [dtoi], with its bound [big = 0xFFFFFF], required to consume the whole
    text. *)
Fixpoint dtoi_go (s : string) (n : Z) : option Z :=
  match s with
  | EmptyString => Some n
  | String c rest =>
      if is_digit c then
        let n' := n * 10 + digit_val c in
        if 16777215 <=? n' then None else dtoi_go rest n'
      else None
  end.

Definition dtoi (s : string) : option Z :=
  match s with EmptyString => None | _ => dtoi_go s 0 end.

(** [CIDRMask(ones, 32)]: byte [i] of the mask with [ones] leading 1s. *)
Fixpoint CIDRMask_go (l : nat) (n : Z) : list Z :=
  match l with
  | O => []
  | S l' =>
      if 8 <=? n then 255 :: CIDRMask_go l' (n - 8)
      else Z.land (Z.lnot (Z.shiftr 255 n)) 255 :: CIDRMask_go l' 0
  end.

Definition CIDRMask (ones : Z) : list Z := CIDRMask_go 4 ones.

Fixpoint split_slash (s : string) : option (string * string) :=
  match s with
  | EmptyString => None
  | String c rest =>
      if Ascii.eqb c "/" then Some (EmptyString, rest)
      else match split_slash rest with
           | Some (a, m) => Some (String c a, m)
           | None => None
           end
  end.

Definition v4InV6Prefix : list Z := [0; 0; 0; 0; 0; 0; 0; 0; 0; 0; 255; 255].

(** [net.ParseCIDR]: the address in its 16-byte form and the 4-byte mask
    ([ipnet.Mask]); [None] is a parse error. *)
Definition ParseCIDR (s : string) : option (list Z * list Z) :=
  match split_slash s with
  | None => None
  | Some (addr, mask) =>
      match parseIPv4 addr, dtoi mask with
      | Some ip4, Some n =>
          if 32 <? n then None else Some (v4InV6Prefix ++ ip4, CIDRMask n)
      | _, _ => None
      end
  end.

(** [IP.Mask]: [nil] (here [[]]) when the lengths do not agree. *)
Definition Mask (ip mask : list Z) : list Z :=
  let mask :=
    if (length mask =? 16)%nat && (length ip =? 4)%nat
       && forallb (Z.eqb 255) (take 12 mask)
    then drop 12 mask else mask in
  let ip :=
    if (length mask =? 4)%nat && (length ip =? 16)%nat
       && bool_decide (take 12 ip = v4InV6Prefix)
    then drop 12 ip else ip in
  if (length ip =? length mask)%nat
  then zip_with Z.land ip mask else [].

End net.

(** Indexing a byte slice: out of range is a run-time panic. *)
Definition index (l : list Z) (i : nat) : Outcome Z :=
  match l !! i with
  | Some b => Ok b
  | None => Panic "index out of range"
  end.

(** [fmt.Sprintf("%d.%d.%d.%d", a, b, c, d)]. *)
Definition dotted (a b c d : Z) : string :=
  pretty a +:+ "." +:+ pretty b +:+ "." +:+ pretty c +:+ "." +:+ pretty d.

(** Arithmetic on the Go type [byte] wraps around modulo 256. *)
Definition byte_add (x y : Z) : Z := (x + y) mod 256.
Definition byte_sub (x y : Z) : Z := (x - y) mod 256.

(** ** [parseCIDR] (resource_cloudstack_network.go) *)

Definition obind {A B} (o : Outcome A) (k : A -> Outcome B) : Outcome B :=
  match o with
  | Ok a => k a
  | Err e => Err e
  | Panic e => Panic e
  end.

Definition parseCIDR (d : ResourceData) (specifyiprange : bool)
  : Outcome (gmap string string) :=
  let m : gmap string string := ∅ in
  let cidr := get_string d "cidr" in
  match net.ParseCIDR cidr with
  | None => Err ("Unable to parse cidr " +:+ cidr)
  | Some (ip, msk) =>
      let sub := net.Mask ip msk in
      obind (index msk 0) (fun msk0 =>
      obind (index msk 1) (fun msk1 =>
      obind (index msk 2) (fun msk2 =>
      obind (index msk 3) (fun msk3 =>
      let m := <["netmask" := dotted msk0 msk1 msk2 msk3]> m in
      obind (match getok_string d "gateway" with
             | Some gateway => Ok (<["gateway" := gateway]> m)
             | None =>
                 obind (index sub 0) (fun sub0 =>
                 obind (index sub 1) (fun sub1 =>
                 obind (index sub 2) (fun sub2 =>
                 obind (index sub 3) (fun sub3 =>
                 Ok (<["gateway" :=
                        dotted sub0 sub1 sub2 (byte_add sub3 1)]> m)))))
             end) (fun m =>
      obind (match getok_string d "startip" with
             | Some startip => Ok (<["startip" := startip]> m)
             | None =>
                 if specifyiprange then
                   obind (index sub 0) (fun sub0 =>
                   obind (index sub 1) (fun sub1 =>
                   obind (index sub 2) (fun sub2 =>
                   obind (index sub 3) (fun sub3 =>
                   Ok (<["startip" :=
                          dotted sub0 sub1 sub2 (byte_add sub3 2)]> m)))))
                 else Ok m
             end) (fun m =>
      match getok_string d "endip" with
      | Some endip => Ok (<["endip" := endip]> m)
      | None =>
          if specifyiprange then
            obind (index sub 0) (fun sub0 =>
            obind (index sub 1) (fun sub1 =>
            obind (index sub 2) (fun sub2 =>
            obind (index sub 3) (fun sub3 =>
            Ok (<["endip" :=
                   dotted (byte_add sub0 (byte_sub 255 msk0))
                          (byte_add sub1 (byte_sub 255 msk1))
                          (byte_add sub2 (byte_sub 255 msk2))
                          (byte_add sub3 (byte_sub (byte_sub 255 msk3) 1))]>
                  m)))))
          else Ok m
      end))))))
  end.

(** A configuration holding only string fields, for examples. *)
Definition config_of (l : list (string * string)) : ResourceData :=
  mkResourceData "" ∅ (list_to_map (prod_map id VString <$> l)) ∅.

(** ** The addressing rule in the specification's words

    An IPv4 address [a.b.c.d] is a 32-bit number; a subnet of prefix length
    [n] has as base address the address with its [32 - n] host bits cleared
    and as broadcast address the one with them set. *)
Definition addr_of (a b c e : Z) : Z := ((a * 256 + b) * 256 + c) * 256 + e.

Definition dotted_addr (x : Z) : string :=
  dotted (x / 16777216 mod 256) (x / 65536 mod 256) (x / 256 mod 256)
         (x mod 256).

Definition subnet_base (addr n : Z) : Z := addr - addr mod 2 ^ (32 - n).

Definition subnet_broadcast (addr n : Z) : Z :=
  subnet_base addr n + 2 ^ (32 - n) - 1.

Definition is_octet (x : Z) : Prop := 0 <= x < 256.

(** ** Package [encoding/base64]: [StdEncoding]

    A Go string is the sequence of its bytes, here the characters of a
    [string]. [DecodeString] follows the decoder of Go's standard library:
    padded, not strict, and skipping carriage returns and line feeds. *)
Module base64.

Definition encodeStd : string :=
  "ABCDEFGHIJKLMNOPQRSTUVWXYZabcdefghijklmnopqrstuvwxyz0123456789+/".

Definition padChar : ascii := "="%char.

Definition byte_of (c : ascii) : Z := Z.of_nat (nat_of_ascii c).

(** [enc.encode[v]]. *)
Definition encode_symbol (v : Z) : ascii :=
  match String.get (Z.to_nat v) encodeStd with
  | Some c => c
  | None => padChar
  end.

Fixpoint index_of (c : ascii) (s : string) (i : Z) : option Z :=
  match s with
  | EmptyString => None
  | String c' rest => if Ascii.eqb c c' then Some i else index_of c rest (i + 1)
  end.

(** [enc.decodeMap[in]]: [None] stands for the entry [0xff]. *)
Definition decodeMap (c : ascii) : option Z := index_of c encodeStd 0.

Definition quantum (a b c : Z) : Z :=
  Z.lor (Z.lor (Z.shiftl a 16) (Z.shiftl b 8)) c.

Definition sextet (val : Z) (shift : Z) : ascii :=
  encode_symbol (Z.land (Z.shiftr val shift) 63).

Fixpoint Encode (src : list Z) : string :=
  match src with
  | [] => EmptyString
  | [a] =>
      let val := quantum a 0 0 in
      String (sextet val 18) (String (sextet val 12)
        (String padChar (String padChar EmptyString)))
  | [a; b] =>
      let val := quantum a b 0 in
      String (sextet val 18) (String (sextet val 12)
        (String (sextet val 6) (String padChar EmptyString)))
  | a :: b :: c :: rest =>
      let val := quantum a b c in
      String (sextet val 18) (String (sextet val 12)
        (String (sextet val 6) (String (sextet val 0) (Encode rest))))
  end.

Definition bytes_of_string (s : string) : list Z :=
  byte_of <$> list_ascii_of_string s.

Definition EncodeToString (s : string) : string :=
  Encode (bytes_of_string s).

Definition is_newline (c : ascii) : bool :=
  Ascii.eqb c "010"%char || Ascii.eqb c "013"%char.

Fixpoint skip_newlines (s : string) : string :=
  match s with
  | String c rest => if is_newline c then skip_newlines rest else s
  | EmptyString => EmptyString
  end.

(** The bytes of a quantum of [dlen] symbols: [dlen - 1] of them. *)
Definition quantum_bytes (dbuf : list Z) : list Z :=
  let d i := default 0 (dbuf !! i) in
  let val := Z.lor (Z.lor (Z.lor (Z.shiftl (d 0%nat) 18)
               (Z.shiftl (d 1%nat) 12)) (Z.shiftl (d 2%nat) 6)) (d 3%nat) in
  take (length dbuf - 1)
    [Z.land (Z.shiftr val 16) 255; Z.land (Z.shiftr val 8) 255;
     Z.land val 255].

(** After the padding of the last quantum only newlines may follow. *)
Definition finish (rest : string) (dbuf acc : list Z) : option (list Z) :=
  match skip_newlines rest with
  | EmptyString => Some (acc ++ quantum_bytes dbuf)
  | _ => None
  end.

(** The decoding loop: [dbuf] holds the symbols of the current quantum
    read so far, [acc] the bytes decoded so far; [None] is a
    [CorruptInputError]. *)
Fixpoint Decode (src : string) (dbuf acc : list Z) : option (list Z) :=
  match src with
  | EmptyString =>
      match dbuf with [] => Some acc | _ => None end
  | String c rest =>
      match decodeMap c with
      | Some out =>
          if (length dbuf =? 3)%nat
          then Decode rest [] (acc ++ quantum_bytes (dbuf ++ [out]))
          else Decode rest (dbuf ++ [out]) acc
      | None =>
          if is_newline c then Decode rest dbuf acc
          else if negb (Ascii.eqb c padChar) then None
          else
            match length dbuf with
            | 0%nat | 1%nat => None
            | 2%nat =>
                match skip_newlines rest with
                | EmptyString => None
                | String c2 rest2 =>
                    if Ascii.eqb c2 padChar then finish rest2 dbuf acc
                    else None
                end
            | _ => finish rest dbuf acc
            end
      end
  end.

Definition DecodeString (s : string) : option (list Z) := Decode s [] [].

End base64.

(** The value of a base64 symbol: six bits. *)
Definition is_symbol (v : Z) : Prop := 0 <= v < 64.

(** ** [getUserData] (resource_cloudstack_instance.go)

    Returns the user data as a base64 encoded string, and a [nil] error. *)
Definition getUserData (userData : string) : string * error :=
  let ud := userData in
  let ud :=
    match base64.DecodeString ud with
    | None => base64.EncodeToString userData
    | Some _ => ud
    end in
  (ud, None).

(** ** The remote API client ([cloudstack.CloudStackClient])

    Request parameters are, as in the SDK, a map from parameter name to
    value, filled by the [NewXParams] constructor and the [SetX] setters. *)
Abbreviation Params := (gmap string value).

(** Response structures, with the fields the controllers read. *)
Record Tags := mkTags { Key : string; Value : string }.

Record Nic := mkNic {
  nic_Networkid : string; nic_Ipaddress : string;
  nic_Ip6address : string; nic_Ip6cidr : string }.

Record Group := mkGroup { grp_Id : string; grp_Name : string }.

Record VirtualMachine := mkVirtualMachine {
  vm_Id : string; vm_Name : string; vm_Displayname : string;
  vm_Group : string; vm_Nic : list Nic; vm_Password : string;
  vm_Affinitygroup : list Group; vm_Securitygroup : list Group;
  vm_Tags : list Tags;
  vm_Serviceofferingname : string; vm_Serviceofferingid : string;
  vm_Templatename : string; vm_Templateid : string;
  vm_Project : string; vm_Projectid : string;
  vm_Zonename : string; vm_Zoneid : string }.

Record Volume := mkVolume {
  vol_Id : string; vol_Name : string; vol_Virtualmachineid : string;
  vol_Size : Z; vol_Deviceid : Z; vol_Tags : list Tags;
  vol_Diskofferingname : string; vol_Diskofferingid : string;
  vol_Project : string; vol_Projectid : string;
  vol_Zonename : string; vol_Zoneid : string }.

Record Network := mkNetwork {
  net_Id : string; net_Name : string; net_Displaytext : string;
  net_Cidr : string; net_Gateway : string; net_Networkdomain : string;
  net_Vpcid : string; net_Aclid : string; net_Tags : list Tags;
  net_Networkofferingname : string; net_Networkofferingid : string;
  net_Project : string; net_Projectid : string;
  net_Zonename : string; net_Zoneid : string }.

Record PublicIpAddress := mkPublicIpAddress {
  ip_Id : string; ip_Ipaddress : string; ip_Associatednetworkid : string }.

Record ListPublicIpAddressesResponse := mkListPublicIpAddressesResponse {
  lip_Count : Z; lip_PublicIpAddresses : list PublicIpAddress }.

Record VPC := mkVPC {
  vpc_Id : string; vpc_Name : string; vpc_Displaytext : string;
  vpc_Cidr : string; vpc_Networkdomain : string; vpc_Tags : list Tags;
  vpc_Vpcofferingid : string;
  vpc_Project : string; vpc_Projectid : string;
  vpc_Zonename : string; vpc_Zoneid : string }.

Record Zone := mkZone { zone_Id : string; zone_Networktype : string }.

Record NetworkOffering := mkNetworkOffering { no_Specifyipranges : bool }.

Record VPCOffering := mkVPCOffering { vo_Name : string }.

Record PrivateGateway := mkPrivateGateway {
  pgw_Id : string; pgw_Gateway : string; pgw_Ipaddress : string;
  pgw_Netmask : string; pgw_Vlan : string; pgw_Aclid : string;
  pgw_Vpcid : string }.

Record NetworkACLList := mkNetworkACLList {
  acl_Id : string; acl_Name : string; acl_Description : string;
  acl_Vpcid : string }.

Record VpnCustomerGateway := mkVpnCustomerGateway {
  cgw_Id : string; cgw_Name : string; cgw_Cidrlist : string;
  cgw_Esppolicy : string; cgw_Gateway : string; cgw_Ikepolicy : string;
  cgw_Ipsecpsk : string; cgw_Dpd : bool; cgw_Esplifetime : Z;
  cgw_Ikelifetime : Z; cgw_Project : string; cgw_Projectid : string }.

Record AffinityGroup := mkAffinityGroup {
  ag_Id : string; ag_Name : string; ag_Description : string;
  ag_Type : string }.

Record SecurityGroup := mkSecurityGroup {
  sg_Id : string; sg_Name : string; sg_Description : string;
  sg_Project : string; sg_Projectid : string }.

(** The remote calls the controllers issue. *)
Inductive Api : Type :=
(* cs.VirtualMachine *)
| DeployVirtualMachine | UpdateVirtualMachine | StopVirtualMachine
| StartVirtualMachine | ChangeServiceForVirtualMachine
| DestroyVirtualMachine | GetVirtualMachineByID
(* cs.AffinityGroup, cs.SSH, cs.SecurityGroup *)
| UpdateVMAffinityGroup | ResetSSHKeyForVirtualMachine
| CreateAffinityGroup | DeleteAffinityGroup | GetAffinityGroupByID
| CreateSecurityGroup | DeleteSecurityGroup | GetSecurityGroupByID
(* cs.Volume *)
| CreateVolume | AttachVolume | DetachVolume | DeleteVolume
| ListVolumes | GetVolumeByID
(* cs.Network, cs.NetworkOffering, cs.Address, cs.Zone *)
| CreateNetwork | DeleteNetwork | GetNetworkByID | GetNetworkOfferingByID
| AssociateIpAddress | GetPublicIpAddressByID | ListPublicIpAddresses
| GetZoneByID
(* cs.VPC *)
| CreateVPC | DeleteVPC | GetVPCByID | GetVPCOfferingByID
| CreatePrivateGateway | DeletePrivateGateway | GetPrivateGatewayByID
(* cs.NetworkACL *)
| CreateNetworkACLList | DeleteNetworkACLList | GetNetworkACLListByID
| ReplaceNetworkACLList
(* cs.VPN *)
| CreateVpnCustomerGateway | DeleteVpnCustomerGateway
| GetVpnCustomerGatewayByID
(* the calls behind the shared helpers of the provider: the identifier
   resolver and the tag synchronizer *)
| ResolveID | ResolveTemplateID | CreateTags | ReconcileTags.

#[global] Instance Api_eq_dec : EqDecision Api.
Proof. solve_decision. Defined.

(** What a call returns: [(r, err)] for a plain call, [(r, count, err)] for
    a lookup by ID. *)
Inductive shape : Type :=
| Plain (X : Type)
| ByID (X : Type).

Inductive lookup (X : Type) : Type :=
| Found (x : X)
| Failed (count : Z) (err : string).
Arguments Found {X} x.
Arguments Failed {X} count err.

Definition reply (sh : shape) : Type :=
  match sh with
  | Plain X => (string + X)%type
  | ByID X => lookup X
  end.

Definition reply_err {sh : shape} : reply sh -> error :=
  match sh with
  | Plain X => fun r => match r with inl e => Some e | inr _ => None end
  | ByID X => fun r => match r with Failed _ e => Some e | Found _ => None end
  end.

Definition shape_of (a : Api) : shape :=
  match a with
  | DeployVirtualMachine => Plain VirtualMachine
  | UpdateVirtualMachine | StopVirtualMachine | StartVirtualMachine
  | ChangeServiceForVirtualMachine | DestroyVirtualMachine => Plain unit
  | GetVirtualMachineByID => ByID VirtualMachine
  | UpdateVMAffinityGroup | ResetSSHKeyForVirtualMachine => Plain unit
  | CreateAffinityGroup => Plain AffinityGroup
  | DeleteAffinityGroup => Plain unit
  | GetAffinityGroupByID => ByID AffinityGroup
  | CreateSecurityGroup => Plain SecurityGroup
  | DeleteSecurityGroup => Plain unit
  | GetSecurityGroupByID => ByID SecurityGroup
  | CreateVolume | AttachVolume => Plain Volume
  | DetachVolume | DeleteVolume => Plain unit
  | ListVolumes => Plain (list Volume)
  | GetVolumeByID => ByID Volume
  | CreateNetwork => Plain Network
  | DeleteNetwork => Plain unit
  | GetNetworkByID => ByID Network
  | GetNetworkOfferingByID => ByID NetworkOffering
  | AssociateIpAddress => Plain PublicIpAddress
  | GetPublicIpAddressByID => ByID PublicIpAddress
  | ListPublicIpAddresses => Plain ListPublicIpAddressesResponse
  | GetZoneByID => ByID Zone
  | CreateVPC => Plain VPC
  | DeleteVPC => Plain unit
  | GetVPCByID => ByID VPC
  | GetVPCOfferingByID => ByID VPCOffering
  | CreatePrivateGateway => Plain PrivateGateway
  | DeletePrivateGateway => Plain unit
  | GetPrivateGatewayByID => ByID PrivateGateway
  | CreateNetworkACLList => Plain NetworkACLList
  | DeleteNetworkACLList => Plain unit
  | GetNetworkACLListByID => ByID NetworkACLList
  | ReplaceNetworkACLList => Plain unit
  | CreateVpnCustomerGateway => Plain VpnCustomerGateway
  | DeleteVpnCustomerGateway => Plain unit
  | GetVpnCustomerGatewayByID => ByID VpnCustomerGateway
  | ResolveID | ResolveTemplateID => Plain string
  | CreateTags | ReconcileTags => Plain unit
  end.

(** The client: some remote state and, for every call, the reply and the
    state after it. *)
Class CloudStackClient : Type := {
  World : Type;
  remote : forall a : Api, Params -> World -> reply (shape_of a) * World
}.

(** A call that was issued, with its parameters and the error it
    returned. *)
Record Event := mkEvent { ev_api : Api; ev_params : Params; ev_err : error }.

(** ** Controller code: state and errors

    A controller reads and writes its [ResourceData], calls the client, and
    returns an error, or panics. [st_log] records the calls issued, oldest
    first. *)
Section Controllers.
Context {cs : CloudStackClient}.

Record St := mkSt { st_d : ResourceData; st_w : World; st_log : list Event }.

Definition M (A : Type) : Type := St -> Outcome A * St.

Definition ret {A} (a : A) : M A := fun s => (Ok a, s).

Definition bind {A B} (m : M A) (k : A -> M B) : M B :=
  fun s => match m s with
           | (Ok a, s') => k a s'
           | (Err e, s') => (Err e, s')
           | (Panic e, s') => (Panic e, s')
           end.

(** [return err] with a non-nil error. *)
Definition fail {A} (msg : string) : M A := fun s => (Err msg, s).

Definition panic {A} (msg : string) : M A := fun s => (Panic msg, s).

Definition lift {A} (o : Outcome A) : M A := fun s => (o, s).

Definition call (a : Api) (p : Params) : M (reply (shape_of a)) :=
  fun s =>
    let (r, w') := remote a p (st_w s) in
    (Ok r, mkSt (st_d s) w' (st_log s ++ [mkEvent a p (reply_err r)])).

Definition read {A} (f : ResourceData -> A) : M A :=
  fun s => (Ok (f (st_d s)), s).

Definition write (f : ResourceData -> ResourceData) : M unit :=
  fun s => (Ok tt, mkSt (f (st_d s)) (st_w s) (st_log s)).

End Controllers.

Declare Scope go_scope.
Delimit Scope go_scope with go.
Notation "x <- m ;; k" := (bind m (fun x => k))
  (at level 100, m at next level, right associativity,
   format "'[v' x  <-  m  ;;  '/' k ']'") : go_scope.
Notation "m ;; k" := (bind m (fun _ => k))
  (at level 100, right associativity,
   format "'[v' m  ;;  '/' k ']'") : go_scope.
Local Open Scope go_scope.

Section ResourceDataOps.
Context {cs : CloudStackClient}.

(** [d.Id()], [d.Get(k)], [d.GetOk(k)], [d.HasChange(k)]. *)
Definition Id : M string := read d_id.
Definition Get_string (k : string) : M string := read (fun d => get_string d k).
Definition Get_int (k : string) : M Z := read (fun d => get_int d k).
Definition Get_bool (k : string) : M bool := read (fun d => get_bool d k).
Definition Get_list (k : string) : M (list string) :=
  read (fun d => get_list d k).
Definition Get_map (k : string) : M (gmap string string) :=
  read (fun d => get_map d k).
Definition GetOk_string (k : string) : M (option string) :=
  read (fun d => getok_string d k).
Definition GetOk_int (k : string) : M (option Z) :=
  read (fun d => getok_int d k).
Definition GetOk_bool (k : string) : M (option bool) :=
  read (fun d => getok_bool d k).
Definition GetOk_list (k : string) : M (option (list string)) :=
  read (fun d => getok_list d k).
Definition GetOk_map (k : string) : M (option (gmap string string)) :=
  read (fun d => getok_map d k).
Definition HasChange (k : string) : M bool := read (fun d => has_change d k).

(** [d.SetId(v)], [d.Set(k, v)], [d.SetConnInfo(c)]. *)
Definition SetId (v : string) : M unit := write (set_id v).
Definition Set_ (k : string) (v : value) : M unit := write (set_field k v).
Definition SetConnInfo (c : gmap string string) : M unit :=
  write (set_conn_info c).

(** [if b { body }]. *)
Definition when (b : bool) (body : M unit) : M unit :=
  if b then body else ret tt.

(** The same accessors on resource data whose schema declares the fields
    [fields]. [d.Get(k)] of a key the schema does not declare is [nil],
    and the type assertion on it panics; [d.Set(k, v)] of such a key
    returns an error, which the controllers ignore, and writes nothing. *)
Definition Get_string_in (fields : list string) (k : string) : M string :=
  if bool_decide (k ∈ fields) then Get_string k
  else panic "interface conversion: interface {} is nil, not string".
Definition Get_bool_in (fields : list string) (k : string) : M bool :=
  if bool_decide (k ∈ fields) then Get_bool k
  else panic "interface conversion: interface {} is nil, not bool".
Definition Set_in (fields : list string) (k : string) (v : value) : M unit :=
  if bool_decide (k ∈ fields) then Set_ k v else ret tt.

End ResourceDataOps.

(** ** Shared helpers *)
Section Helpers.
Context {cs : CloudStackClient}.

(** A parameter struct from its constructor arguments, and a setter. *)
Definition params (l : list (string * value)) : Params := list_to_map l.

Definition SetP (k : string) (v : value) (p : Params) : Params :=
  <[k := v]> p.

(** [if err != nil { return wrap(err) }]. *)
Definition check {X} (r : string + X) (wrap : string -> string) : M X :=
  match r with
  | inl err => fail (wrap err)
  | inr x => ret x
  end.

(** [if err := f(d, meta); err != nil { return wrap(err) }]. *)
Definition rewrap {A} (m : M A) (wrap : string -> string) : M A :=
  fun s =>
    match m s with
    | (Err err, s') => (Err (wrap err), s')
    | os' => os'
    end.

(** Modelled from the spec: the identifier resolver [retrieveID] of the
    provider is not part of these sources. Given a resource category and
    a value that is a name or an ID it returns the resolved ID, or fails
    (NotFound, AmbiguousMatch); how it looks the value up is left to the
    client. *)
Definition retrieveID (name value : string) : M (string + string) :=
  call ResolveID (params [("name", VString name); ("value", VString value)]).

(** Modelled from the spec: [retrieveTemplateID], the resolver for
    templates, which is scoped by the zone ID. *)
Definition retrieveTemplateID (zoneid value : string) : M (string + string) :=
  call ResolveTemplateID
    (params [("zoneid", VString zoneid); ("value", VString value)]).

(** Modelled from the spec: [setProjectid] is not part of these sources;
    "if there is a project supplied, we retrieve and set the project id".
    It returns the parameters and the error. *)
Definition setProjectid (p : Params) : M (Params * error) :=
  project <- GetOk_string "project" ;;
  match project with
  | Some project =>
      r <- retrieveID "project" project ;;
      match r with
      | inl e => ret (p, Some e)
      | inr projectid => ret (SetP "projectid" (VString projectid) p, None)
      end
  | None => ret (p, None)
  end.

(** Modelled from the spec: the tag synchronizer [setTags] is not part of
    these sources; it "applies a create-tags call for the full desired
    tag mapping", used on create, when tags are set. *)
Definition setTags (resourcetype : string) : M error :=
  tags <- GetOk_map "tags" ;;
  match tags with
  | Some tags =>
      id <- Id ;;
      r <- call CreateTags
             (params [("resourceids", VList [id]);
                      ("resourcetype", VString resourcetype);
                      ("tags", VMap tags)]) ;;
      ret (reply_err (sh := Plain unit) r)
  | None => ret None
  end.

(** Modelled from the spec: the tag synchronizer [updateTags] is not part
    of these sources; it reconciles the remote tags from the old and the
    new tag mapping; the delete and create calls it issues are left to
    the client as one step. *)
Definition updateTags (resourcetype : string) : M error :=
  id <- Id ;;
  o <- read (fun d => default (VMap ∅) (d_old d !! "tags")) ;;
  n <- Get_map "tags" ;;
  r <- call ReconcileTags
         (params [("resourceids", VList [id]);
                  ("resourcetype", VString resourcetype);
                  ("old", o); ("new", VMap n)]) ;;
  ret (reply_err (sh := Plain unit) r).

(** Modelled from the spec: [tagsToMap] is not part of these sources; it
    is the loop [tags[tag.Key] = tag.Value] the other Read functions
    spell out. *)
Definition tagsToMap (tags : list Tags) : gmap string string :=
  foldl (fun m tag => <[Key tag := Value tag]> m) ∅ tags.

(** Modelled from the spec: [setValueOrID] is not part of these sources;
    the read path writes back the name or the ID the remote API reported
    for the field, "preferring name when available". *)
Definition setValueOrID (key value id : string) : M unit :=
  Set_ key (VString (if decide (value = "") then id else value)).

(** Modelled from the spec: [setValueOrID] on resource data whose schema
    declares the fields [fields]. *)
Definition setValueOrID_in (fields : list string) (key value id : string)
  : M unit :=
  Set_in fields key (VString (if decide (value = "") then id else value)).

(** Modelled from the spec: the retry wrapper [Retry] is not part of
    these sources; it "invokes operation up to maxAttempts times with a
    fixed inter-attempt delay, returning on first success; after
    exhausting attempts, returns the last error". The delay is not
    modelled; [lastErr] is the error of the latest attempt. *)
Fixpoint Retry_from {X} (n : nat) (lastErr : string) (f : M (string + X))
  : M (string + X) :=
  match n with
  | O => ret (inl lastErr)
  | S n' =>
      r <- f ;;
      match r with
      | inr x => ret (inr x)
      | inl err => Retry_from n' err f
      end
  end.

Definition Retry {X} (n : nat) (f : M (string + X)) : M (string + X) :=
  Retry_from n "" f.

(** The parameters of a lookup by ID, with the [WithProject] option. *)
Definition byid (id project : string) : Params :=
  params [("id", VString id); ("project", VString project)].

End Helpers.

(** ** Instance controller (resource_cloudstack_instance.go) *)
Section Instance.
Context {cs : CloudStackClient}.

(** [groups.Add(...)] over the groups of the response: a set. *)
Definition group_set (f : Group -> string) (l : list Group) : value :=
  VList (remove_dups (f <$> l)).

Definition resourceCloudStackInstanceRead : M unit :=
  id <- Id ;;
  project <- Get_string "project" ;;
  (* Get the virtual machine details *)
  r <- call GetVirtualMachineByID (byid id project) ;;
  match r with
  | Failed count err =>
      if decide (count = 0) then SetId "" (* and return nil *)
      else fail err
  | Found vm =>
      (* Update the config *)
      Set_ "name" (VString (vm_Name vm)) ;;
      Set_ "display_name" (VString (vm_Displayname vm)) ;;
      Set_ "group" (VString (vm_Group vm)) ;;
      (* an instance may not have any attached NIC anymore *)
      match vm_Nic vm with
      | nic0 :: _ =>
          Set_ "network_id" (VString (nic_Networkid nic0)) ;;
          Set_ "ip_address" (VString (nic_Ipaddress nic0)) ;;
          when (negb (bool_decide (nic_Ip6address nic0 = "")))
            (Set_ "ip6_address" (VString (nic_Ip6address nic0)) ;;
             Set_ "ip6_cidr" (VString (nic_Ip6cidr nic0)))
      | [] => ret tt
      end ;;
      (* Get the root disk of the instance. *)
      id <- Id ;;
      let p := params [] in
      let p := SetP "type" (VString "ROOT") p in
      let p := SetP "virtualmachineid" (VString id) p in
      r <- call ListVolumes p ;;
      l <- check r (fun err => err) ;;
      (* If we found the root disk, then update its size. *)
      match l with
      | [v] => Set_ "root_disk_size" (VInt (Z.shiftr (vol_Size v) 30))
      | _ => ret tt
      end ;;
      ok <- GetOk_list "affinity_group_ids" ;;
      when (bool_decide (is_Some ok))
        (Set_ "affinity_group_ids" (group_set grp_Id (vm_Affinitygroup vm))) ;;
      ok <- GetOk_list "affinity_group_names" ;;
      when (bool_decide (is_Some ok))
        (Set_ "affinity_group_names"
           (group_set grp_Name (vm_Affinitygroup vm))) ;;
      ok <- GetOk_list "security_group_ids" ;;
      when (bool_decide (is_Some ok))
        (Set_ "security_group_ids" (group_set grp_Id (vm_Securitygroup vm))) ;;
      ok <- GetOk_list "security_group_names" ;;
      when (bool_decide (is_Some ok))
        (Set_ "security_group_names"
           (group_set grp_Name (vm_Securitygroup vm))) ;;
      Set_ "tags" (VMap (tagsToMap (vm_Tags vm))) ;;
      setValueOrID "service_offering" (vm_Serviceofferingname vm)
        (vm_Serviceofferingid vm) ;;
      setValueOrID "template" (vm_Templatename vm) (vm_Templateid vm) ;;
      setValueOrID "project" (vm_Project vm) (vm_Projectid vm) ;;
      setValueOrID "zone" (vm_Zonename vm) (vm_Zoneid vm)
  end.

(** An optional parameter: set when the configuration supplies it. *)
Definition SetP_opt (k : string) (o : option value) (p : Params) : Params :=
  match o with Some v => SetP k v p | None => p end.

Definition nonempty (l : list string) : option value :=
  match l with [] => None | _ => Some (VList l) end.

Definition resourceCloudStackInstanceCreate : M unit :=
  (* Retrieve the service_offering ID *)
  so <- Get_string "service_offering" ;;
  r <- retrieveID "service_offering" so ;;
  serviceofferingid <- check r (fun e => e) ;;
  (* Retrieve the zone ID *)
  z <- Get_string "zone" ;;
  r <- retrieveID "zone" z ;;
  zoneid <- check r (fun e => e) ;;
  (* Retrieve the zone object *)
  r <- call GetZoneByID (params [("id", VString zoneid)]) ;;
  match r with
  | Failed _ err => fail err
  | Found zone =>
      (* Retrieve the template ID *)
      t <- Get_string "template" ;;
      r <- retrieveTemplateID (zone_Id zone) t ;;
      templateid <- check r (fun e => e) ;;
      (* Create a new parameter struct *)
      let p := params [("serviceofferingid", VString serviceofferingid);
                       ("templateid", VString templateid);
                       ("zoneid", VString (zone_Id zone))] in
      start_vm <- Get_bool "start_vm" ;;
      let p := SetP "startvm" (VBool start_vm) p in
      details <- GetOk_map "details" ;;
      let p := SetP_opt "details" (VMap <$> details) p in
      properties <- GetOk_map "properties" ;;
      let p := SetP_opt "properties" (VMap <$> properties) p in
      (* SetNicNetworkList: the entries of the map are asserted to be
         strings unchecked, and a missing entry is nil *)
      nicnetworklist <- GetOk_map "nicnetworklist" ;;
      p <- match nicnetworklist with
           | Some m =>
               match m !! "nic" with
               | Some nic =>
                   match m !! "network" with
                   | Some network =>
                       ret (SetP "nicnetworklist"
                              (VMaps [list_to_map [("nic", nic);
                                                   ("network", network)]])
                              p)
                   | None =>
                       panic
                         "interface conversion: interface {} is nil, not string"
                   end
               | None =>
                   panic
                     "interface conversion: interface {} is nil, not string"
               end
           | None => ret p
           end ;;
      (* Set the name *)
      name <- Get_string "name" ;;
      hasName <- GetOk_string "name" ;;
      let p := SetP_opt "name" (VString <$> hasName) p in
      (* Set the display name *)
      displayname <- GetOk_string "display_name" ;;
      let p := match displayname with
               | Some displayname => SetP "displayname" (VString displayname) p
               | None => SetP_opt "displayname" (VString <$> hasName) p
               end in
      rootdisksize <- GetOk_int "root_disk_size" ;;
      let p := SetP_opt "rootdisksize" (VInt <$> rootdisksize) p in
      uefi <- Get_bool "uefi" ;;
      let p := if uefi
               then SetP "bootmode" (VString "Legacy")
                      (SetP "boottype" (VString "UEFI") p)
               else p in
      network_id <- Get_string "network_id" ;;
      let p := if decide (zone_Networktype zone = "Advanced")
               then SetP "networkids" (VList [network_id]) p else p in
      ipaddress <- GetOk_string "ip_address" ;;
      let p := SetP_opt "ipaddress" (VString <$> ipaddress) p in
      group <- GetOk_string "group" ;;
      let p := SetP_opt "group" (VString <$> group) p in
      agIDs <- Get_list "affinity_group_ids" ;;
      let p := SetP_opt "affinitygroupids" (nonempty agIDs) p in
      agNames <- Get_list "affinity_group_names" ;;
      let p := SetP_opt "affinitygroupnames" (nonempty agNames) p in
      sgIDs <- Get_list "security_group_ids" ;;
      let p := SetP_opt "securitygroupids" (nonempty sgIDs) p in
      sgNames <- Get_list "security_group_names" ;;
      let p := SetP_opt "securitygroupnames" (nonempty sgNames) p in
      (* If there is a project supplied, we retrieve and set the project id *)
      pe <- setProjectid p ;;
      match pe with
      | (_, Some err) => fail err
      | (p, None) =>
          keypair <- GetOk_string "keypair" ;;
          let p := SetP_opt "keypair" (VString <$> keypair) p in
          keypairs <- GetOk_list "keypairs" ;;
          let p := SetP_opt "keypairs" (VList <$> keypairs) p in
          hostid <- GetOk_string "host_id" ;;
          let p := SetP_opt "hostid" (VString <$> hostid) p in
          podid <- GetOk_string "pod_id" ;;
          let p := SetP_opt "podid" (VString <$> podid) p in
          clusterid <- GetOk_string "cluster_id" ;;
          let p := SetP_opt "clusterid" (VString <$> clusterid) p in
          userData <- GetOk_string "user_data" ;;
          p <- match userData with
               | Some userData =>
                   match getUserData userData with
                   | (_, Some err) => fail err
                   | (ud, None) => ret (SetP "userdata" (VString ud) p)
                   end
               | None => ret p
               end ;;
          (* Create the new instance *)
          r <- call DeployVirtualMachine p ;;
          r <- check r (fun err => "Error creating the new instance " +:+
                                   name +:+ ": " +:+ err) ;;
          SetId (vm_Id r) ;;
          (* Set tags if necessary *)
          err <- setTags "userVm" ;;
          match err with
          | Some err =>
              fail ("Error setting tags on the new instance " +:+ name +:+
                    ": " +:+ err)
          | None =>
              (* Set the connection info for any configured provisioners *)
              match vm_Nic r with
              | nic0 :: _ =>
                  SetConnInfo (list_to_map
                                 [("host", nic_Ipaddress nic0);
                                  ("password", vm_Password r)]) ;;
                  resourceCloudStackInstanceRead
              | [] => panic "index out of range [0] with length 0"
              end
          end
      end
  end.

Definition resourceCloudStackInstanceUpdate : M unit :=
  name <- Get_string "name" ;;
  (* Check if the display name is changed and if so, update the virtual
     machine *)
  changed <- HasChange "display_name" ;;
  when changed
    (id <- Id ;;
     display_name <- Get_string "display_name" ;;
     let p := params [("id", VString id)] in
     let p := SetP "displayname" (VString display_name) p in
     r <- call UpdateVirtualMachine p ;;
     check r (fun err => "Error updating the display name for instance " +:+
                         name +:+ ": " +:+ err)) ;;
  (* Check if the group is changed and if so, update the virtual machine *)
  changed <- HasChange "group" ;;
  when changed
    (id <- Id ;;
     group <- Get_string "group" ;;
     let p := params [("id", VString id)] in
     let p := SetP "group" (VString group) p in
     r <- call UpdateVirtualMachine p ;;
     check r (fun err => "Error updating the group for instance " +:+
                         name +:+ ": " +:+ err)) ;;
  (* Attributes that require reboot to update *)
  c_name <- HasChange "name" ;;
  c_so <- HasChange "service_offering" ;;
  c_agids <- HasChange "affinity_group_ids" ;;
  c_agnames <- HasChange "affinity_group_names" ;;
  c_keypair <- HasChange "keypair" ;;
  c_keypairs <- HasChange "keypairs" ;;
  c_ud <- HasChange "user_data" ;;
  when (c_name || c_so || c_agids || c_agnames || c_keypair || c_keypairs
        || c_ud)
    (id <- Id ;;
     (* Before we can actually make these changes, the virtual machine
        must be stopped *)
     r <- call StopVirtualMachine (params [("id", VString id)]) ;;
     check r (fun err => "Error stopping instance " +:+ name +:+
                         " before making changes: " +:+ err) ;;
     (* Check if the name has changed and if so, update the name *)
     when c_name
       (let p := params [("id", VString id)] in
        let p := SetP "name" (VString name) p in
        r <- call UpdateVirtualMachine p ;;
        check r (fun err => "Error updating the name for instance " +:+
                            name +:+ ": " +:+ err)) ;;
     (* Check if the service offering is changed and if so, update the
        offering *)
     when c_so
       (so <- Get_string "service_offering" ;;
        r <- retrieveID "service_offering" so ;;
        serviceofferingid <- check r (fun e => e) ;;
        let p := params [("id", VString id);
                         ("serviceofferingid", VString serviceofferingid)] in
        r <- call ChangeServiceForVirtualMachine p ;;
        check r (fun err =>
                   "Error changing the service offering for instance " +:+
                   name +:+ ": " +:+ err)) ;;
     (* Check if the affinity group IDs have changed and if so, update the
        IDs *)
     when c_agids
       (groups <- Get_list "affinity_group_ids" ;;
        let p := params [("virtualmachineid", VString id)] in
        let p := SetP "affinitygroupids" (VList groups) p in
        r <- call UpdateVMAffinityGroup p ;;
        check r (fun err =>
                   "Error updating the affinity groups for instance " +:+
                   name +:+ ": " +:+ err)) ;;
     (* Check if the affinity group names have changed and if so, update
        the names *)
     when c_agnames
       (groups <- Get_list "affinity_group_names" ;;
        let p := params [("virtualmachineid", VString id)] in
        let p := SetP "affinitygroupnames" (VList groups) p in
        r <- call UpdateVMAffinityGroup p ;;
        check r (fun err =>
                   "Error updating the affinity groups for instance " +:+
                   name +:+ ": " +:+ err)) ;;
     (* Check if the keypair has changed and if so, update the keypair *)
     when (c_keypair || c_keypairs)
       (let p := params [("id", VString id)] in
        keypair <- GetOk_string "keypair" ;;
        let p := SetP_opt "keypair" (VString <$> keypair) p in
        keypairs <- GetOk_list "keypairs" ;;
        let p := SetP_opt "keypairs" (VList <$> keypairs) p in
        (* If there is a project supplied, we retrieve and set the project
           id *)
        pe <- setProjectid p ;;
        match pe with
        | (_, Some err) => fail err
        | (p, None) =>
            (* Change the ssh keypair *)
            r <- call ResetSSHKeyForVirtualMachine p ;;
            check r (fun err =>
                       "Error changing the SSH keypair(s) for instance " +:+
                       name +:+ ": " +:+ err)
        end) ;;
     (* Check if the user data has changed and if so, update the user
        data *)
     when c_ud
       (user_data <- Get_string "user_data" ;;
        match getUserData user_data with
        | (_, Some err) => fail err
        | (ud, None) =>
            let p := params [("id", VString id)] in
            let p := SetP "userdata" (VString ud) p in
            r <- call UpdateVirtualMachine p ;;
            check r (fun err => "Error updating user_data for instance " +:+
                                name +:+ ": " +:+ err)
        end) ;;
     (* Start the virtual machine again *)
     r <- call StartVirtualMachine (params [("id", VString id)]) ;;
     check r (fun _ => "Error starting instance " +:+ name +:+
                       " after making changes")) ;;
  (* Check if the tags have changed and if so, update the tags *)
  changed <- HasChange "tags" ;;
  when changed
    (err <- updateTags "UserVm" ;;
     match err with
     | Some err => fail ("Error updating tags on instance " +:+ name +:+
                         ": " +:+ err)
     | None => ret tt
     end) ;;
  (* Check if the details have changed: the parameter struct built here
     is never sent *)
  changed <- HasChange "details" ;;
  when changed (ret tt) ;;
  resourceCloudStackInstanceRead.

Definition resourceCloudStackInstanceDelete : M unit :=
  id <- Id ;;
  (* Create a new parameter struct *)
  let p := params [("id", VString id)] in
  expunge <- Get_bool "expunge" ;;
  let p := if expunge then SetP "expunge" (VBool true) p else p in
  r <- call DestroyVirtualMachine p ;;
  match r with
  | inl err =>
      (* This is a very poor way to be told the ID does no longer exist *)
      id <- Id ;;
      if Contains err (entity_gone_msg id) then ret tt
      else fail ("Error destroying instance: " +:+ err)
  | inr _ => ret tt
  end.

End Instance.

(** ** Disk controller (resource_cloudstack_disk.go) *)
Section Disk.
Context {cs : CloudStackClient}.

(** The loop [tags[tag.Key] = tag.Value] over the tags of a response. *)
Definition tags_of (tags : list Tags) : value :=
  VMap (foldl (fun m tag => <[Key tag := Value tag]> m) ∅ tags).

Definition isAttached : M (string + bool) :=
  id <- Id ;;
  project <- Get_string "project" ;;
  (* Get the volume details *)
  r <- call GetVolumeByID (byid id project) ;;
  match r with
  | Failed _ err => ret (inl err)
  | Found v => ret (inr (negb (bool_decide (vol_Virtualmachineid v = ""))))
  end.

Definition retryableAttachVolumeFunc (p : Params) : M (string + Volume) :=
  r <- call AttachVolume p ;;
  match r with
  | inl err => ret (inl err)
  | inr r => ret (inr r)
  end.

Definition resourceCloudStackDiskAttach : M unit :=
  virtualmachineid <- GetOk_string "virtual_machine_id" ;;
  match virtualmachineid with
  | Some virtualmachineid =>
      (* First check if the disk isn't already attached *)
      a <- isAttached ;;
      match a with
      | inl err => fail err
      | inr true => ret tt
      | inr false =>
          id <- Id ;;
          (* Create a new parameter struct *)
          let p := params [("id", VString id);
                           ("virtualmachineid", VString virtualmachineid)] in
          deviceid <- GetOk_int "device_id" ;;
          let p := SetP_opt "deviceid" (VInt <$> deviceid) p in
          (* Attach the new volume *)
          r <- Retry 10 (retryableAttachVolumeFunc p) ;;
          r <- check r (fun err => "Error attaching volume to VM: " +:+ err) ;;
          SetId (vol_Id r)
      end
  | None => ret tt
  end.

Definition resourceCloudStackDiskDetach : M unit :=
  (* Check if the volume is actually attached, before detaching *)
  a <- isAttached ;;
  match a with
  | inl err => fail err
  | inr false => ret tt
  | inr true =>
      id <- Id ;;
      (* Create a new parameter struct and set the volume ID *)
      let p := SetP "id" (VString id) (params []) in
      (* Detach the currently attached volume *)
      r <- call DetachVolume p ;;
      match r with
      | inr _ => ret tt
      | inl err =>
          virtualmachineid <- GetOk_string "virtual_machine_id" ;;
          match virtualmachineid with
          | Some virtualmachineid =>
              let pd := params [("id", VString virtualmachineid)] in
              (* Stop the virtual machine in order to be able to detach the
                 disk *)
              r <- call StopVirtualMachine pd ;;
              check r (fun err => err) ;;
              (* Try again to detach the currently attached volume *)
              r <- call DetachVolume p ;;
              check r (fun err => err) ;;
              let pu := params [("id", VString virtualmachineid)] in
              (* Start the virtual machine again *)
              r <- call StartVirtualMachine pu ;;
              check r (fun err => err) ;;
              ret tt
          | None => ret tt
          end ;;
          (* [return err]: the error of the first DetachVolume *)
          fail err
      end
  end.

Definition resourceCloudStackDiskRead : M unit :=
  id <- Id ;;
  project <- Get_string "project" ;;
  (* Get the volume details *)
  r <- call GetVolumeByID (byid id project) ;;
  match r with
  | Failed count err =>
      if decide (count = 0) then SetId "" else fail err
  | Found v =>
      Set_ "name" (VString (vol_Name v)) ;;
      Set_ "attach"
        (VBool (negb (bool_decide (vol_Virtualmachineid v = "")))) ;;
      Set_ "size" (VInt (vol_Size v / (1024 * 1024 * 1024))) ;;
      Set_ "tags" (tags_of (vol_Tags v)) ;;
      setValueOrID "disk_offering" (vol_Diskofferingname v)
        (vol_Diskofferingid v) ;;
      setValueOrID "project" (vol_Project v) (vol_Projectid v) ;;
      setValueOrID "zone" (vol_Zonename v) (vol_Zoneid v) ;;
      when (negb (bool_decide (vol_Virtualmachineid v = "")))
        (Set_ "device_id" (VInt (vol_Deviceid v)) ;;
         Set_ "virtual_machine_id" (VString (vol_Virtualmachineid v)))
  end.

Definition resourceCloudStackDiskCreate : M unit :=
  name <- Get_string "name" ;;
  (* Create a new parameter struct *)
  let p := SetP "name" (VString name) (params []) in
  (* Retrieve the disk_offering ID *)
  disk_offering <- Get_string "disk_offering" ;;
  r <- retrieveID "disk_offering" disk_offering ;;
  diskofferingid <- check r (fun e => e) ;;
  let p := SetP "diskofferingid" (VString diskofferingid) p in
  size <- Get_int "size" ;;
  let p := if decide (size = 0) then p else SetP "size" (VInt size) p in
  (* If there is a project supplied, we retrieve and set the project id *)
  pe <- setProjectid p ;;
  match pe with
  | (_, Some err) => fail err
  | (p, None) =>
      (* Retrieve the zone ID *)
      zone <- Get_string "zone" ;;
      r <- retrieveID "zone" zone ;;
      zoneid <- check r (fun e => e) ;;
      let p := SetP "zoneid" (VString zoneid) p in
      (* Create the new volume *)
      r <- call CreateVolume p ;;
      r <- check r (fun err => "Error creating the new disk " +:+ name +:+
                               ": " +:+ err) ;;
      (* Set the volume ID and partials *)
      SetId (vol_Id r) ;;
      (* Set tags if necessary *)
      err <- setTags "Volume" ;;
      match err with
      | Some err => fail ("Error setting tags on the new disk " +:+ name +:+
                          ": " +:+ err)
      | None =>
          attach <- Get_bool "attach" ;;
          when attach
            (rewrap resourceCloudStackDiskAttach
               (fun err => "Error attaching the new disk " +:+ name +:+
                           " to virtual machine: " +:+ err)) ;;
          resourceCloudStackDiskRead
      end
  end.

Definition resourceCloudStackDiskDelete : M unit :=
  (* Detach the volume *)
  resourceCloudStackDiskDetach ;;
  id <- Id ;;
  (* Create a new parameter struct *)
  let p := params [("id", VString id)] in
  (* Delete the volume *)
  r <- call DeleteVolume p ;;
  match r with
  | inl err =>
      (* This is a very poor way to be told the ID does no longer exist *)
      id <- Id ;;
      if Contains err (entity_gone_msg id) then ret tt else fail err
  | inr _ => ret tt
  end.

End Disk.

(** ** Network controller (resource_cloudstack_network.go) *)
Section Network.
Context {cs : CloudStackClient}.

Definition none : string := "none".

Definition resourceCloudStackNetworkRead : M unit :=
  id <- Id ;;
  project <- Get_string "project" ;;
  (* Get the virtual machine details *)
  r <- call GetNetworkByID (byid id project) ;;
  match r with
  | Failed count err =>
      if decide (count = 0) then SetId "" else fail err
  | Found n =>
      Set_ "name" (VString (net_Name n)) ;;
      Set_ "display_text" (VString (net_Displaytext n)) ;;
      Set_ "cidr" (VString (net_Cidr n)) ;;
      Set_ "gateway" (VString (net_Gateway n)) ;;
      Set_ "network_domain" (VString (net_Networkdomain n)) ;;
      Set_ "vpc_id" (VString (net_Vpcid n)) ;;
      let aclid := if decide (net_Aclid n = "") then none else net_Aclid n in
      Set_ "acl_id" (VString aclid) ;;
      Set_ "tags" (tags_of (net_Tags n)) ;;
      setValueOrID "network_offering" (net_Networkofferingname n)
        (net_Networkofferingid n) ;;
      setValueOrID "project" (net_Project n) (net_Projectid n) ;;
      setValueOrID "zone" (net_Zonename n) (net_Zoneid n) ;;
      source_nat_ip <- Get_bool "source_nat_ip" ;;
      when source_nat_ip
        (source_nat_ip_id <- Get_string "source_nat_ip_id" ;;
         project <- Get_string "project" ;;
         r <- call GetPublicIpAddressByID (byid source_nat_ip_id project) ;;
         match r with
         | Failed count err =>
             if decide (count = 0)
             then Set_ "source_nat_ip" (VBool false) ;;
                  Set_ "source_nat_ip_id" (VString "")
             else fail err
         | Found ip =>
             when (negb (bool_decide (net_Id n = ip_Associatednetworkid ip)))
               (Set_ "source_nat_ip" (VBool false) ;;
                Set_ "source_nat_ip_id" (VString ""))
         end)
  end.

(** The fields the schema of the network resource declares. *)
Definition network_schema_fields : list string :=
  ["name"; "display_text"; "cidr"; "gateway"; "startip"; "endip";
   "network_domain"; "network_offering"; "vlan"; "vpc_id"; "acl_id";
   "project"; "source_nat_ip"; "source_nat_ip_address"; "source_nat_ip_id";
   "zone"; "bypass_vlan_check"; "tags"].

(** [resourceCloudStackNetworkRead(d, meta)] on the resource data [d] of
    a resource whose schema declares the fields [fields]: the function
    above is the case of the network's own schema, where every field it
    reads and writes is declared. The argument of [log.Printf] is
    evaluated before the ID is cleared. *)
Definition resourceCloudStackNetworkRead_in (fields : list string) : M unit :=
  id <- Id ;;
  project <- Get_string_in fields "project" ;;
  (* Get the virtual machine details *)
  r <- call GetNetworkByID (byid id project) ;;
  match r with
  | Failed count err =>
      if decide (count = 0)
      then Get_string_in fields "name" ;; SetId ""
      else fail err
  | Found n =>
      Set_in fields "name" (VString (net_Name n)) ;;
      Set_in fields "display_text" (VString (net_Displaytext n)) ;;
      Set_in fields "cidr" (VString (net_Cidr n)) ;;
      Set_in fields "gateway" (VString (net_Gateway n)) ;;
      Set_in fields "network_domain" (VString (net_Networkdomain n)) ;;
      Set_in fields "vpc_id" (VString (net_Vpcid n)) ;;
      let aclid := if decide (net_Aclid n = "") then none else net_Aclid n in
      Set_in fields "acl_id" (VString aclid) ;;
      Set_in fields "tags" (tags_of (net_Tags n)) ;;
      setValueOrID_in fields "network_offering" (net_Networkofferingname n)
        (net_Networkofferingid n) ;;
      setValueOrID_in fields "project" (net_Project n) (net_Projectid n) ;;
      setValueOrID_in fields "zone" (net_Zonename n) (net_Zoneid n) ;;
      source_nat_ip <- Get_bool_in fields "source_nat_ip" ;;
      when source_nat_ip
        (source_nat_ip_id <- Get_string_in fields "source_nat_ip_id" ;;
         project <- Get_string_in fields "project" ;;
         r <- call GetPublicIpAddressByID (byid source_nat_ip_id project) ;;
         match r with
         | Failed count err =>
             if decide (count = 0)
             then Set_in fields "source_nat_ip" (VBool false) ;;
                  Set_in fields "source_nat_ip_id" (VString "")
             else fail err
         | Found ip =>
             when (negb (bool_decide (net_Id n = ip_Associatednetworkid ip)))
               (Set_in fields "source_nat_ip" (VBool false) ;;
                Set_in fields "source_nat_ip_id" (VString ""))
         end)
  end.

Definition resourceCloudStackNetworkCreate : M unit :=
  name <- Get_string "name" ;;
  (* Retrieve the network_offering ID *)
  network_offering <- Get_string "network_offering" ;;
  r <- retrieveID "network_offering" network_offering ;;
  networkofferingid <- check r (fun e => e) ;;
  (* Retrieve the zone ID *)
  zone <- Get_string "zone" ;;
  r <- retrieveID "zone" zone ;;
  zoneid <- check r (fun e => e) ;;
  (* Create a new parameter struct *)
  let p := params [("name", VString name);
                   ("networkofferingid", VString networkofferingid);
                   ("zoneid", VString zoneid)] in
  displaytext <- GetOk_string "display_text" ;;
  let p := SetP "displaytext" (VString (default name displaytext)) p in
  (* Get the network offering to check if it supports specifying IP
     ranges *)
  r <- call GetNetworkOfferingByID (params [("id", VString networkofferingid)]) ;;
  match r with
  | Failed _ err => fail err
  | Found no =>
      d <- read (fun d => d) ;;
      m <- lift (parseCIDR d (no_Specifyipranges no)) ;;
      (* Set the needed IP config *)
      let p := SetP "gateway" (VString (default "" (m !! "gateway"))) p in
      let p := SetP "netmask" (VString (default "" (m !! "netmask"))) p in
      (* Only set the start IP if we have one *)
      let p := SetP_opt "startip" (VString <$> m !! "startip") p in
      (* Only set the end IP if we have one *)
      let p := SetP_opt "endip" (VString <$> m !! "endip") p in
      (* Set the network domain if we have one *)
      networkDomain <- GetOk_string "network_domain" ;;
      let p := SetP_opt "networkdomain" (VString <$> networkDomain) p in
      vlan <- GetOk_int "vlan" ;;
      let p := SetP_opt "vlan" ((fun v => VString (pretty v)) <$> vlan) p in
      (* Bypass VLAN overlap check if necessary *)
      bypass <- Get_bool "bypass_vlan_check" ;;
      let p := SetP "bypassvlanoverlapcheck" (VBool bypass) p in
      (* Check is this network needs to be created in a VPC *)
      vpcid <- GetOk_string "vpc_id" ;;
      aclid <- GetOk_string "acl_id" ;;
      let p := match vpcid with
               | Some vpcid =>
                   let p := SetP "vpcid" (VString vpcid) p in
                   match aclid with
                   | Some aclid =>
                       if decide (aclid = none) then p
                       else SetP "aclid" (VString aclid) p
                   | None => p
                   end
               | None => p
               end in
      (* If there is a project supplied, we retrieve and set the project id *)
      pe <- setProjectid p ;;
      match pe with
      | (_, Some err) => fail err
      | (p, None) =>
          (* Create the new network *)
          r <- call CreateNetwork p ;;
          r <- check r (fun err => "Error creating network " +:+ name +:+
                                   ": " +:+ err) ;;
          SetId (net_Id r) ;;
          (* Set tags if necessary *)
          err <- setTags "network" ;;
          match err with
          | Some err => fail ("Error setting tags: " +:+ err)
          | None =>
              source_nat_ip <- Get_bool "source_nat_ip" ;;
              when source_nat_ip
                ((* Set required options *)
                 let p := SetP "zoneid" (VString zoneid)
                            (SetP "networkid" (VString (net_Id r))
                               (params [])) in
                 vpcid <- GetOk_string "vpc_id" ;;
                 let p := SetP_opt "vpcid" (VString <$> vpcid) p in
                 pe <- setProjectid p ;;
                 match pe with
                 | (_, Some err) => fail err
                 | (p, None) =>
                     (* Associate a new IP address *)
                     r <- call AssociateIpAddress p ;;
                     ip <- check r (fun err =>
                             "Error associating a new IP address: " +:+ err) ;;
                     Set_ "source_nat_ip_address" (VString (ip_Ipaddress ip)) ;;
                     Set_ "source_nat_ip_id" (VString (ip_Id ip))
                 end) ;;
              resourceCloudStackNetworkRead
          end
      end
  end.

Definition resourceCloudStackNetworkDelete : M unit :=
  id <- Id ;;
  (* Create a new parameter struct *)
  let p := params [("id", VString id)] in
  (* Delete the network *)
  r <- call DeleteNetwork p ;;
  match r with
  | inl err =>
      (* This is a very poor way to be told the ID does no longer exist *)
      id <- Id ;;
      if Contains err (entity_gone_msg id) then ret tt
      else
        name <- Get_string "name" ;;
        fail ("Error deleting network " +:+ name +:+ ": " +:+ err)
  | inr _ => ret tt
  end.

End Network.

(** ** VPC controller (resource_cloudstack_vpc.go) *)
Section VPCController.
Context {cs : CloudStackClient}.

Definition resourceCloudStackVPCRead : M unit :=
  id <- Id ;;
  project <- Get_string "project" ;;
  (* Get the VPC details *)
  r <- call GetVPCByID (byid id project) ;;
  match r with
  | Failed count err =>
      if decide (count = 0) then SetId "" else fail err
  | Found v =>
      Set_ "name" (VString (vpc_Name v)) ;;
      Set_ "display_text" (VString (vpc_Displaytext v)) ;;
      Set_ "cidr" (VString (vpc_Cidr v)) ;;
      Set_ "network_domain" (VString (vpc_Networkdomain v)) ;;
      Set_ "tags" (tags_of (vpc_Tags v)) ;;
      (* Get the VPC offering details *)
      r <- call GetVPCOfferingByID (params [("id", VString (vpc_Vpcofferingid v))]) ;;
      match r with
      | Failed _ err => fail err
      | Found o =>
          setValueOrID "vpc_offering" (vo_Name o) (vpc_Vpcofferingid v) ;;
          setValueOrID "project" (vpc_Project v) (vpc_Projectid v) ;;
          setValueOrID "zone" (vpc_Zonename v) (vpc_Zoneid v) ;;
          (* Create a new parameter struct *)
          id <- Id ;;
          let p := SetP "issourcenat" (VBool true)
                     (SetP "vpcid" (VString id) (params [])) in
          (* If there is a project supplied, we retrieve and set the
             project id *)
          pe <- setProjectid p ;;
          match pe with
          | (_, Some err) => fail err
          | (p, None) =>
              (* Get the source NAT IP assigned to the VPC *)
              r <- call ListPublicIpAddresses p ;;
              l <- check r (fun err => err) ;;
              if decide (lip_Count l = 1) then
                match lip_PublicIpAddresses l with
                | ip0 :: _ => Set_ "source_nat_ip" (VString (ip_Ipaddress ip0))
                | [] => panic "index out of range [0] with length 0"
                end
              else ret tt
          end
      end
  end.

Definition resourceCloudStackVPCCreate : M unit :=
  name <- Get_string "name" ;;
  (* Retrieve the vpc_offering ID *)
  vpc_offering <- Get_string "vpc_offering" ;;
  r <- retrieveID "vpc_offering" vpc_offering ;;
  vpcofferingid <- check r (fun e => e) ;;
  (* Retrieve the zone ID *)
  zone <- Get_string "zone" ;;
  r <- retrieveID "zone" zone ;;
  zoneid <- check r (fun e => e) ;;
  (* Set the display text *)
  displaytext <- GetOk_string "display_text" ;;
  let displaytext := default name displaytext in
  (* Create a new parameter struct *)
  let p := params [("displaytext", VString displaytext);
                   ("name", VString name);
                   ("vpcofferingid", VString vpcofferingid);
                   ("zoneid", VString zoneid)] in
  cidr <- Get_string "cidr" ;;
  let p := SetP "cidr" (VString cidr) p in
  (* If there is a network domain supplied, make sure to add it to the
     request *)
  networkDomain <- GetOk_string "network_domain" ;;
  let p := SetP_opt "networkdomain" (VString <$> networkDomain) p in
  (* If there is a project supplied, we retrieve and set the project id *)
  pe <- setProjectid p ;;
  match pe with
  | (_, Some err) => fail err
  | (p, None) =>
      (* Create the new VPC *)
      r <- call CreateVPC p ;;
      r <- check r (fun err => "Error creating VPC " +:+ name +:+ ": " +:+ err) ;;
      SetId (vpc_Id r) ;;
      (* Set tags if necessary *)
      err <- setTags "Vpc" ;;
      match err with
      | Some err => fail ("Error setting tags on the VPC: " +:+ err)
      | None => resourceCloudStackVPCRead
      end
  end.

Definition resourceCloudStackVPCDelete : M unit :=
  id <- Id ;;
  (* Create a new parameter struct *)
  let p := params [("id", VString id)] in
  (* Delete the VPC *)
  r <- call DeleteVPC p ;;
  match r with
  | inl err =>
      (* This is a very poor way to be told the ID does no longer exist *)
      id <- Id ;;
      if Contains err (entity_gone_msg id) then ret tt
      else
        name <- Get_string "name" ;;
        fail ("Error deleting VPC " +:+ name +:+ ": " +:+ err)
  | inr _ => ret tt
  end.

End VPCController.

(** ** Private gateway controller *)
Section PrivateGatewayController.
Context {cs : CloudStackClient}.

(** [strings.Replace(s, old, new, -1)] for a non-empty [old]; [skip] is
    the number of characters of a match still to drop. *)
Fixpoint Replace_from (old new s : string) (skip : nat) : string :=
  match s with
  | EmptyString => EmptyString
  | String c rest =>
      match skip with
      | S k => Replace_from old new rest k
      | O =>
          if String.prefix old s
          then new +:+ Replace_from old new rest (String.length old - 1)
          else String c (Replace_from old new rest 0)
      end
  end.

Definition Replace (s old new : string) : string := Replace_from old new s 0.

Definition resourceCloudStackPrivateGatewayRead : M unit :=
  id <- Id ;;
  (* Get the private gateway details *)
  r <- call GetPrivateGatewayByID (params [("id", VString id)]) ;;
  match r with
  | Failed count err =>
      if decide (count = 0) then SetId "" else fail err
  | Found gw =>
      Set_ "gateway" (VString (pgw_Gateway gw)) ;;
      Set_ "ip_address" (VString (pgw_Ipaddress gw)) ;;
      Set_ "netmask" (VString (pgw_Netmask gw)) ;;
      Set_ "vlan" (VString (Replace (pgw_Vlan gw) "vlan://" "")) ;;
      Set_ "acl_id" (VString (pgw_Aclid gw)) ;;
      Set_ "vpc_id" (VString (pgw_Vpcid gw))
  end.

Definition resourceCloudStackPrivateGatewayCreate : M unit :=
  ipaddress <- Get_string "ip_address" ;;
  networkofferingid <- Get_string "network_offering" ;;
  (* Create a new parameter struct *)
  gateway <- Get_string "gateway" ;;
  netmask <- Get_string "netmask" ;;
  vpc_id <- Get_string "vpc_id" ;;
  let p := params [("gateway", VString gateway);
                   ("ipaddress", VString ipaddress);
                   ("netmask", VString netmask);
                   ("vpcid", VString vpc_id)] in
  vlan <- Get_string "vlan" ;;
  let p := SetP "vlan" (VString vlan) p in
  bypass <- Get_bool "bypass_vlan_check" ;;
  let p := SetP "bypassvlanoverlapcheck" (VBool bypass) p in
  (* Retrieve the network_offering ID *)
  p <- (if decide (networkofferingid = "") then ret p
        else
          r <- retrieveID "network_offering" networkofferingid ;;
          networkofferingid <- check r (fun e => e) ;;
          ret (SetP "networkofferingid" (VString networkofferingid) p)) ;;
  (* Check if we want to associate an ACL *)
  aclid <- GetOk_string "acl_id" ;;
  let p := SetP_opt "aclid" (VString <$> aclid) p in
  (* Create the new private gateway *)
  r <- call CreatePrivateGateway p ;;
  r <- check r (fun err => "Error creating private gateway for " +:+
                           ipaddress +:+ ": " +:+ err) ;;
  SetId (pgw_Id r) ;;
  resourceCloudStackPrivateGatewayRead.

(** The fields the schema of the private gateway resource declares. *)
Definition private_gateway_schema_fields : list string :=
  ["gateway"; "ip_address"; "netmask"; "vlan"; "physical_network_id";
   "network_offering"; "acl_id"; "vpc_id"; "bypass_vlan_check"].

Definition resourceCloudStackPrivateGatewayUpdate : M unit :=
  (* Replace the ACL if the ID has changed *)
  changed <- HasChange "acl_id" ;;
  when changed
    (acl_id <- Get_string "acl_id" ;;
     id <- Id ;;
     let p := params [("aclid", VString acl_id)] in
     let p := SetP "networkid" (VString id) p in
     r <- call ReplaceNetworkACLList p ;;
     check r (fun err => "Error replacing ACL: " +:+ err)) ;;
  (* [return resourceCloudStackNetworkRead(d, meta)], on the resource data
     of the private gateway *)
  resourceCloudStackNetworkRead_in private_gateway_schema_fields.

Definition resourceCloudStackPrivateGatewayDelete : M unit :=
  id <- Id ;;
  (* Create a new parameter struct *)
  let p := params [("id", VString id)] in
  (* Delete the private gateway *)
  r <- call DeletePrivateGateway p ;;
  match r with
  | inl err =>
      (* This is a very poor way to be told the ID does no longer exist *)
      id <- Id ;;
      if Contains err (entity_gone_msg id) then ret tt
      else fail ("Error deleting private gateway " +:+ id +:+ ": " +:+ err)
  | inr _ => ret tt
  end.

End PrivateGatewayController.

(** ** Network ACL list controller *)
Section NetworkACLController.
Context {cs : CloudStackClient}.

Definition resourceCloudStackNetworkACLRead : M unit :=
  id <- Id ;;
  project <- Get_string "project" ;;
  (* Get the network ACL list details *)
  r <- call GetNetworkACLListByID (byid id project) ;;
  match r with
  | Failed count err =>
      if decide (count = 0) then SetId "" else fail err
  | Found f =>
      Set_ "name" (VString (acl_Name f)) ;;
      Set_ "description" (VString (acl_Description f)) ;;
      Set_ "vpc_id" (VString (acl_Vpcid f))
  end.

Definition resourceCloudStackNetworkACLCreate : M unit :=
  name <- Get_string "name" ;;
  vpc_id <- Get_string "vpc_id" ;;
  (* Create a new parameter struct *)
  let p := params [("name", VString name); ("vpcid", VString vpc_id)] in
  (* Set the description *)
  description <- GetOk_string "description" ;;
  let p := SetP "description" (VString (default name description)) p in
  (* Create the new network ACL list *)
  r <- call CreateNetworkACLList p ;;
  r <- check r (fun err => "Error creating network ACL list " +:+ name +:+
                           ": " +:+ err) ;;
  SetId (acl_Id r) ;;
  resourceCloudStackNetworkACLRead.

Definition resourceCloudStackNetworkACLDelete : M unit :=
  id <- Id ;;
  (* Create a new parameter struct *)
  let p := params [("id", VString id)] in
  (* Delete the network ACL list *)
  r <- Retry 3 (call DeleteNetworkACLList p) ;;
  match r with
  | inl err =>
      (* This is a very poor way to be told the ID does no longer exist *)
      id <- Id ;;
      if Contains err (entity_gone_msg id) then ret tt
      else
        name <- Get_string "name" ;;
        fail ("Error deleting network ACL list " +:+ name +:+ ": " +:+ err)
  | inr _ => ret tt
  end.

End NetworkACLController.

(** ** VPN customer gateway controller *)
Section VPNCustomerGatewayController.
Context {cs : CloudStackClient}.

Definition resourceCloudStackVPNCustomerGatewayRead : M unit :=
  id <- Id ;;
  (* Get the VPN Customer Gateway details *)
  r <- call GetVpnCustomerGatewayByID (params [("id", VString id)]) ;;
  match r with
  | Failed count err =>
      if decide (count = 0) then SetId "" else fail err
  | Found v =>
      Set_ "name" (VString (cgw_Name v)) ;;
      Set_ "cidr" (VString (cgw_Cidrlist v)) ;;
      Set_ "esp_policy" (VString (cgw_Esppolicy v)) ;;
      Set_ "gateway" (VString (cgw_Gateway v)) ;;
      Set_ "ike_policy" (VString (cgw_Ikepolicy v)) ;;
      Set_ "ipsec_psk" (VString (cgw_Ipsecpsk v)) ;;
      Set_ "dpd" (VBool (cgw_Dpd v)) ;;
      Set_ "esp_lifetime" (VInt (cgw_Esplifetime v)) ;;
      Set_ "ike_lifetime" (VInt (cgw_Ikelifetime v)) ;;
      setValueOrID "project" (cgw_Project v) (cgw_Projectid v)
  end.

Definition resourceCloudStackVPNCustomerGatewayCreate : M unit :=
  cidr <- Get_string "cidr" ;;
  esp_policy <- Get_string "esp_policy" ;;
  gateway <- Get_string "gateway" ;;
  ike_policy <- Get_string "ike_policy" ;;
  ipsec_psk <- Get_string "ipsec_psk" ;;
  (* Create a new parameter struct *)
  let p := params [("cidrlist", VString cidr);
                   ("esppolicy", VString esp_policy);
                   ("gateway", VString gateway);
                   ("ikepolicy", VString ike_policy);
                   ("ipsecpsk", VString ipsec_psk)] in
  name <- Get_string "name" ;;
  let p := SetP "name" (VString name) p in
  dpd <- GetOk_bool "dpd" ;;
  let p := SetP_opt "dpd" (VBool <$> dpd) p in
  esplifetime <- GetOk_int "esp_lifetime" ;;
  let p := SetP_opt "esplifetime" (VInt <$> esplifetime) p in
  ikelifetime <- GetOk_int "ike_lifetime" ;;
  let p := SetP_opt "ikelifetime" (VInt <$> ikelifetime) p in
  (* If there is a project supplied, we retrieve and set the project id *)
  pe <- setProjectid p ;;
  match pe with
  | (_, Some err) => fail err
  | (p, None) =>
      (* Create the new VPN Customer Gateway *)
      r <- call CreateVpnCustomerGateway p ;;
      v <- check r (fun err => "Error creating VPN Customer Gateway " +:+
                               name +:+ ": " +:+ err) ;;
      SetId (cgw_Id v) ;;
      resourceCloudStackVPNCustomerGatewayRead
  end.

Definition resourceCloudStackVPNCustomerGatewayDelete : M unit :=
  id <- Id ;;
  (* Create a new parameter struct *)
  let p := params [("id", VString id)] in
  (* Delete the VPN Customer Gateway *)
  r <- call DeleteVpnCustomerGateway p ;;
  match r with
  | inl err =>
      (* This is a very poor way to be told the ID does no longer exist *)
      id <- Id ;;
      if Contains err (entity_gone_msg id) then ret tt
      else
        name <- Get_string "name" ;;
        fail ("Error deleting VPN Customer Gateway " +:+ name +:+ ": " +:+ err)
  | inr _ => ret tt
  end.

End VPNCustomerGatewayController.

(** ** Affinity group and security group controllers *)
Section GroupControllers.
Context {cs : CloudStackClient}.

Definition resourceCloudStackAffinityGroupRead : M unit :=
  id <- Id ;;
  project <- Get_string "project" ;;
  (* Get the affinity group details *)
  r <- call GetAffinityGroupByID (byid id project) ;;
  match r with
  | Failed count err =>
      if decide (count = 0) then SetId "" else fail err
  | Found ag =>
      (* Update the config *)
      Set_ "name" (VString (ag_Name ag)) ;;
      Set_ "description" (VString (ag_Description ag)) ;;
      Set_ "type" (VString (ag_Type ag))
  end.

Definition resourceCloudStackAffinityGroupCreate : M unit :=
  name <- Get_string "name" ;;
  affinityGroupType <- Get_string "type" ;;
  (* Create a new parameter struct *)
  let p := params [("name", VString name);
                   ("type", VString affinityGroupType)] in
  (* Set the description *)
  description <- GetOk_string "description" ;;
  let p := SetP "description" (VString (default name description)) p in
  (* If there is a project supplied, we retrieve and set the project id *)
  pe <- setProjectid p ;;
  match pe with
  | (_, Some err) => fail err
  | (p, None) =>
      r <- call CreateAffinityGroup p ;;
      r <- check r (fun err => err) ;;
      SetId (ag_Id r) ;;
      resourceCloudStackAffinityGroupRead
  end.

Definition resourceCloudStackAffinityGroupDelete : M unit :=
  id <- Id ;;
  (* Create a new parameter struct *)
  let p := SetP "id" (VString id) (params []) in
  (* If there is a project supplied, we retrieve and set the project id *)
  pe <- setProjectid p ;;
  match pe with
  | (_, Some err) => fail err
  | (p, None) =>
      (* Delete the affinity group *)
      r <- call DeleteAffinityGroup p ;;
      match r with
      | inl err =>
          id <- Id ;;
          if Contains err (entity_gone_msg id) then ret tt
          else fail ("Error deleting affinity group: " +:+ err)
      | inr _ => ret tt
      end
  end.

Definition resourceCloudStackSecurityGroupRead : M unit :=
  id <- Id ;;
  project <- Get_string "project" ;;
  (* Get the security group details *)
  r <- call GetSecurityGroupByID (byid id project) ;;
  match r with
  | Failed count err =>
      if decide (count = 0) then SetId "" else fail err
  | Found sg =>
      (* Update the config *)
      Set_ "name" (VString (sg_Name sg)) ;;
      Set_ "description" (VString (sg_Description sg)) ;;
      setValueOrID "project" (sg_Project sg) (sg_Projectid sg)
  end.

Definition resourceCloudStackSecurityGroupCreate : M unit :=
  name <- Get_string "name" ;;
  (* Create a new parameter struct *)
  let p := params [("name", VString name)] in
  (* Set the description *)
  description <- GetOk_string "description" ;;
  let p := SetP "description" (VString (default name description)) p in
  (* If there is a project supplied, we retrieve and set the project id *)
  pe <- setProjectid p ;;
  match pe with
  | (_, Some err) => fail err
  | (p, None) =>
      r <- call CreateSecurityGroup p ;;
      r <- check r (fun err => "Error creating security group " +:+ name +:+
                               ": " +:+ err) ;;
      SetId (sg_Id r) ;;
      resourceCloudStackSecurityGroupRead
  end.

Definition resourceCloudStackSecurityGroupDelete : M unit :=
  id <- Id ;;
  (* Create a new parameter struct *)
  let p := SetP "id" (VString id) (params []) in
  (* If there is a project supplied, we retrieve and set the project id *)
  pe <- setProjectid p ;;
  match pe with
  | (_, Some err) => fail err
  | (p, None) =>
      (* Delete the security group *)
      r <- call DeleteSecurityGroup p ;;
      match r with
      | inl err =>
          id <- Id ;;
          if Contains err (entity_gone_msg id) then ret tt
          else fail ("Error deleting security group: " +:+ err)
      | inr _ => ret tt
      end
  end.

End GroupControllers.

(** ** Resource schemas ([schema.Resource])

    The fields of [schema.Schema] the instance resource declares; the
    [StateFunc] of [user_data] and the element type of lists and sets play
    no part in what follows and are left out. *)
Inductive ValueType : Type :=
| TypeString | TypeInt | TypeBool | TypeList | TypeSet | TypeMap.

Record Schema := mkSchema {
  Type_ : ValueType;
  Optional : bool;
  Required : bool;
  Computed : bool;
  ForceNew : bool;
  Default : option value;
  ConflictsWith : list string
}.

(** Schema literals: the fields a Go literal leaves out are zero. *)
Definition optional (t : ValueType) : Schema :=
  mkSchema t true false false false None [].
Definition required (t : ValueType) : Schema :=
  mkSchema t false true false false None [].
Definition computed (s : Schema) : Schema :=
  mkSchema (Type_ s) (Optional s) (Required s) true (ForceNew s) (Default s)
    (ConflictsWith s).
Definition forcenew (s : Schema) : Schema :=
  mkSchema (Type_ s) (Optional s) (Required s) (Computed s) true (Default s)
    (ConflictsWith s).
Definition with_default (v : value) (s : Schema) : Schema :=
  mkSchema (Type_ s) (Optional s) (Required s) (Computed s) (ForceNew s)
    (Some v) (ConflictsWith s).
Definition conflicts_with (l : list string) (s : Schema) : Schema :=
  mkSchema (Type_ s) (Optional s) (Required s) (Computed s) (ForceNew s)
    (Default s) l.

(** Modelled from the spec: [tagsSchema] is not part of these sources; a
    tag set is an optional mapping from string key to string value. *)
Definition tagsSchema : Schema := optional TypeMap.

Section Resources.
Context {cs : CloudStackClient}.

Record Resource := mkResource {
  Create : M unit;
  Read : M unit;
  Update : M unit;
  Delete : M unit;
  Schema_ : list (string * Schema)
}.

Definition resourceCloudStackInstance : Resource := {|
  Create := resourceCloudStackInstanceCreate;
  Read := resourceCloudStackInstanceRead;
  Update := resourceCloudStackInstanceUpdate;
  Delete := resourceCloudStackInstanceDelete;
  Schema_ := [
    ("name", computed (optional TypeString));
    ("display_name", computed (optional TypeString));
    ("service_offering", required TypeString);
    ("network_id", forcenew (computed (optional TypeString)));
    ("ip_address", forcenew (computed (optional TypeString)));
    ("ip6_address", computed (optional TypeString));
    ("ip6_cidr", computed (optional TypeString));
    ("template", forcenew (required TypeString));
    ("root_disk_size", forcenew (computed (optional TypeInt)));
    ("group", computed (optional TypeString));
    ("affinity_group_ids",
     conflicts_with ["affinity_group_names"] (optional TypeSet));
    ("affinity_group_names",
     conflicts_with ["affinity_group_ids"] (optional TypeSet));
    ("security_group_ids",
     conflicts_with ["security_group_names"]
       (forcenew (optional TypeSet)));
    ("security_group_names",
     conflicts_with ["security_group_ids"] (forcenew (optional TypeSet)));
    ("project", forcenew (computed (optional TypeString)));
    ("zone", forcenew (required TypeString));
    ("keypair", conflicts_with ["keypairs"] (optional TypeString));
    ("keypairs", conflicts_with ["keypair"] (optional TypeList));
    ("host_id", optional TypeString);
    ("cluster_id", optional TypeString);
    ("uefi", with_default (VBool false) (optional TypeBool));
    ("start_vm",
     forcenew (with_default (VBool true) (optional TypeBool)));
    ("user_data", optional TypeString);
    ("details", optional TypeMap);
    ("properties", optional TypeMap);
    ("nicnetworklist", optional TypeMap);
    ("expunge", with_default (VBool false) (optional TypeBool));
    ("pod_id", optional TypeString);
    ("tags", tagsSchema)
  ]
|}.

End Resources.

(** ** Configuration validation of the plugin framework *)

(** Modelled from the spec: the validation of the plugin framework is not
    part of these sources; a configuration that supplies both attributes
    of a mutually exclusive pair "must be rejected by configuration
    validation before any remote call is issued", the pairs being "encoded
    only via framework-level conflicts metadata". An attribute that is set
    conflicts with each attribute of its [ConflictsWith] list that is set
    too. *)
Definition validateConflictingAttributes (k : string) (schema : Schema)
    (c : gmap string value) : error :=
  match filter (fun conflictingKey => is_Some (c !! conflictingKey))
               (ConflictsWith schema) with
  | conflictingKey :: _ =>
      Some (k +:+ ": conflicts with " +:+ conflictingKey)
  | [] => None
  end.

(** Modelled from the spec: the diagnostics of one attribute, a missing
    required attribute or a conflict. *)
Definition validate (k : string) (schema : Schema) (c : gmap string value)
  : list string :=
  match c !! k with
  | None =>
      if Required schema
      then ["Missing required argument: " +:+ k] else []
  | Some _ =>
      match validateConflictingAttributes k schema c with
      | Some err => [err]
      | None => []
      end
  end.

(** Modelled from the spec: [schemaMap.Validate], the diagnostics of all
    attributes. *)
Definition Validate (m : list (string * Schema)) (c : gmap string value)
  : list string :=
  mbind (M := list) (fun ks => validate ks.1 ks.2 c) m.

Section Lifecycle.
Context {cs : CloudStackClient}.

(** Modelled from the spec: creating a resource from a configuration;
    the configuration is validated first, and [Create] runs only on a
    valid one. *)
Definition ValidateAndCreate (r : Resource) (c : gmap string value)
  : M unit :=
  match Validate (Schema_ r) c with
  | err :: _ => fail err
  | [] => Create r
  end.

End Lifecycle.

(** ** The resource kinds and their operations

    The provider registers one resource per kind; the tables below give,
    for each kind, its operations and the remote calls they are built
    around. *)
Inductive Kind : Type :=
| KInstance | KDisk | KNetwork | KVPC | KPrivateGateway | KNetworkACL
| KVPNCustomerGateway | KAffinityGroup | KSecurityGroup.

Section Kinds.
Context {cs : CloudStackClient}.

Definition Create_of (k : Kind) : M unit :=
  match k with
  | KInstance => resourceCloudStackInstanceCreate
  | KDisk => resourceCloudStackDiskCreate
  | KNetwork => resourceCloudStackNetworkCreate
  | KVPC => resourceCloudStackVPCCreate
  | KPrivateGateway => resourceCloudStackPrivateGatewayCreate
  | KNetworkACL => resourceCloudStackNetworkACLCreate
  | KVPNCustomerGateway => resourceCloudStackVPNCustomerGatewayCreate
  | KAffinityGroup => resourceCloudStackAffinityGroupCreate
  | KSecurityGroup => resourceCloudStackSecurityGroupCreate
  end.

Definition Read_of (k : Kind) : M unit :=
  match k with
  | KInstance => resourceCloudStackInstanceRead
  | KDisk => resourceCloudStackDiskRead
  | KNetwork => resourceCloudStackNetworkRead
  | KVPC => resourceCloudStackVPCRead
  | KPrivateGateway => resourceCloudStackPrivateGatewayRead
  | KNetworkACL => resourceCloudStackNetworkACLRead
  | KVPNCustomerGateway => resourceCloudStackVPNCustomerGatewayRead
  | KAffinityGroup => resourceCloudStackAffinityGroupRead
  | KSecurityGroup => resourceCloudStackSecurityGroupRead
  end.

Definition Delete_of (k : Kind) : M unit :=
  match k with
  | KInstance => resourceCloudStackInstanceDelete
  | KDisk => resourceCloudStackDiskDelete
  | KNetwork => resourceCloudStackNetworkDelete
  | KVPC => resourceCloudStackVPCDelete
  | KPrivateGateway => resourceCloudStackPrivateGatewayDelete
  | KNetworkACL => resourceCloudStackNetworkACLDelete
  | KVPNCustomerGateway => resourceCloudStackVPNCustomerGatewayDelete
  | KAffinityGroup => resourceCloudStackAffinityGroupDelete
  | KSecurityGroup => resourceCloudStackSecurityGroupDelete
  end.

End Kinds.

(** The remote create call, by-ID lookup and delete call of each kind. *)
Definition create_api (k : Kind) : Api :=
  match k with
  | KInstance => DeployVirtualMachine
  | KDisk => CreateVolume
  | KNetwork => CreateNetwork
  | KVPC => CreateVPC
  | KPrivateGateway => CreatePrivateGateway
  | KNetworkACL => CreateNetworkACLList
  | KVPNCustomerGateway => CreateVpnCustomerGateway
  | KAffinityGroup => CreateAffinityGroup
  | KSecurityGroup => CreateSecurityGroup
  end.

Definition lookup_api (k : Kind) : Api :=
  match k with
  | KInstance => GetVirtualMachineByID
  | KDisk => GetVolumeByID
  | KNetwork => GetNetworkByID
  | KVPC => GetVPCByID
  | KPrivateGateway => GetPrivateGatewayByID
  | KNetworkACL => GetNetworkACLListByID
  | KVPNCustomerGateway => GetVpnCustomerGatewayByID
  | KAffinityGroup => GetAffinityGroupByID
  | KSecurityGroup => GetSecurityGroupByID
  end.

Definition delete_api (k : Kind) : Api :=
  match k with
  | KInstance => DestroyVirtualMachine
  | KDisk => DeleteVolume
  | KNetwork => DeleteNetwork
  | KVPC => DeleteVPC
  | KPrivateGateway => DeletePrivateGateway
  | KNetworkACL => DeleteNetworkACLList
  | KVPNCustomerGateway => DeleteVpnCustomerGateway
  | KAffinityGroup => DeleteAffinityGroup
  | KSecurityGroup => DeleteSecurityGroup
  end.

(** The parameters of the lookup a Read issues: the stored ID, and the
    project for the kinds that pass [WithProject]. *)
Definition lookup_params (k : Kind) (d : ResourceData) : Params :=
  match k with
  | KPrivateGateway | KVPNCustomerGateway =>
      params [("id", VString (d_id d))]
  | _ => byid (d_id d) (get_string d "project")
  end.

(** The match count and the error of a lookup that failed. *)
Definition lookup_failure {sh : shape} : reply sh -> option (Z * string) :=
  match sh with
  | Plain X => fun _ => None
  | ByID X => fun r =>
      match r with Failed count err => Some (count, err) | Found _ => None end
  end.

(** ** The power and offering calls of an instance update

    The calls that stop the instance, change its service offering and start
    it, with the error each returned, in the order they were issued. *)
Definition is_power_call (e : Event) : bool :=
  match ev_api e with
  | StopVirtualMachine | ChangeServiceForVirtualMachine
  | StartVirtualMachine => true
  | _ => false
  end.

Definition power_trace (log : list Event) : list (Api * error) :=
  omap (fun e => if is_power_call e then Some (ev_api e, ev_err e) else None)
       log.

(** ** Runs and example clients *)

(** A run of a controller operation on resource data [d] against the
    remote state [w], from an empty log. *)
Definition run {cs : CloudStackClient} {A} (m : M A) (d : ResourceData)
    (w : World) : Outcome A * St :=
  m (mkSt d w []).

(** The reply of a client to a call its scenario does not expect. *)
Definition unexpected {sh : shape} : reply sh :=
  match sh with
  | Plain X => inl "unexpected call"
  | ByID X => Failed (-1) "unexpected call"
  end.

(** Resource data with identity [id], prior state [old] and
    configuration [new]. *)
Definition resource_data (id : string) (old new : list (string * value))
  : ResourceData :=
  mkResourceData id (list_to_map old) (list_to_map new) ∅.

(** A client that no longer knows any virtual machine. *)
Definition vm_gone_client : CloudStackClient := {|
  World := unit;
  remote a p w :=
    (match a return reply (shape_of a) with
     | GetVirtualMachineByID => Failed 0 "No match found for vm-1"
     | _ => unexpected
     end, w)
|}.

(** A client whose network 42 is already gone when it is deleted. *)
Definition network_gone_client : CloudStackClient := {|
  World := unit;
  remote a p w :=
    (match a return reply (shape_of a) with
     | DeleteNetwork =>
         inl ("CloudStack API error 431: Invalid parameter id value=42 " +:+
              "due to incorrect long value format, or entity does not exist")
     | _ => unexpected
     end, w)
|}.

(** A client that refuses to create network ACL lists. *)
Definition acl_refused_client : CloudStackClient := {|
  World := unit;
  remote a p w :=
    (match a return reply (shape_of a) with
     | CreateNetworkACLList => inl "VPC not found"
     | _ => unexpected
     end, w)
|}.

(** A client on which the instance stops and changes its offering, and
    then fails to start. *)
Definition start_fails_client : CloudStackClient := {|
  World := unit;
  remote a p w :=
    (match a return reply (shape_of a) with
     | StopVirtualMachine => inr tt
     | ResolveID => inr "offering-2"
     | ChangeServiceForVirtualMachine => inr tt
     | StartVirtualMachine => inl "insufficient capacity"
     | _ => unexpected
     end, w)
|}.

Definition volume_on (vmid : string) : Volume :=
  mkVolume "vol-1" "data" vmid 0 0 [] "" "" "" "" "" "".

(** A client with a volume attached to a running virtual machine: the
    volume detaches only once the machine has been stopped. The remote
    state is whether the machine is running. *)
Definition detach_needs_stop_client : CloudStackClient := {|
  World := bool;
  remote a p running :=
    match a return reply (shape_of a) * bool with
    | GetVolumeByID => (Found (volume_on "vm-1"), running)
    | DetachVolume =>
        (if running then inl "Please specify a VM that is stopped"
         else inr tt, running)
    | StopVirtualMachine => (inr tt, false)
    | StartVirtualMachine => (inr tt, true)
    | _ => (unexpected, running)
    end
|}.

(** A client that knows the private gateway [gw-1] but no network of
    that ID. *)
Definition gateway_only_client : CloudStackClient := {|
  World := unit;
  remote a p w :=
    (match a return reply (shape_of a) with
     | GetPrivateGatewayByID =>
         Found (mkPrivateGateway "gw-1" "10.0.0.1" "10.0.0.2"
                  "255.255.255.0" "vlan://100" "acl-1" "vpc-1")
     | GetNetworkByID => Failed 0 "No match found for gw-1"
     | _ => unexpected
     end, w)
|}.

Definition vm_with (nics : list Nic) : VirtualMachine :=
  mkVirtualMachine "vm-1" "web" "web" "" nics "secret" [] [] []
    "small" "offering-1" "debian" "template-1" "" "" "zone1" "zone-1".

(** A client that deploys virtual machines with the given NICs. *)
Definition deploy_client (nics : list Nic) : CloudStackClient := {|
  World := unit;
  remote a p w :=
    (match a return reply (shape_of a) with
     | ResolveID => inr "id-1"
     | ResolveTemplateID => inr "template-1"
     | GetZoneByID => Found (mkZone "zone-1" "Advanced")
     | DeployVirtualMachine => inr (vm_with nics)
     | GetVirtualMachineByID => Found (vm_with nics)
     | ListVolumes => inr []
     | _ => unexpected
     end, w)
|}.

(** ** Judgments on runs

    The properties of the controllers are stated on the state before and
    after a run and on the log of remote calls. *)

Section Judgments.
Context {cs : CloudStackClient}.

(** A relation between the state before and after that every run of [m]
    establishes, whatever its outcome. *)
Definition preserves (R : St -> St -> Prop) {A} (m : M A) : Prop :=
  forall s o s', m s = (o, s') -> R s s'.

(** The identity of the resource is unchanged. *)
Definition same_id (s s' : St) : Prop := d_id (st_d s') = d_id (st_d s).

(** The log grew by calls that all satisfy [P]. *)
Definition log_ext (P : Event -> Prop) (s s' : St) : Prop :=
  exists l, st_log s' = st_log s ++ l /\ Forall P l.

(** The field [k] of the configuration is unchanged. *)
Definition keeps (k : string) (s s' : St) : Prop :=
  d_new (st_d s') !! k = d_new (st_d s) !! k.

(** The resource data is unchanged. *)
Definition same_d (s s' : St) : Prop := st_d s' = st_d s.

(** Both relations hold. *)
Definition both (R1 R2 : St -> St -> Prop) (s s' : St) : Prop :=
  R1 s s' /\ R2 s s'.

(** Steps that issue no power or offering call. *)
Definition quiet : St -> St -> Prop :=
  log_ext (fun e => is_power_call e = false).

(** What a Create built around the create call [a] guarantees, for a run
    of [m] from a state whose log holds no call of [a] yet: a failed
    create call means an error and the identity it started with, and a
    new identity means a create call that succeeded. *)
Definition create_spec (a : Api) (m : M unit) : Prop :=
  forall s o s',
    Forall (fun e => ev_api e <> a) (st_log s) ->
    m s = (o, s') ->
    (forall p err,
       mkEvent a p (Some err) ∈ st_log s' ->
       (exists msg, o = Err msg) /\ d_id (st_d s') = d_id (st_d s)) /\
    (d_id (st_d s') <> d_id (st_d s) ->
     exists p, mkEvent a p None ∈ st_log s').

(** The steps before the create call: they issue other calls and leave
    the identity alone. *)
Definition before_create (a : Api) : St -> St -> Prop :=
  both same_id (log_ext (fun e => ev_api e <> a)).

(** A computation that never panics. *)
Definition no_panic {A} (m : M A) : Prop :=
  forall s o s', m s = (o, s') -> forall msg, o <> Panic msg.

(** What the successful deploy replies of the client carry: always a NIC,
    or never one. *)
Definition deploys_with_nic : Prop :=
  forall p w1 vm w2,
    remote DeployVirtualMachine p w1 = (inr vm, w2) -> vm_Nic vm <> [].

Definition deploys_without_nic : Prop :=
  forall p w1 vm w2,
    remote DeployVirtualMachine p w1 = (inr vm, w2) -> vm_Nic vm = [].

(** What a run of [m] does against a client whose deploy replies carry no
    NIC, from a state whose log holds no deploy call yet: it panics once
    the deploy call succeeded, unless setting the tags failed. *)
Definition panic_spec (m : M unit) : Prop :=
  forall s o s',
    Forall (fun e => ev_api e <> DeployVirtualMachine) (st_log s) ->
    m s = (o, s') ->
    (exists p, mkEvent DeployVirtualMachine p None ∈ st_log s') ->
    (forall p e, mkEvent CreateTags p (Some e) ∉ st_log s') ->
    exists msg, o = Panic msg.

(** The steps before the deploy call. *)
Definition before_deploy : St -> St -> Prop :=
  log_ext (fun e => ev_api e <> DeployVirtualMachine).

End Judgments.

(** The fields of an instance that Read takes from the first NIC. *)
Definition network_fields : list string :=
  ["network_id"; "ip_address"; "ip6_address"; "ip6_cidr"].

(** The pairs of attributes of an instance that exclude each other. *)
Definition exclusive_pairs : list (string * string) :=
  [("keypair", "keypairs");
   ("affinity_group_ids", "affinity_group_names");
   ("security_group_ids", "security_group_names")].

(** ** Further notions about runs and requests *)

(** ** Runs on known resource data

    [yields d Φ m]: every run of [m] from a state whose resource data is
    [d] ends with an outcome [o], after the calls [l], with resource data
    [d'], such that [Φ o l d']. *)
Section Yields.
Context {cs : CloudStackClient}.

Definition yields (d : ResourceData) {A}
    (Φ : Outcome A -> list Event -> ResourceData -> Prop) (m : M A) : Prop :=
  forall s o s',
    st_d s = d -> m s = (o, s') ->
    exists l, st_log s' = st_log s ++ l /\ Φ o l (st_d s').

(** The identity is the one before, or cleared. *)
Definition id_kept_or_cleared (s s' : St) : Prop :=
  d_id (st_d s') = d_id (st_d s) \/ d_id (st_d s') = "".

End Yields.

(** The calls that only look something up. *)
Definition is_query (a : Api) : bool :=
  match a with
  | GetVirtualMachineByID | GetAffinityGroupByID | GetSecurityGroupByID
  | ListVolumes | GetVolumeByID | GetNetworkByID | GetNetworkOfferingByID
  | GetPublicIpAddressByID | ListPublicIpAddresses | GetZoneByID
  | GetVPCByID | GetVPCOfferingByID | GetPrivateGatewayByID
  | GetNetworkACLListByID | GetVpnCustomerGatewayByID
  | ResolveID | ResolveTemplateID => true
  | _ => false
  end.

(** The fields of an instance whose change needs the machine stopped, and
    the calls the update issues only on a stopped machine. *)
Definition restart_fields : list string :=
  ["name"; "service_offering"; "affinity_group_ids"; "affinity_group_names";
   "keypair"; "keypairs"; "user_data"].

Definition restart_only (a : Api) : bool :=
  match a with
  | StopVirtualMachine | StartVirtualMachine | ChangeServiceForVirtualMachine
  | UpdateVMAffinityGroup | ResetSSHKeyForVirtualMachine => true
  | _ => false
  end.

(** The fields of an instance an update acts on. *)
Definition update_fields : list string :=
  "display_name" :: "group" :: restart_fields ++ ["tags"].

(** The errors of the calls of [a] in a log, oldest first. *)
Definition calls_to (a : Api) (l : list Event) : list error :=
  omap (fun e => if decide (ev_api e = a) then Some (ev_err e) else None) l.

(** The parameters of the calls of [a] in a log, oldest first. *)
Definition requests (a : Api) (l : list Event) : list Params :=
  omap (fun e => if decide (ev_api e = a) then Some (ev_params e) else None)
       l.

(** The IP configuration of a CreateNetwork request for the
    configuration [d]: a gateway and a netmask; the configured startip and
    endip as they are; and, where neither is configured, both a startip
    and an endip or neither. *)
Definition ip_config_sent (d : ResourceData) (p : Params) : Prop :=
  is_Some (p !! "gateway") /\ is_Some (p !! "netmask") /\
  (forall s, getok_string d "startip" = Some s ->
             p !! "startip" = Some (VString s)) /\
  (forall s, getok_string d "endip" = Some s ->
             p !! "endip" = Some (VString s)) /\
  (getok_string d "startip" = None -> getok_string d "endip" = None ->
   (is_Some (p !! "startip") <-> is_Some (p !! "endip"))).

(** The VPC and ACL part of a CreateNetwork request for the configuration
    [d]: a VPC ID exactly when one is configured; an ACL ID only inside a
    VPC, and then the configured one, which is not the sentinel [none]. *)
Definition acl_sent (d : ResourceData) (p : Params) : Prop :=
  (is_Some (p !! "vpcid") <-> is_Some (getok_string d "vpc_id")) /\
  (forall v, p !! "aclid" = Some v ->
     is_Some (getok_string d "vpc_id") /\
     exists a, v = VString a /\ getok_string d "acl_id" = Some a /\
               a <> none).

(** The request a network Create builds from the configuration [d], the
    resolved offering and zone IDs and the result [m] of [parseCIDR],
    before the project ID is set. *)
Definition network_request (d : ResourceData)
    (networkofferingid zoneid : string) (m : gmap string string) : Params :=
  let name := get_string d "name" in
  let p := params [("name", VString name);
                   ("networkofferingid", VString networkofferingid);
                   ("zoneid", VString zoneid)] in
  let p := SetP "displaytext"
             (VString (default name (getok_string d "display_text"))) p in
  let p := SetP "gateway" (VString (default "" (m !! "gateway"))) p in
  let p := SetP "netmask" (VString (default "" (m !! "netmask"))) p in
  let p := SetP_opt "startip" (VString <$> m !! "startip") p in
  let p := SetP_opt "endip" (VString <$> m !! "endip") p in
  let p := SetP_opt "networkdomain"
             (VString <$> getok_string d "network_domain") p in
  let p := SetP_opt "vlan"
             ((fun v => VString (pretty v)) <$> getok_int d "vlan") p in
  let p := SetP "bypassvlanoverlapcheck"
             (VBool (get_bool d "bypass_vlan_check")) p in
  match getok_string d "vpc_id" with
  | Some vpcid =>
      let p := SetP "vpcid" (VString vpcid) p in
      match getok_string d "acl_id" with
      | Some aclid =>
          if decide (aclid = none) then p else SetP "aclid" (VString aclid) p
      | None => p
      end
  | None => p
  end.

(** A request of a network Create: [network_request], with or without a
    project ID. *)
Definition is_network_request (d : ResourceData) (p : Params) : Prop :=
  exists networkofferingid zoneid b m,
    parseCIDR d b = Ok m /\
    (p = network_request d networkofferingid zoneid m \/
     exists projectid,
       p = SetP "projectid" (VString projectid)
             (network_request d networkofferingid zoneid m)).

(** A client on which every call succeeds: it knows one virtual machine,
    one volume attached to it, one network, one VPC with its source NAT
    address, and one of each other entity. *)
Definition sample_nic : Nic := mkNic "net-1" "10.0.0.5" "" "".

Definition sample_volume : Volume :=
  mkVolume "vol-1" "data" "vm-1" (20 * 1024 * 1024 * 1024) 1
    [mkTags "env" "test"; mkTags "env" "prod"] "standard" "do-1" "" ""
    "zone1" "zone-1".

Definition sample_network : Network :=
  mkNetwork "net-1" "web" "web" "10.1.2.0/24" "10.1.2.1" "" "" "" []
    "isolated" "no-1" "" "" "zone1" "zone-1".

Definition sample_address : PublicIpAddress :=
  mkPublicIpAddress "ip-1" "203.0.113.7" "net-1".

Definition sample_vpc : VPC :=
  mkVPC "vpc-1" "main" "main" "10.1.0.0/16" "" [] "vo-1" "" "" "zone1"
    "zone-1".

Definition all_ok_client : CloudStackClient := {|
  World := unit;
  remote a p w :=
    (match a return reply (shape_of a) with
     | DeployVirtualMachine => inr (vm_with [sample_nic])
     | GetVirtualMachineByID => Found (vm_with [sample_nic])
     | UpdateVirtualMachine | StopVirtualMachine | StartVirtualMachine
     | ChangeServiceForVirtualMachine | DestroyVirtualMachine
     | UpdateVMAffinityGroup | ResetSSHKeyForVirtualMachine
     | DeleteAffinityGroup | DeleteSecurityGroup | DetachVolume
     | DeleteVolume | DeleteNetwork | DeleteVPC | DeletePrivateGateway
     | DeleteNetworkACLList | ReplaceNetworkACLList
     | DeleteVpnCustomerGateway | CreateTags | ReconcileTags => inr tt
     | CreateAffinityGroup =>
         inr (mkAffinityGroup "ag-1" "spread" "spread" "host anti-affinity")
     | GetAffinityGroupByID =>
         Found (mkAffinityGroup "ag-1" "spread" "spread" "host anti-affinity")
     | CreateSecurityGroup => inr (mkSecurityGroup "sg-1" "web" "web" "" "")
     | GetSecurityGroupByID =>
         Found (mkSecurityGroup "sg-1" "web" "web" "" "")
     | CreateVolume | AttachVolume => inr sample_volume
     | ListVolumes => inr [sample_volume]
     | GetVolumeByID => Found sample_volume
     | CreateNetwork => inr sample_network
     | GetNetworkByID => Found sample_network
     | GetNetworkOfferingByID => Found (mkNetworkOffering false)
     | AssociateIpAddress => inr sample_address
     | GetPublicIpAddressByID => Found sample_address
     | ListPublicIpAddresses =>
         inr (mkListPublicIpAddressesResponse 1 [sample_address])
     | GetZoneByID => Found (mkZone "zone-1" "Advanced")
     | CreateVPC => inr sample_vpc
     | GetVPCByID => Found sample_vpc
     | GetVPCOfferingByID => Found (mkVPCOffering "default")
     | CreatePrivateGateway =>
         inr (mkPrivateGateway "gw-1" "10.0.0.1" "10.0.0.2" "255.255.255.0"
                "vlan://100" "acl-1" "vpc-1")
     | GetPrivateGatewayByID =>
         Found (mkPrivateGateway "gw-1" "10.0.0.1" "10.0.0.2"
                  "255.255.255.0" "vlan://100" "acl-1" "vpc-1")
     | CreateNetworkACLList => inr (mkNetworkACLList "acl-1" "web" "web" "vpc-1")
     | GetNetworkACLListByID =>
         Found (mkNetworkACLList "acl-1" "web" "web" "vpc-1")
     | CreateVpnCustomerGateway =>
         inr (mkVpnCustomerGateway "cgw-1" "office" "192.168.0.0/24"
                "aes256-sha1" "198.51.100.1" "aes256-sha1" "secret" false
                3600 86400 "" "")
     | GetVpnCustomerGatewayByID =>
         Found (mkVpnCustomerGateway "cgw-1" "office" "192.168.0.0/24"
                  "aes256-sha1" "198.51.100.1" "aes256-sha1" "secret" false
                  3600 86400 "" "")
     | ResolveID => inr "id-1"
     | ResolveTemplateID => inr "template-1"
     end, w)
|}.

(** The source NAT lists of the client are well formed: a list of count
    one holds an address. *)
Definition source_nat_listed {cs : CloudStackClient} : Prop :=
  forall p w1 l w2,
    remote ListPublicIpAddresses p w1 = (inr l, w2) ->
    lip_Count l = 1 -> lip_PublicIpAddresses l <> [].

(** The configuration field and the request parameter that describe a
    resource, for the kinds that have them. *)
Definition description_of (k : Kind) : option (string * string) :=
  match k with
  | KNetwork | KVPC => Some ("display_text", "displaytext")
  | KNetworkACL | KAffinityGroup | KSecurityGroup =>
      Some ("description", "description")
  | _ => None
  end.

(** A CreateVpnCustomerGateway request for the configuration [d]: the
    name and the five required settings as configured; dead peer
    detection only when enabled, and a lifetime only when not zero. *)
Definition vpn_gateway_sent (d : ResourceData) (p : Params) : Prop :=
  p !! "name" = Some (VString (get_string d "name")) /\
  p !! "cidrlist" = Some (VString (get_string d "cidr")) /\
  p !! "esppolicy" = Some (VString (get_string d "esp_policy")) /\
  p !! "gateway" = Some (VString (get_string d "gateway")) /\
  p !! "ikepolicy" = Some (VString (get_string d "ike_policy")) /\
  p !! "ipsecpsk" = Some (VString (get_string d "ipsec_psk")) /\
  p !! "dpd" = (if get_bool d "dpd" then Some (VBool true) else None) /\
  p !! "esplifetime"
  = (if decide (get_int d "esp_lifetime" = 0) then None
     else Some (VInt (get_int d "esp_lifetime"))) /\
  p !! "ikelifetime"
  = (if decide (get_int d "ike_lifetime" = 0) then None
     else Some (VInt (get_int d "ike_lifetime"))).

(** The calls of an operation that is tried up to [n] times: at most [n]
    calls, none after a success, and fewer than [n] only when the last
    one succeeded. *)
Definition retried (n : nat) (c : list error) : Prop :=
  (length c <= n)%nat /\
  (forall i, c !! i = Some None -> length c = S i) /\
  ((length c < n)%nat -> last c = Some None).

(** The user data of a request, where it carries one, decodes as
    base64. *)
Definition userdata_encoded (p : Params) : Prop :=
  forall v, p !! "userdata" = Some v ->
            exists u, v = VString u /\ is_Some (base64.DecodeString u).

(** The network types of the zones the client knows all satisfy [P]. *)
Definition zone_types {cs : CloudStackClient} (P : string -> Prop) : Prop :=
  forall p w1 z w2,
    remote GetZoneByID p w1 = (Found z, w2) -> P (zone_Networktype z).

(** A DeployVirtualMachine request for the configuration [d]: the display
    name, or the name where none is configured; UEFI boot in legacy mode
    where configured; the configured network, even an empty one, in an
    Advanced zone, and no network in any other zone. *)
Definition deploy_sent {cs : CloudStackClient} (d : ResourceData)
    (p : Params) : Prop :=
  p !! "name" = VString <$> getok_string d "name" /\
  p !! "displayname"
  = VString <$> (match getok_string d "display_name" with
                 | Some n => Some n
                 | None => getok_string d "name"
                 end) /\
  (p !! "boottype", p !! "bootmode")
  = (if get_bool d "uefi"
     then (Some (VString "UEFI"), Some (VString "Legacy"))
     else (None, None)) /\
  (zone_types (fun t => t = "Advanced") ->
   p !! "networkids" = Some (VList [get_string d "network_id"])) /\
  (zone_types (fun t => t <> "Advanced") -> p !! "networkids" = None).

(** The request an instance Create builds from the configuration [d], the
    resolved offering and template IDs, the zone and the NIC to network
    list, before the project, the key pairs, the placement and the user
    data are set. *)
Definition deploy_request (d : ResourceData)
    (serviceofferingid templateid : string) (zone : Zone)
    (nicnetworklist : option value) : Params :=
  let p := params [("serviceofferingid", VString serviceofferingid);
                   ("templateid", VString templateid);
                   ("zoneid", VString (zone_Id zone))] in
  let p := SetP "startvm" (VBool (get_bool d "start_vm")) p in
  let p := SetP_opt "details" (VMap <$> getok_map d "details") p in
  let p := SetP_opt "properties" (VMap <$> getok_map d "properties") p in
  let p := SetP_opt "nicnetworklist" nicnetworklist p in
  let hasName := getok_string d "name" in
  let p := SetP_opt "name" (VString <$> hasName) p in
  let p := match getok_string d "display_name" with
           | Some displayname => SetP "displayname" (VString displayname) p
           | None => SetP_opt "displayname" (VString <$> hasName) p
           end in
  let p := SetP_opt "rootdisksize" (VInt <$> getok_int d "root_disk_size") p in
  let p := if get_bool d "uefi"
           then SetP "bootmode" (VString "Legacy")
                  (SetP "boottype" (VString "UEFI") p)
           else p in
  let p := if decide (zone_Networktype zone = "Advanced")
           then SetP "networkids" (VList [get_string d "network_id"]) p
           else p in
  let p := SetP_opt "ipaddress" (VString <$> getok_string d "ip_address") p in
  let p := SetP_opt "group" (VString <$> getok_string d "group") p in
  let p := SetP_opt "affinitygroupids"
             (nonempty (get_list d "affinity_group_ids")) p in
  let p := SetP_opt "affinitygroupnames"
             (nonempty (get_list d "affinity_group_names")) p in
  let p := SetP_opt "securitygroupids"
             (nonempty (get_list d "security_group_ids")) p in
  SetP_opt "securitygroupnames"
    (nonempty (get_list d "security_group_names")) p.

(** A string of decimal digits. *)
Fixpoint all_digits (s : string) : bool :=
  match s with
  | EmptyString => true
  | String c rest => is_digit c && all_digits rest
  end.

(** Where the stop, change-offering and start calls of an Update stand
    when it stops at the failed call [a] with error [e]: a failed stop,
    change or start is the last of them, after the ones before it
    succeeded; any other failed call comes before the stop, between the
    stop and the change, or between the change and the start. *)
Definition stopped_at (a : Api) (e : string) (tr : list (Api * error))
  : Prop :=
  match a with
  | StopVirtualMachine => tr = [(StopVirtualMachine, Some e)]
  | ChangeServiceForVirtualMachine =>
      tr = [(StopVirtualMachine, None);
            (ChangeServiceForVirtualMachine, Some e)]
  | StartVirtualMachine =>
      tr = [(StopVirtualMachine, None);
            (ChangeServiceForVirtualMachine, None);
            (StartVirtualMachine, Some e)]
  | _ =>
      tr = [] \/ tr = [(StopVirtualMachine, None)] \/
      tr = [(StopVirtualMachine, None);
            (ChangeServiceForVirtualMachine, None)]
  end.

(** What a block of an Update that issues no stop, change-offering or
    start call does: it leaves the resource data alone and, when it
    fails, its last call is one that failed. *)
Definition quiet_outcome {A} (d : ResourceData) (o : Outcome A)
    (l : list Event) (d' : ResourceData) : Prop :=
  d' = d /\ Forall (fun e => is_power_call e = false) l /\
  match o with
  | Ok _ => True
  | Err _ => exists a p e, last l = Some (mkEvent a p (Some e))
  | Panic _ => False
  end.

(** The NIC to network list of the configuration, where one is
    configured, names both a NIC and a network. *)
Definition nicnetworklist_complete (d : ResourceData) : Prop :=
  forall m, getok_map d "nicnetworklist" = Some m ->
            is_Some (m !! "nic") /\ is_Some (m !! "network").

(** * Properties *)

(** ** Dotted-quad parsing yields octets *)

Lemma is_digit_val c : is_digit c = true -> 0 <= digit_val c <= 9.
Proof.
  unfold is_digit, digit_val. intros H.
  apply andb_true_iff in H as [H1 H2]. lia.
Qed.

Lemma parseIPv4_go_octets s : forall i0 prevdot fields val digLen l,
  net.parseIPv4_go s i0 prevdot fields val digLen = Some l ->
  Forall is_octet fields -> is_octet val -> (length fields <= 3)%nat ->
  length l = 4%nat /\ Forall is_octet l.
Proof.
  induction s as [|c rest IH]; intros i0 prevdot fields val digLen l; simpl.
  - destruct (length fields <? 3)%nat eqn:E; [discriminate|].
    intros [= <-] Hf Hv Hlen. apply Nat.ltb_ge in E.
    split; [rewrite length_app; simpl; lia|].
    apply Forall_app; split; [done|]. by constructor.
  - destruct (is_digit c) eqn:Ed.
    + destruct ((digLen =? 1)%nat && (val =? 0)); [discriminate|].
      destruct (255 <? val * 10 + digit_val c) eqn:E255; [discriminate|].
      intros H Hf Hv Hlen. eapply IH; eauto.
      apply Z.ltb_ge in E255. apply is_digit_val in Ed.
      unfold is_octet in *. lia.
    + destruct (Ascii.eqb c "."); [|discriminate].
      destruct (i0 || prevdot || bool_decide (rest = EmptyString));
        [discriminate|].
      destruct (length fields =? 3)%nat eqn:E3; [discriminate|].
      intros H Hf Hv Hlen. apply Nat.eqb_neq in E3. eapply IH; eauto.
      * apply Forall_app; split; [done|]. by constructor.
      * unfold is_octet; lia.
      * rewrite length_app; simpl; lia.
Qed.

Lemma dtoi_go_nonneg s : forall n m, net.dtoi_go s n = Some m -> 0 <= n -> 0 <= m.
Proof.
  induction s as [|c rest IH]; intros n m; simpl.
  - intros [= <-]; done.
  - destruct (is_digit c) eqn:Ed; [|discriminate].
    destruct (16777215 <=? n * 10 + digit_val c); [discriminate|].
    intros H Hn. eapply IH; eauto. apply is_digit_val in Ed. lia.
Qed.

Lemma ParseCIDR_shape s ip msk :
  net.ParseCIDR s = Some (ip, msk) ->
  exists a b c e n,
    ip = net.v4InV6Prefix ++ [a; b; c; e] /\ msk = net.CIDRMask n /\
    is_octet a /\ is_octet b /\ is_octet c /\ is_octet e /\ 0 <= n <= 32.
Proof.
  unfold net.ParseCIDR.
  destruct (net.split_slash s) as [[addr mask]|]; [|discriminate].
  destruct (net.parseIPv4 addr) as [ip4|] eqn:E4; [|discriminate].
  destruct (net.dtoi mask) as [n|] eqn:En; [|discriminate].
  destruct (32 <? n) eqn:E32; [discriminate|]. intros [= <- <-].
  apply parseIPv4_go_octets in E4 as [Hlen Hall];
    [| constructor | unfold is_octet; lia | simpl; lia].
  destruct ip4 as [|a [|b [|c [|e [|]]]]]; try discriminate.
  inversion Hall as [|? ? Ha Hall1]; subst.
  inversion Hall1 as [|? ? Hb Hall2]; subst.
  inversion Hall2 as [|? ? Hc Hall3]; subst.
  inversion Hall3 as [|? ? He _]; subst.
  exists a, b, c, e, n. repeat split; try done; try apply Ha; try apply Hb;
    try apply Hc; try apply He.
  - unfold net.dtoi in En. destruct mask; [discriminate|].
    eapply dtoi_go_nonneg; eauto. lia.
  - apply Z.ltb_ge in E32. lia.
Qed.

(** ** Octet arithmetic of a masked address *)

Definition mask_bytes : list Z := [0; 128; 192; 224; 240; 248; 252; 254; 255].

Lemma land_mask_byte x m :
  is_octet x -> m ∈ mask_bytes -> Z.land x m = x - x mod (256 - m).
Proof.
  intros Hx Hm.
  assert (Hall : forallb (fun m => forallb (fun x =>
             Z.land x m =? x - x mod (256 - m)) (seqZ 0 256)) mask_bytes = true)
    by (vm_compute; reflexivity).
  rewrite forallb_forall in Hall.
  apply list_elem_of_In in Hm. specialize (Hall m Hm).
  rewrite forallb_forall in Hall.
  assert (Hin : x ∈ seqZ 0 256) by (apply elem_of_seqZ; unfold is_octet in Hx; lia).
  apply list_elem_of_In in Hin. specialize (Hall x Hin). lia.
Qed.

Lemma Mask_v4 a b c e m0 m1 m2 m3 :
  net.Mask (net.v4InV6Prefix ++ [a; b; c; e]) [m0; m1; m2; m3]
  = [Z.land a m0; Z.land b m1; Z.land c m2; Z.land e m3].
Proof. reflexivity. Qed.

Ltac enum_prefix n H :=
  let Hin := fresh "Hin" in
  assert (Hin : n ∈ seqZ 0 33) by (apply elem_of_seqZ; lia);
  let l := eval vm_compute in (seqZ 0 33) in
  change (seqZ 0 33) with l in Hin;
  repeat (apply elem_of_cons in Hin as [-> | Hin]);
  [.. | by apply elem_of_nil in Hin].

Record subnet_octets (a b c e n : Z) (msk sub : list Z) : Prop := {
  so_msk : exists m0 m1 m2 m3 s0 s1 s2 s3,
    msk = [m0; m1; m2; m3] /\ sub = [s0; s1; s2; s3] /\
    (0 <= s0 <= m0 /\ m0 <= 255) /\ (0 <= s1 <= m1 /\ m1 <= 255) /\
    (0 <= s2 <= m2 /\ m2 <= 255) /\ (0 <= s3 <= m3 /\ m3 <= 255) /\
    subnet_base (addr_of a b c e) n = addr_of s0 s1 s2 s3 /\
    2 ^ (32 - n) - 1 = addr_of (255 - m0) (255 - m1) (255 - m2) (255 - m3) /\
    (n <= 30 -> s3 <= 252 /\ m3 <= 252) /\ (n <= 31 -> m3 <= 254)
}.

Lemma subnet_octets_of a b c e n :
  is_octet a -> is_octet b -> is_octet c -> is_octet e -> 0 <= n <= 32 ->
  subnet_octets a b c e n (net.CIDRMask n)
    (net.Mask (net.v4InV6Prefix ++ [a; b; c; e]) (net.CIDRMask n)).
Proof.
  intros Ha Hb Hc He Hn. constructor.
  enum_prefix n Hn.
  all: match goal with
       | |- context [net.CIDRMask ?k] =>
           let l := eval vm_compute in (net.CIDRMask k) in
           change (net.CIDRMask k) with l
       end.
  all: rewrite Mask_v4.
  all: do 8 eexists; split; [reflexivity|]; split; [reflexivity|].
  all: rewrite !land_mask_byte by (first [done | apply (bool_decide_unpack _); vm_compute; reflexivity]).
  all: unfold subnet_base, addr_of, is_octet in *.
  all: match goal with
       | |- context [2 ^ ?k] =>
           let v := eval vm_compute in (2 ^ k) in change (2 ^ k) with v
       end.
  all: simpl Z.sub.
  all: Z.div_mod_to_equations; lia.
Qed.

Lemma dotted_addr_of x0 x1 x2 x3 :
  is_octet x0 -> is_octet x1 -> is_octet x2 -> is_octet x3 ->
  dotted_addr (addr_of x0 x1 x2 x3) = dotted x0 x1 x2 x3.
Proof.
  unfold is_octet, dotted_addr. intros H0 H1 H2 H3.
  replace (addr_of x0 x1 x2 x3 / 16777216 mod 256) with x0
    by (unfold addr_of; Z.div_mod_to_equations; lia).
  replace (addr_of x0 x1 x2 x3 / 65536 mod 256) with x1
    by (unfold addr_of; Z.div_mod_to_equations; lia).
  replace (addr_of x0 x1 x2 x3 / 256 mod 256) with x2
    by (unfold addr_of; Z.div_mod_to_equations; lia).
  replace (addr_of x0 x1 x2 x3 mod 256) with x3
    by (unfold addr_of; Z.div_mod_to_equations; lia).
  reflexivity.
Qed.

Lemma addr_of_last x0 x1 x2 x3 :
  is_octet x3 -> addr_of x0 x1 x2 x3 mod 256 = x3.
Proof. unfold is_octet, addr_of. intros. Z.div_mod_to_equations; lia. Qed.

(** C1 (as amended). [parseCIDR] with [specifyiprange = true] on a
    configuration whose CIDR is [a.b.c.e/n]: each of gateway, startip and
    endip is the explicit field when that field is supplied; otherwise the
    gateway is the subnet base address + 1 when the base does not end in
    255, startip is base + 2 when the base's last octet is below 254, and
    endip is the broadcast address - 1 when the broadcast does not end in 0.
    All three side conditions hold for every prefix length up to 30. *)
Theorem parseCIDR_defaults d a b c e n :
  net.ParseCIDR (get_string d "cidr")
    = Some (net.v4InV6Prefix ++ [a; b; c; e], net.CIDRMask n) ->
  0 <= n <= 32 ->
  let base := subnet_base (addr_of a b c e) n in
  let bcast := subnet_broadcast (addr_of a b c e) n in
  exists m, parseCIDR d true = Ok m /\
    (forall g, getok_string d "gateway" = Some g -> m !! "gateway" = Some g) /\
    (forall s, getok_string d "startip" = Some s -> m !! "startip" = Some s) /\
    (forall x, getok_string d "endip" = Some x -> m !! "endip" = Some x) /\
    (getok_string d "gateway" = None -> base mod 256 <> 255 ->
     m !! "gateway" = Some (dotted_addr (base + 1))) /\
    (getok_string d "startip" = None -> base mod 256 < 254 ->
     m !! "startip" = Some (dotted_addr (base + 2))) /\
    (getok_string d "endip" = None -> bcast mod 256 <> 0 ->
     m !! "endip" = Some (dotted_addr (bcast - 1))) /\
    (n <= 30 -> base mod 256 < 254 /\ bcast mod 256 <> 0).
Proof.
  intros Hparse Hn base bcast.
  destruct (ParseCIDR_shape _ _ _ Hparse)
    as (a' & b' & c' & e' & n' & Hip & _ & Ha & Hb & Hc & He & _).
  apply app_inv_head in Hip. injection Hip as <- <- <- <-.
  destruct (subnet_octets_of a b c e n Ha Hb Hc He Hn) as [Hso].
  destruct Hso as (m0 & m1 & m2 & m3 & s0 & s1 & s2 & s3 & Hmsk & Hsub
                   & H0 & H1 & H2 & H3 & Hbase & Hhost & H30 & H31).
  assert (Hbc : bcast = addr_of (s0 + (255 - m0)) (s1 + (255 - m1))
                          (s2 + (255 - m2)) (s3 + (255 - m3))).
  { unfold bcast, subnet_broadcast. rewrite Hbase.
    unfold addr_of in *. lia. }
  assert (Hb3 : base mod 256 = s3).
  { unfold base. rewrite Hbase. apply addr_of_last. unfold is_octet; lia. }
  assert (Hbc3 : bcast mod 256 = s3 + (255 - m3)).
  { rewrite Hbc. apply addr_of_last. unfold is_octet; lia. }
  assert (Hgw : base mod 256 <> 255 ->
                dotted s0 s1 s2 (byte_add s3 1) = dotted_addr (base + 1)).
  { intros Hside. unfold base. rewrite Hbase.
    replace (addr_of s0 s1 s2 s3 + 1) with (addr_of s0 s1 s2 (s3 + 1))
      by (unfold addr_of; lia).
    rewrite dotted_addr_of by (unfold is_octet; lia).
    unfold byte_add. rewrite Z.mod_small by lia. reflexivity. }
  assert (Hst : base mod 256 < 254 ->
                dotted s0 s1 s2 (byte_add s3 2) = dotted_addr (base + 2)).
  { intros Hside. unfold base. rewrite Hbase.
    replace (addr_of s0 s1 s2 s3 + 2) with (addr_of s0 s1 s2 (s3 + 2))
      by (unfold addr_of; lia).
    rewrite dotted_addr_of by (unfold is_octet; lia).
    unfold byte_add. rewrite Z.mod_small by lia. reflexivity. }
  assert (Hend : bcast mod 256 <> 0 ->
                 dotted (byte_add s0 (byte_sub 255 m0))
                   (byte_add s1 (byte_sub 255 m1))
                   (byte_add s2 (byte_sub 255 m2))
                   (byte_add s3 (byte_sub (byte_sub 255 m3) 1))
                 = dotted_addr (bcast - 1)).
  { intros Hside. rewrite Hbc.
    replace (addr_of (s0 + (255 - m0)) (s1 + (255 - m1)) (s2 + (255 - m2))
               (s3 + (255 - m3)) - 1)
      with (addr_of (s0 + (255 - m0)) (s1 + (255 - m1)) (s2 + (255 - m2))
              (s3 + (255 - m3) - 1)) by (unfold addr_of; lia).
    rewrite dotted_addr_of by (unfold is_octet; lia).
    unfold byte_add, byte_sub.
    f_equal; Z.div_mod_to_equations; lia. }
  rewrite Hmsk in Hsub, Hparse.
  unfold parseCIDR. rewrite Hparse, Hsub. simpl index. cbn [obind].
  destruct (getok_string d "gateway") as [g|] eqn:Eg;
    destruct (getok_string d "startip") as [s|] eqn:Es;
    destruct (getok_string d "endip") as [x|] eqn:Ee;
    cbn [obind]; eexists; (split; [reflexivity|]).
  all: repeat split; try (intros ? [= <-]); try discriminate.
  all: rewrite ?lookup_insert_eq, ?lookup_insert_ne by done;
       rewrite ?lookup_insert_eq, ?lookup_insert_ne by done;
       rewrite ?lookup_insert_eq; try reflexivity.
  all: try (intros; lia).
  all: intros _ Hside; f_equal; auto.
Qed.

Lemma parseCIDR_defaults_witness :
  exists m, parseCIDR (config_of [("cidr", "10.0.0.0/24")]) true = Ok m /\
    m !! "gateway" = Some "10.0.0.1" /\
    m !! "startip" = Some "10.0.0.2" /\
    m !! "endip" = Some "10.0.0.254".
Proof.
  destruct (parseCIDR_defaults (config_of [("cidr", "10.0.0.0/24")])
              10 0 0 0 24) as (m & Hm & _ & _ & _ & Hg & Hs & He & _).
  - vm_compute; reflexivity.
  - lia.
  - exists m. split; [exact Hm|].
    split; [|split].
    + rewrite Hg; [vm_compute; reflexivity | vm_compute; reflexivity | vm_compute; discriminate].
    + rewrite Hs; [vm_compute; reflexivity | vm_compute; reflexivity | vm_compute; reflexivity].
    + rewrite He; [vm_compute; reflexivity | vm_compute; reflexivity | vm_compute; discriminate].
Defined.

(** C1, as stated, fails: for [10.0.0.254/31] the subnet base is
    [10.0.0.254] and base + 2 is [10.0.1.0], but the last octet wraps around
    and [parseCIDR] yields startip [10.0.0.0]. *)
Lemma parseCIDR_startip_wraps :
  ~ (forall d a b c e n,
       net.ParseCIDR (get_string d "cidr")
         = Some (net.v4InV6Prefix ++ [a; b; c; e], net.CIDRMask n) ->
       0 <= n <= 32 ->
       getok_string d "gateway" = None ->
       getok_string d "startip" = None ->
       getok_string d "endip" = None ->
       exists m, parseCIDR d true = Ok m /\
         m !! "gateway"
           = Some (dotted_addr (subnet_base (addr_of a b c e) n + 1)) /\
         m !! "startip"
           = Some (dotted_addr (subnet_base (addr_of a b c e) n + 2)) /\
         m !! "endip"
           = Some (dotted_addr (subnet_broadcast (addr_of a b c e) n - 1))).
Proof.
  intros H.
  destruct (H (config_of [("cidr", "10.0.0.254/31")]) 10 0 0 254 31)
    as (m & Hm & _ & Hs & _);
    [vm_compute; reflexivity | lia | vm_compute; reflexivity ..|].
  assert (E : match parseCIDR (config_of [("cidr", "10.0.0.254/31")]) true with
              | Ok m => m !! "startip"
              | _ => None
              end = Some "10.0.0.0") by (vm_compute; reflexivity).
  rewrite Hm, Hs in E.
  assert (E2 : dotted_addr (subnet_base (addr_of 10 0 0 254) 31 + 2)
               = "10.0.1.0") by (vm_compute; reflexivity).
  rewrite E2 in E. discriminate.
Qed.

(** ** Reasoning about controller runs *)
Section Runs.
Context {cs : CloudStackClient}.

Lemma bind_inv {A B} (m : M A) (k : A -> M B) s o s' :
  bind m k s = (o, s') ->
  (exists a s1, m s = (Ok a, s1) /\ k a s1 = (o, s')) \/
  (exists e, m s = (Err e, s') /\ o = Err e) \/
  (exists e, m s = (Panic e, s') /\ o = Panic e).
Proof.
  unfold bind. destruct (m s) as [[a|e|e] s1]; intros H.
  - left. eauto.
  - right; left. injection H as <- <-. eauto.
  - right; right. injection H as <- <-. eauto.
Qed.

Lemma call_inv a p s o s' :
  call a p s = (o, s') ->
  exists r w', remote a p (st_w s) = (r, w') /\ o = Ok r /\
    s' = mkSt (st_d s) w' (st_log s ++ [mkEvent a p (reply_err r)]).
Proof.
  unfold call. destruct (remote a p (st_w s)) as [r w'].
  intros [= <- <-]. eauto.
Qed.

Lemma read_inv {A} (f : ResourceData -> A) s o s' :
  read f s = (o, s') -> o = Ok (f (st_d s)) /\ s' = s.
Proof. unfold read. intros [= <- <-]. done. Qed.

Lemma write_inv f s o s' :
  write f s = (o, s') ->
  o = Ok tt /\ s' = mkSt (f (st_d s)) (st_w s) (st_log s).
Proof. unfold write. intros [= <- <-]. done. Qed.

Lemma ret_inv {A} (a : A) s o s' : ret a s = (o, s') -> o = Ok a /\ s' = s.
Proof. unfold ret. intros [= <- <-]. done. Qed.

Lemma fail_inv {A} msg s (o : Outcome A) s' :
  fail msg s = (o, s') -> o = Err msg /\ s' = s.
Proof. unfold fail. intros [= <- <-]. done. Qed.

Lemma panic_inv {A} msg s (o : Outcome A) s' :
  panic msg s = (o, s') -> o = Panic msg /\ s' = s.
Proof. unfold panic. intros [= <- <-]. done. Qed.

Lemma lift_inv {A} (x : Outcome A) s o s' :
  lift x s = (o, s') -> o = x /\ s' = s.
Proof. unfold lift. intros [= <- <-]. done. Qed.

Lemma rewrap_inv {A} (m : M A) wrap s o s' :
  rewrap m wrap s = (o, s') ->
  exists o', m s = (o', s') /\
    o = match o' with Err err => Err (wrap err) | _ => o' end.
Proof.
  unfold rewrap. destruct (m s) as [[a|e|e] s1]; intros [= <- <-]; eauto.
Qed.

Section Preserves.
Context (R : St -> St -> Prop) `{!Reflexive R} `{!Transitive R}.

Lemma preserves_ret {A} (a : A) : preserves R (ret a).
Proof. intros s o s' [_ ->]%ret_inv. reflexivity. Qed.

Lemma preserves_fail {A} msg : preserves R (fail (A := A) msg).
Proof. intros s o s' [_ ->]%fail_inv. reflexivity. Qed.

Lemma preserves_panic {A} msg : preserves R (panic (A := A) msg).
Proof. intros s o s' [_ ->]%panic_inv. reflexivity. Qed.

Lemma preserves_lift {A} (x : Outcome A) : preserves R (lift x).
Proof. intros s o s' [= _ <-]. reflexivity. Qed.

Lemma preserves_read {A} (f : ResourceData -> A) : preserves R (read f).
Proof. intros s o s' [_ ->]%read_inv. reflexivity. Qed.

Lemma preserves_bind {A B} (m : M A) (k : A -> M B) :
  preserves R m -> (forall a, preserves R (k a)) -> preserves R (bind m k).
Proof.
  intros Hm Hk s o s' H.
  apply bind_inv in H as [(a & s1 & H1 & H2) | [(e & H1 & _) | (e & H1 & _)]].
  - etransitivity; [eapply Hm | eapply Hk]; eauto.
  - eapply Hm; eauto.
  - eapply Hm; eauto.
Qed.

Lemma preserves_call a p :
  (forall s w' e,
     R s (mkSt (st_d s) w' (st_log s ++ [mkEvent a p e]))) ->
  preserves R (call a p).
Proof.
  intros Hc s o s' (r & w' & _ & _ & ->)%call_inv. apply Hc.
Qed.

Lemma preserves_write f :
  (forall s, R s (mkSt (f (st_d s)) (st_w s) (st_log s))) ->
  preserves R (write f).
Proof. intros Hw s o s' [_ ->]%write_inv. apply Hw. Qed.

Lemma preserves_rewrap {A} (m : M A) wrap :
  preserves R m -> preserves R (rewrap m wrap).
Proof.
  intros Hm s o s'. unfold rewrap.
  destruct (m s) as [[a|e|e] s1] eqn:E; intros [= <- <-]; eapply Hm; eauto.
Qed.

Lemma preserves_Retry_from {X} n lastErr (f : M (string + X)) :
  preserves R f -> preserves R (Retry_from n lastErr f).
Proof.
  intros Hf. revert lastErr.
  induction n as [|n IH]; intros lastErr; simpl.
  - apply preserves_ret.
  - apply preserves_bind; [done|]. intros [err|x]; [apply IH|].
    apply preserves_ret.
Qed.

End Preserves.

(** The relations used below. *)

#[global] Instance same_d_refl : Reflexive same_d.
Proof. by intros s. Qed.
#[global] Instance same_d_trans : Transitive same_d.
Proof. unfold same_d. intros s1 s2 s3 H1 H2. congruence. Qed.

#[global] Instance same_id_refl : Reflexive same_id.
Proof. by intros s. Qed.
#[global] Instance same_id_trans : Transitive same_id.
Proof. unfold same_id. intros s1 s2 s3 H1 H2. congruence. Qed.

#[global] Instance log_ext_refl P : Reflexive (log_ext P).
Proof. intros s. exists []. by rewrite app_nil_r. Qed.
#[global] Instance log_ext_trans P : Transitive (log_ext P).
Proof.
  intros s1 s2 s3 (l1 & E1 & H1) (l2 & E2 & H2). exists (l1 ++ l2).
  split; [by rewrite E2, E1, app_assoc | by apply Forall_app].
Qed.

#[global] Instance keeps_refl k : Reflexive (keeps k).
Proof. by intros s. Qed.
#[global] Instance keeps_trans k : Transitive (keeps k).
Proof. unfold keeps. intros s1 s2 s3 H1 H2. congruence. Qed.

#[global] Instance both_refl R1 R2 `{!Reflexive R1} `{!Reflexive R2} :
  Reflexive (both R1 R2).
Proof. intros s. split; reflexivity. Qed.
#[global] Instance both_trans R1 R2 `{!Transitive R1} `{!Transitive R2} :
  Transitive (both R1 R2).
Proof. intros s1 s2 s3 [? ?] [? ?]. split; etransitivity; eauto. Qed.

Lemma log_ext_call P s w' a p e :
  P (mkEvent a p e) ->
  log_ext P s (mkSt (st_d s) w' (st_log s ++ [mkEvent a p e])).
Proof. intros HP. exists [mkEvent a p e]. split; [done|]. by constructor. Qed.

Lemma log_ext_write P s f :
  log_ext P s (mkSt (f (st_d s)) (st_w s) (st_log s)).
Proof. exists []. simpl. by rewrite app_nil_r. Qed.

Lemma log_ext_elem P s s' e :
  log_ext P s s' -> e ∈ st_log s' -> e ∈ st_log s \/ P e.
Proof.
  intros (l & -> & Hall) [Hin | Hin]%elem_of_app; [by left | right].
  rewrite Forall_forall in Hall. by apply Hall.
Qed.

Lemma log_ext_sub P s s' e : log_ext P s s' -> e ∈ st_log s -> e ∈ st_log s'.
Proof. intros (l & -> & _) Hin. apply elem_of_app. by left. Qed.

End Runs.

(** Proving [preserves R m] by following the structure of [m]. *)
Ltac pres_side :=
  first
    [ reflexivity
    | progress (unfold both); split; pres_side
    | apply log_ext_write
    | apply log_ext_call; simpl; first [done | discriminate | tauto
                                        | (intros; simpl; congruence)]
    | (unfold same_id, same_d, keeps; simpl;
       first [done | by rewrite lookup_insert_ne]) ].

Ltac pres :=
  repeat first
    [ match goal with
      | |- preserves ?R (ret _) => apply (preserves_ret R)
      | |- preserves ?R (fail _) => apply (preserves_fail R)
      | |- preserves ?R (panic _) => apply (preserves_panic R)
      | |- preserves ?R (lift _) => apply (preserves_lift R)
      | |- preserves ?R (read _) => apply (preserves_read R)
      | |- preserves ?R (bind _ _) => apply (preserves_bind R); [| intros ?]
      | |- preserves ?R (rewrap _ _) => apply (preserves_rewrap R)
      | |- preserves ?R (Retry_from _ _ _) => apply (preserves_Retry_from R)
      | |- preserves ?R (call ?a ?p) =>
          apply (preserves_call R a p); intros; pres_side
      | |- preserves ?R (write _) =>
          apply (preserves_write R); intros; pres_side
      | |- preserves _ (match ?x with _ => _ end) => destruct x
      | |- preserves _ (if ?b then _ else _) => destruct b
      | |- preserves _ (let (_, _) := ?x in _) => destruct x
      end
    | progress (unfold when, check, Id, Get_string, Get_int, Get_bool,
                Get_list, Get_map, GetOk_string, GetOk_int, GetOk_bool,
                GetOk_list, GetOk_map, HasChange, Set_, SetId, SetConnInfo,
                retrieveID, retrieveTemplateID, setProjectid, setTags,
                updateTags, setValueOrID, Retry, isAttached,
                retryableAttachVolumeFunc)
    | progress (cbv beta zeta) ].

(** ** Following a run step by step *)

(** Request parameters and messages stay folded under simplification. *)
Arguments params : simpl never.
Arguments SetP : simpl never.
Arguments SetP_opt : simpl never.
Arguments byid : simpl never.
Arguments entity_gone_msg : simpl never.
Arguments Contains : simpl never.
Arguments String.append : simpl never.

(** Following a run step by step, from the equation that describes it. *)
Ltac head_of t :=
  lazymatch t with
  | ?f _ => head_of f
  | _ => t
  end.

(** Unfold the operation at the head of the run [H] describes. *)
Ltac exec_unfold H :=
  lazymatch type of H with
  | ?lhs = _ =>
      let h := head_of lhs in
      lazymatch h with
      | @remote => fail
      | _ => unfold h at 1 in H
      end
  end.

(** [exec_hyp stop H]: one step on [H]; [stop] tells where not to go on. *)
Ltac exec_hyp_gen stop H :=
  lazymatch type of H with
  | ?lhs = _ =>
      stop lhs;
      lazymatch lhs with
      | ret _ _ => apply ret_inv in H as [? ?]; simplify_eq
      | fail _ _ => apply fail_inv in H as [? ?]; simplify_eq
      | panic _ _ => apply panic_inv in H as [? ?]; simplify_eq
      | lift _ _ => apply lift_inv in H as [? ?]; simplify_eq
      | read _ _ => apply read_inv in H as [? ?]; simplify_eq
      | write _ _ => apply write_inv in H as [? ?]; simplify_eq
      | call ?a0 ?p0 ?s0 =>
          let r := fresh "r" in
          let w := fresh "w" in
          let Hr := fresh "Hr" in
          let H' := fresh "H" in
          pose proof (call_inv a0 p0 s0 _ _ H) as H'; clear H;
          destruct H' as (r & w & Hr & ? & ?); simplify_eq
      | bind _ _ _ =>
          let a := fresh "a" in
          let s := fresh "s" in
          let e := fresh "e" in
          let H1 := fresh "H" in
          let H2 := fresh "H" in
          apply bind_inv in H
            as [(a & s & H1 & H2) | [(e & H1 & ?) | (e & H1 & ?)]];
          [cbv beta zeta in H2 | |]
      | rewrap _ _ _ =>
          let o' := fresh "o" in
          let H1 := fresh "H" in
          apply rewrap_inv in H as (o' & H1 & ?)
      | (match ?x with _ => _ end) _ => destruct x eqn:?
      | (if ?b then _ else _) _ => destruct b eqn:?
      | Retry_from _ _ _ _ => progress (cbn [Retry_from] in H)
      | _ => first [progress (exec_unfold H) | progress (cbv beta zeta in H)]
      end
  end.

Ltac no_stop lhs := idtac.

(** Stop in front of [d.SetId(...)]. *)
Ltac stop_at_SetId lhs :=
  lazymatch lhs with
  | bind (SetId _) _ _ => fail
  | _ => idtac
  end.

Ltac exec_hyp H := exec_hyp_gen no_stop H.

Ltac exec1 :=
  match goal with
  | H : _ = (_, _) |- _ => exec_hyp_gen no_stop H
  end;
  cbn [st_d st_w st_log] in *.

Ltac exec := repeat exec1.

Ltac exec_to_SetId :=
  repeat (match goal with
          | H : _ = (_, _) |- _ => exec_hyp_gen stop_at_SetId H
          end;
          cbn [st_d st_w st_log] in *).

Ltac unfold_controllers :=
  unfold resourceCloudStackInstanceRead, resourceCloudStackDiskRead,
    resourceCloudStackNetworkRead, resourceCloudStackVPCRead,
    resourceCloudStackPrivateGatewayRead, resourceCloudStackNetworkACLRead,
    resourceCloudStackVPNCustomerGatewayRead,
    resourceCloudStackAffinityGroupRead, resourceCloudStackSecurityGroupRead,
    resourceCloudStackDiskAttach, resourceCloudStackDiskDetach.

(** Membership in a log that is known call by call. *)
Ltac in_log H :=
  repeat (rewrite elem_of_app in H; destruct H as [H | H]);
  first
    [ by apply elem_of_nil in H
    | apply list_elem_of_singleton in H;
      cbn [reply_err shape_of] in H; try discriminate H ].

(** The primitive steps only: reads, writes and calls. *)
Ltac is_prim h :=
  lazymatch h with
  | @read => idtac
  | @write => idtac
  | @ret => idtac
  | @fail => idtac
  | @panic => idtac
  | @lift => idtac
  | @call => idtac
  | @Id => idtac
  | @Get_string => idtac
  | @Get_int => idtac
  | @Get_bool => idtac
  | @Get_list => idtac
  | @Get_map => idtac
  | @GetOk_string => idtac
  | @GetOk_int => idtac
  | @GetOk_bool => idtac
  | @GetOk_list => idtac
  | @GetOk_map => idtac
  | @HasChange => idtac
  | @Set_ => idtac
  | @SetId => idtac
  | @SetConnInfo => idtac
  | _ => fail
  end.

Ltac exec_prim1 :=
  match goal with
  | H : ?lhs = (_, _) |- _ =>
      let h := head_of lhs in is_prim h; exec_hyp H
  end;
  cbn [st_d st_w st_log] in *.

(** Split the bind at the head of [H], and run its first part if it is
    primitive. *)
Ltac bstep H := exec_hyp H; cbn [st_d st_w st_log] in *; repeat exec_prim1.

(** ** Instance update: the order of the power calls *)

Section UpdateOrder.
Context {cs : CloudStackClient}.

Lemma power_trace_app l1 l2 :
  power_trace (l1 ++ l2) = power_trace l1 ++ power_trace l2.
Proof. unfold power_trace. apply omap_app. Qed.

Lemma power_trace_silent l :
  Forall (fun e => is_power_call e = false) l -> power_trace l = [].
Proof.
  induction 1 as [|e l He _ IH]; [done|].
  unfold power_trace in *. cbn [omap list_omap]. rewrite He. exact IH.
Qed.

Lemma quiet_trace s s' :
  quiet s s' -> power_trace (st_log s') = power_trace (st_log s).
Proof.
  unfold quiet, log_ext. intros (l & -> & Hall).
  by rewrite power_trace_app, (power_trace_silent l), app_nil_r.
Qed.

End UpdateOrder.

(** ** Disk detach: the compensating sequence *)

Section DetachFallback.
Context {cs : CloudStackClient}.

(** C3. In a run of the disk detach whose direct DetachVolume call (the
    second call, after the lookup) failed with [e], with a
    virtual_machine_id in state: the calls that follow are the stop of the
    virtual machine, the second DetachVolume and the start, each issued
    only when the one before succeeded, and an error of any of them is
    returned. When all three succeed, the detach still returns the error
    [e] of the first DetachVolume: it does not report success. *)
Theorem DiskDetach_fallback d w o s' v p e :
  getok_string d "virtual_machine_id" = Some v ->
  run resourceCloudStackDiskDetach d w = (o, s') ->
  st_log s' !! 1%nat = Some (mkEvent DetachVolume p (Some e)) ->
  let tr := (fun ev => (ev_api ev, ev_err ev)) <$> drop 2 (st_log s') in
  (exists e1, tr = [(StopVirtualMachine, Some e1)] /\ o = Err e1) \/
  (exists e2, tr = [(StopVirtualMachine, None); (DetachVolume, Some e2)] /\
              o = Err e2) \/
  (exists e3, tr = [(StopVirtualMachine, None); (DetachVolume, None);
                    (StartVirtualMachine, Some e3)] /\ o = Err e3) \/
  (tr = [(StopVirtualMachine, None); (DetachVolume, None);
         (StartVirtualMachine, None)] /\ o = Err e).
Proof.
  unfold run. intros Hv H Hlog. cbv zeta.
  unfold resourceCloudStackDiskDetach in H.
  exec.
  all: simpl in *.
  all: try discriminate.
  all: simplify_eq.
  all: try congruence.
  all: eauto 10.
Qed.

End DetachFallback.

(** The detach of a volume attached to a running machine. *)
Lemma DiskDetach_fallback_witness :
  let d := resource_data "vol-1" [] [("virtual_machine_id", VString "vm-1")] in
  let r := run (cs := detach_needs_stop_client) resourceCloudStackDiskDetach
             d true in
  let e := "Please specify a VM that is stopped" in
  let tr := (fun ev => (ev_api ev, ev_err ev)) <$> drop 2 (st_log r.2) in
  (exists e1, tr = [(StopVirtualMachine, Some e1)] /\ r.1 = Err e1) \/
  (exists e2, tr = [(StopVirtualMachine, None); (DetachVolume, Some e2)] /\
              r.1 = Err e2) \/
  (exists e3, tr = [(StopVirtualMachine, None); (DetachVolume, None);
                    (StartVirtualMachine, Some e3)] /\ r.1 = Err e3) \/
  (tr = [(StopVirtualMachine, None); (DetachVolume, None);
         (StartVirtualMachine, None)] /\ r.1 = Err e).
Proof.
  intros d r e.
  apply (DiskDetach_fallback (cs := detach_needs_stop_client) d true r.1 r.2
           "vm-1" (params [("id", VString "vol-1")]) e).
  - vm_compute; reflexivity.
  - vm_compute; reflexivity.
  - vm_compute; reflexivity.
Defined.

(** ** Delete of an entity that is gone *)

Section DeleteGone.
Context {cs : CloudStackClient}.

(** C4. For every resource kind, when the last call of a Delete is the
    remote delete call and it failed with [err]: if [err] contains the
    entity-gone message for the resource's own ID, the Delete returns no
    error; otherwise it returns an error. *)
Theorem Delete_entity_gone k d w o s' p err :
  run (Delete_of k) d w = (o, s') ->
  last (st_log s') = Some (mkEvent (delete_api k) p (Some err)) ->
  (Contains err (entity_gone_msg (d_id d)) = true -> o = Ok tt) /\
  (Contains err (entity_gone_msg (d_id d)) = false -> exists msg, o = Err msg).
Proof.
  unfold run.
  destruct k; cbn [Delete_of delete_api]; intros H Hlast.
  all: unfold resourceCloudStackInstanceDelete, resourceCloudStackDiskDelete,
    resourceCloudStackNetworkDelete, resourceCloudStackVPCDelete,
    resourceCloudStackPrivateGatewayDelete,
    resourceCloudStackNetworkACLDelete,
    resourceCloudStackVPNCustomerGatewayDelete,
    resourceCloudStackAffinityGroupDelete,
    resourceCloudStackSecurityGroupDelete, resourceCloudStackDiskDetach in H.
  all: exec.
  all: cbn [st_log st_d reply_err shape_of] in *.
  all: rewrite ?last_snoc in Hlast; try discriminate.
  all: simplify_eq.
  all: split; intros Hc; try congruence; eauto.
Qed.
End DeleteGone.

(** Deleting network 42, which is gone already, returns no error. *)
Lemma Delete_entity_gone_witness :
  (run (cs := network_gone_client) (Delete_of KNetwork)
     (resource_data "42" [] []) tt).1 = Ok tt.
Proof.
  set (r := run (cs := network_gone_client) (Delete_of KNetwork)
              (resource_data "42" [] []) tt).
  apply (proj1 (Delete_entity_gone (cs := network_gone_client) KNetwork
                  (resource_data "42" [] []) tt r.1 r.2
                  (params [("id", VString "42")])
                  ("CloudStack API error 431: Invalid parameter id value=42 " +:+
                   "due to incorrect long value format, or entity does not exist")
                  ltac:(vm_compute; reflexivity)
                  ltac:(vm_compute; reflexivity))).
  vm_compute; reflexivity.
Defined.

(** ** Read of an entity that is gone *)

Section ReadGone.
Context {cs : CloudStackClient}.

(** C5. For every resource kind, when the by-ID lookup of Read fails: with
    a match count of zero, Read clears the identity and returns no error;
    with any other count, Read returns the error of the lookup and leaves
    the identity as it was. *)
Theorem Read_lookup_failure k s count err :
  lookup_failure
    (remote (lookup_api k) (lookup_params k (st_d s)) (st_w s)).1
    = Some (count, err) ->
  (count = 0 ->
   exists s', Read_of k s = (Ok tt, s') /\ d_id (st_d s') = "") /\
  (count <> 0 ->
   exists s', Read_of k s = (Err err, s') /\
              d_id (st_d s') = d_id (st_d s)).
Proof.
  destruct k; cbn [lookup_api lookup_params Read_of]; intros H.
  all: unfold resourceCloudStackInstanceRead, resourceCloudStackDiskRead,
    resourceCloudStackNetworkRead, resourceCloudStackVPCRead,
    resourceCloudStackPrivateGatewayRead, resourceCloudStackNetworkACLRead,
    resourceCloudStackVPNCustomerGatewayRead,
    resourceCloudStackAffinityGroupRead, resourceCloudStackSecurityGroupRead.
  all: cbv beta iota zeta delta [bind Id Get_string read call].
  all: match type of H with
       | context [remote ?a ?p ?w] => destruct (remote a p w) as [r w'] eqn:E
       end.
  all: cbn [fst lookup_failure shape_of] in H; destruct r as [x|c e];
    [discriminate|]; injection H as -> ->.
  all: cbv beta iota.
  all: split; intros Hc; (destruct (decide (count = 0)); [|]); try done;
    eexists; split; reflexivity.
Qed.

End ReadGone.

(** Reading an instance that is gone clears its identity. *)
Lemma Read_lookup_failure_witness :
  let s := mkSt (cs := vm_gone_client) (resource_data "vm-1" [] []) tt [] in
  exists s', Read_of (cs := vm_gone_client) KInstance s = (Ok tt, s') /\
             d_id (st_d s') = "".
Proof.
  intros s.
  apply (proj1 (Read_lookup_failure (cs := vm_gone_client) KInstance s 0
                  "No match found for vm-1" ltac:(vm_compute; reflexivity))).
  reflexivity.
Defined.

(** ** User data *)

(** Bitwise or of values that share no bit is their sum. *)
Lemma land_mul_pow2_small x y k :
  0 <= k -> 0 <= y < 2 ^ k -> Z.land (x * 2 ^ k) y = 0.
Proof.
  intros Hk Hy.
  rewrite <- (Z.mod_small y (2 ^ k)) by lia.
  rewrite <- (Z.land_ones y k) by lia.
  rewrite (Z.land_comm y), Z.land_assoc, Z.land_ones by lia.
  rewrite Z.mod_mul by lia. apply Z.land_0_l.
Qed.

Lemma lor_mul_pow2_add x y k :
  0 <= k -> 0 <= y < 2 ^ k -> Z.lor (x * 2 ^ k) y = x * 2 ^ k + y.
Proof.
  intros Hk Hy. pose proof (Z.add_lor_land (x * 2 ^ k) y) as H.
  rewrite land_mul_pow2_small in H by done. lia.
Qed.

Lemma quantum_add a b c :
  is_octet a -> is_octet b -> is_octet c ->
  base64.quantum a b c = a * 65536 + b * 256 + c.
Proof.
  unfold is_octet, base64.quantum. intros Ha Hb Hc.
  rewrite !Z.shiftl_mul_pow2 by lia.
  rewrite (lor_mul_pow2_add a (b * 2 ^ 8) 16) by lia.
  replace (a * 2 ^ 16 + b * 2 ^ 8) with ((a * 2 ^ 8 + b) * 2 ^ 8) by lia.
  rewrite lor_mul_pow2_add by lia. lia.
Qed.

Lemma symbols_add d0 d1 d2 d3 :
  is_symbol d0 -> is_symbol d1 -> is_symbol d2 -> is_symbol d3 ->
  Z.lor (Z.lor (Z.lor (Z.shiftl d0 18) (Z.shiftl d1 12)) (Z.shiftl d2 6)) d3
  = d0 * 262144 + d1 * 4096 + d2 * 64 + d3.
Proof.
  unfold is_symbol. intros H0 H1 H2 H3.
  rewrite !Z.shiftl_mul_pow2 by lia.
  rewrite (lor_mul_pow2_add d0 (d1 * 2 ^ 12) 18) by lia.
  replace (d0 * 2 ^ 18 + d1 * 2 ^ 12) with ((d0 * 2 ^ 6 + d1) * 2 ^ 12) by lia.
  rewrite (lor_mul_pow2_add _ (d2 * 2 ^ 6) 12) by lia.
  replace ((d0 * 2 ^ 6 + d1) * 2 ^ 12 + d2 * 2 ^ 6)
    with (((d0 * 2 ^ 6 + d1) * 2 ^ 6 + d2) * 2 ^ 6) by lia.
  rewrite lor_mul_pow2_add by lia. lia.
Qed.

Lemma shiftr_land_div_mod x n k :
  0 <= n -> 0 <= k ->
  Z.land (Z.shiftr x n) (Z.ones k) = (x / 2 ^ n) mod 2 ^ k.
Proof.
  intros Hn Hk. by rewrite Z.shiftr_div_pow2, Z.land_ones.
Qed.

Lemma sextet_symbol val shift :
  0 <= shift -> is_symbol (Z.land (Z.shiftr val shift) 63).
Proof.
  intros Hs. unfold is_symbol. change 63 with (Z.ones 6).
  rewrite shiftr_land_div_mod by lia. apply Z.mod_pos_bound. lia.
Qed.

Lemma decodeMap_encode_symbol v :
  is_symbol v -> base64.decodeMap (base64.encode_symbol v) = Some v.
Proof.
  unfold is_symbol. intros Hv.
  assert (Hn : exists n, (n < 64)%nat /\ v = Z.of_nat n)
    by (exists (Z.to_nat v); lia).
  destruct Hn as (n & Hn & ->). clear Hv.
  do 64 (destruct n as [| n]; [vm_compute; reflexivity |]). lia.
Qed.

Lemma decodeMap_sextet val shift :
  0 <= shift ->
  base64.decodeMap (base64.sextet val shift)
  = Some (Z.land (Z.shiftr val shift) 63).
Proof.
  intros Hs. apply decodeMap_encode_symbol. by apply sextet_symbol.
Qed.

Ltac bytes_of_symbols :=
  unfold base64.quantum_bytes; simpl;
  rewrite symbols_add by first [apply sextet_symbol; lia | unfold is_symbol; lia];
  rewrite quantum_add by (unfold is_octet in *; lia);
  change 255 with (Z.ones 8); change 63 with (Z.ones 6);
  rewrite ?shiftr_land_div_mod, ?Z.land_ones by lia;
  rewrite ?Z.shiftr_0_r;
  unfold is_octet in *; repeat f_equal; Z.div_mod_to_equations; lia.

(** The bytes of a quantum are those it was encoded from. *)
Lemma quantum_bytes_4 a b c :
  is_octet a -> is_octet b -> is_octet c ->
  let val := base64.quantum a b c in
  let d shift := Z.land (Z.shiftr val shift) 63 in
  base64.quantum_bytes [d 18; d 12; d 6; d 0] = [a; b; c].
Proof. intros Ha Hb Hc val d. subst val d. cbv beta. bytes_of_symbols. Qed.

Lemma quantum_bytes_3 a b :
  is_octet a -> is_octet b ->
  let val := base64.quantum a b 0 in
  let d shift := Z.land (Z.shiftr val shift) 63 in
  base64.quantum_bytes [d 18; d 12; d 6] = [a; b].
Proof. intros Ha Hb val d. subst val d. cbv beta. bytes_of_symbols. Qed.

Lemma quantum_bytes_2 a :
  is_octet a ->
  let val := base64.quantum a 0 0 in
  let d shift := Z.land (Z.shiftr val shift) 63 in
  base64.quantum_bytes [d 18; d 12] = [a].
Proof. intros Ha val d. subst val d. cbv beta. bytes_of_symbols. Qed.

Lemma list_ind3 {A} (P : list A -> Prop) :
  P [] -> (forall a, P [a]) -> (forall a b, P [a; b]) ->
  (forall a b c l, P l -> P (a :: b :: c :: l)) ->
  forall l, P l.
Proof.
  intros H0 H1 H2 H3 l.
  assert (H : P l /\ (forall a, P (a :: l)) /\ (forall a b, P (a :: b :: l))).
  { induction l as [| x l (IH0 & IH1 & IH2)]; [by auto |].
    split; [apply IH1 |]. split; [intros a; apply IH2 |].
    intros a b. by apply H3. }
  apply H.
Qed.

Lemma Decode_symbol c rest dbuf acc out :
  base64.decodeMap c = Some out -> length dbuf <> 3%nat ->
  base64.Decode (String c rest) dbuf acc
  = base64.Decode rest (dbuf ++ [out]) acc.
Proof.
  intros Hc Hl. cbn [base64.Decode]. rewrite Hc.
  by apply Nat.eqb_neq in Hl as ->.
Qed.

Lemma Decode_symbol_last c rest dbuf acc out :
  base64.decodeMap c = Some out -> length dbuf = 3%nat ->
  base64.Decode (String c rest) dbuf acc
  = base64.Decode rest [] (acc ++ base64.quantum_bytes (dbuf ++ [out])).
Proof.
  intros Hc Hl. cbn [base64.Decode]. rewrite Hc.
  by apply Nat.eqb_eq in Hl as ->.
Qed.

Lemma Decode_padding_2 d0 d1 acc :
  base64.Decode (String base64.padChar (String base64.padChar "")) [d0; d1] acc
  = Some (acc ++ base64.quantum_bytes [d0; d1]).
Proof. reflexivity. Qed.

Lemma Decode_padding_1 d0 d1 d2 acc :
  base64.Decode (String base64.padChar "") [d0; d1; d2] acc
  = Some (acc ++ base64.quantum_bytes [d0; d1; d2]).
Proof. reflexivity. Qed.

Ltac decode_symbol :=
  lazymatch goal with
  | |- context [base64.Decode (String (base64.sextet ?v ?sh) ?rest) ?dbuf ?acc] =>
      first
        [ rewrite (Decode_symbol (base64.sextet v sh) rest dbuf acc _
                     (decodeMap_sextet v sh ltac:(lia)))
            by (cbn [length]; lia)
        | rewrite (Decode_symbol_last (base64.sextet v sh) rest dbuf acc _
                     (decodeMap_sextet v sh ltac:(lia)))
            by reflexivity ]
  end;
  cbn [app].

(** Decoding an encoding gives the bytes back. *)
Lemma Decode_Encode l :
  Forall is_octet l ->
  forall acc, base64.Decode (base64.Encode l) [] acc = Some (acc ++ l).
Proof.
  induction l as [| a | a b | a b c l IH] using list_ind3; intros Hl acc.
  - by rewrite app_nil_r.
  - apply Forall_cons in Hl as [Ha _].
    cbn [base64.Encode]. cbv zeta. do 2 decode_symbol.
    rewrite Decode_padding_2. f_equal. f_equal. by apply quantum_bytes_2.
  - apply Forall_cons in Hl as [Ha [Hb _]%Forall_cons].
    cbn [base64.Encode]. cbv zeta. do 3 decode_symbol.
    rewrite Decode_padding_1. f_equal. f_equal. by apply quantum_bytes_3.
  - apply Forall_cons in Hl as [Ha [Hb [Hc Hl]%Forall_cons]%Forall_cons].
    cbn [base64.Encode]. cbv zeta. do 4 decode_symbol.
    rewrite IH by done. f_equal.
    rewrite (quantum_bytes_4 a b c) by done.
    by rewrite <- app_assoc.
Qed.

Lemma byte_of_octet c : is_octet (base64.byte_of c).
Proof.
  unfold is_octet, base64.byte_of.
  pose proof (nat_ascii_bounded c). lia.
Qed.

(** Every encoding decodes: to the bytes of the string encoded. *)
Theorem DecodeString_EncodeToString s :
  base64.DecodeString (base64.EncodeToString s)
  = Some (base64.bytes_of_string s).
Proof.
  unfold base64.DecodeString, base64.EncodeToString.
  rewrite Decode_Encode; [done |].
  unfold base64.bytes_of_string. apply Forall_fmap, Forall_forall.
  intros c _. apply byte_of_octet.
Qed.

(** X13. What [getUserData] returns always decodes as base64, so it
    returns its own results unchanged. *)
Lemma getUserData_idempotent userData :
  is_Some (base64.DecodeString (getUserData userData).1) /\
  getUserData (getUserData userData).1 = getUserData userData.
Proof.
  assert (H : is_Some (base64.DecodeString (getUserData userData).1)).
  { unfold getUserData. cbv zeta.
    destruct (base64.DecodeString userData) as [bytes |] eqn:E; cbn [fst].
    - by rewrite E.
    - by rewrite DecodeString_EncodeToString. }
  split; [exact H |].
  destruct H as [bytes H]. unfold getUserData at 1. cbv zeta.
  rewrite H. by destruct (getUserData userData) as [ud [e |]] eqn:E;
    [unfold getUserData in E; cbv zeta in E; discriminate E |].
Qed.

(** C6. [getUserData] returns the standard base64 encoding of a string
    that does not decode as base64, returns a string that decodes as
    base64 as it is, and never returns an error. *)
Theorem getUserData_normalizes userData :
  (base64.DecodeString userData = None ->
   getUserData userData = (base64.EncodeToString userData, None)) /\
  (is_Some (base64.DecodeString userData) ->
   getUserData userData = (userData, None)) /\
  (getUserData userData).2 = None.
Proof.
  unfold getUserData. cbv zeta.
  destruct (base64.DecodeString userData) as [bytes |] eqn:E.
  - split; [discriminate |]. split; [reflexivity | reflexivity].
  - split; [reflexivity |]. split; [| reflexivity].
    intros [bytes Hb]. discriminate Hb.
Qed.

(** The string hello is encoded, and its encoding is left as it is. *)
Lemma getUserData_normalizes_witness :
  base64.DecodeString "hello" = None /\
  getUserData "hello" = ("aGVsbG8=", None) /\
  is_Some (base64.DecodeString "aGVsbG8=") /\
  getUserData "aGVsbG8=" = ("aGVsbG8=", None).
Proof.
  split; [vm_compute; reflexivity |]. split; [| split].
  - apply (proj1 (getUserData_normalizes "hello")). vm_compute; reflexivity.
  - eexists. vm_compute; reflexivity.
  - apply (proj1 (proj2 (getUserData_normalizes "aGVsbG8="))).
    eexists. vm_compute; reflexivity.
Defined.

(** ** Create: no identity without a successful create call *)

Section CreateFails.
Context {cs : CloudStackClient}.

Lemma before_create_post a s s' (o : Outcome unit) :
  Forall (fun e => ev_api e <> a) (st_log s) ->
  before_create a s s' ->
  (forall p err,
     mkEvent a p (Some err) ∈ st_log s' ->
     (exists msg, o = Err msg) /\ d_id (st_d s') = d_id (st_d s)) /\
  (d_id (st_d s') <> d_id (st_d s) ->
   exists p, mkEvent a p None ∈ st_log s').
Proof.
  intros Hlog [Hid Hext]. split.
  - intros p err Hin. exfalso.
    destruct (log_ext_elem _ _ _ _ Hext Hin) as [Hin' | Hne].
    + rewrite Forall_forall in Hlog. by apply (Hlog _ Hin').
    + by apply Hne.
  - intros Hne. by destruct Hne.
Qed.

Lemma create_spec_bind a {A} (m : M A) (k : A -> M unit) :
  preserves (before_create a) m ->
  (forall x, create_spec a (k x)) ->
  create_spec a (bind m k).
Proof.
  intros Hm Hk s o s' Hlog H.
  apply bind_inv in H as [(x & s1 & H1 & H2) | [(e & H1 & ->) | (e & H1 & ->)]].
  - destruct (Hm _ _ _ H1) as [Hid (l & Hl & Hall)].
    assert (Hlog1 : Forall (fun e => ev_api e <> a) (st_log s1))
      by (rewrite Hl; by apply Forall_app).
    destruct (Hk x s1 o s' Hlog1 H2) as [Hf Hs]. unfold same_id in Hid.
    rewrite <- Hid. done.
  - eapply before_create_post; eauto.
  - eapply before_create_post; eauto.
Qed.

Lemma create_spec_fail a msg : create_spec a (fail msg).
Proof.
  intros s o s' Hlog [-> ->]%fail_inv.
  apply before_create_post; [done | reflexivity].
Qed.

(** The create call itself: on an error the continuation returns an error
    at once; otherwise the identity may be set, and no further create call
    is issued. *)
Lemma create_spec_call a p (k : reply (shape_of a) -> M unit) :
  (forall r err, reply_err r = Some err ->
     exists msg, forall s, k r s = (Err msg, s)) ->
  (forall r, reply_err r = None ->
     preserves (log_ext (fun e => ev_api e <> a)) (k r)) ->
  create_spec a (bind (call a p) k).
Proof.
  intros Hfail Hok s o s' Hlog H.
  apply bind_inv in H as [(r & s1 & H1 & H2) | [(e & H1 & ->) | (e & H1 & ->)]];
    [| apply call_inv in H1 as (? & ? & _ & [=] & _) ..].
  apply call_inv in H1 as (r' & w' & _ & [= <-] & ->).
  destruct (reply_err r) as [err0|] eqn:Er.
  - destruct (Hfail r err0 Er) as [msg Hk]. rewrite Hk in H2.
    injection H2 as <- <-. cbn [st_log st_d]. split; [|done].
    intros _ _ _. eauto.
  - apply (Hok r Er) in H2. split.
    + intros p0 err Hin. exfalso.
      destruct (log_ext_elem _ _ _ _ H2 Hin) as [Hin' | Hne];
        [| by apply Hne].
      cbn [st_log] in Hin'. apply elem_of_app in Hin' as [Hin' | Hin'].
      * rewrite Forall_forall in Hlog. by apply (Hlog _ Hin').
      * apply list_elem_of_singleton in Hin'. congruence.
    + intros _. exists p. eapply log_ext_sub; [exact H2|].
      cbn [st_log]. apply elem_of_app. right.
      apply list_elem_of_singleton. reflexivity.
Qed.

End CreateFails.

Ltac create_spec_step :=
  lazymatch goal with
  | |- create_spec ?a (bind (call ?a ?p) ?k) =>
      apply (create_spec_call a p k);
      [ let r := fresh "r" in
        let Hr := fresh "Hr" in
        intros r ? Hr; cbv [reply shape_of] in r; destruct r;
        cbn [reply_err shape_of] in Hr; simplify_eq;
        eexists; intros; reflexivity
      | let r := fresh "r" in
        let Hr := fresh "Hr" in
        intros r Hr; cbv [reply shape_of] in r; destruct r;
        cbn [reply_err shape_of] in Hr; simplify_eq;
        unfold_controllers; pres ]
  | |- create_spec ?a (bind _ _) =>
      apply create_spec_bind; [unfold before_create; pres | intros ?]
  | |- create_spec _ (fail _) => apply create_spec_fail
  | |- create_spec _ (match ?x with _ => _ end) => destruct x
  | |- create_spec _ (if ?b then _ else _) => destruct b
  | |- create_spec _ _ => progress (cbv beta zeta)
  end.

Section CreateFailsThm.
Context {cs : CloudStackClient}.

(** C7. For every resource kind, in a run of Create: if the remote create
    call returned an error, Create returns an error and the identity is the
    one it started with; and the identity differs from the one it started
    with only if the remote create call succeeded. *)
Theorem Create_failure_no_identity k d w o s' :
  run (Create_of k) d w = (o, s') ->
  (forall p err,
     mkEvent (create_api k) p (Some err) ∈ st_log s' ->
     (exists msg, o = Err msg) /\ d_id (st_d s') = d_id d) /\
  (d_id (st_d s') <> d_id d ->
   exists p, mkEvent (create_api k) p None ∈ st_log s').
Proof.
  unfold run. intros H.
  assert (Hspec : create_spec (create_api k) (Create_of k)).
  { clear H. destruct k; cbn [Create_of create_api].
    all: unfold resourceCloudStackInstanceCreate,
      resourceCloudStackDiskCreate, resourceCloudStackNetworkCreate,
      resourceCloudStackVPCCreate, resourceCloudStackPrivateGatewayCreate,
      resourceCloudStackNetworkACLCreate,
      resourceCloudStackVPNCustomerGatewayCreate,
      resourceCloudStackAffinityGroupCreate,
      resourceCloudStackSecurityGroupCreate.
    all: repeat create_spec_step.
  }
  apply (Hspec (mkSt d w []) o s' (Forall_nil_2 _) H).
Qed.
End CreateFailsThm.

(** A refused network ACL list gets no identity. *)
Lemma Create_failure_no_identity_witness :
  let d := resource_data "" [] [("name", VString "acl")] in
  let r := run (cs := acl_refused_client) (Create_of KNetworkACL) d tt in
  (exists msg, r.1 = Err msg) /\ d_id (st_d r.2) = "".
Proof.
  intros d r.
  eapply (proj1 (Create_failure_no_identity (cs := acl_refused_client)
                   KNetworkACL d tt r.1 r.2 ltac:(vm_compute; reflexivity))
            _ "VPC not found").
  eapply (list_elem_of_lookup_2 _ 0%nat). vm_compute. reflexivity.
Defined.

(** ** Mutually exclusive attributes *)

Section Validation.
Context {cs : CloudStackClient}.

Lemma validate_conflict k sch c b :
  is_Some (c !! k) -> b ∈ ConflictsWith sch -> is_Some (c !! b) ->
  validate k sch c <> [].
Proof.
  intros [v Hk] Hb Hc. unfold validate, validateConflictingAttributes.
  rewrite Hk.
  destruct (filter _ (ConflictsWith sch)) as [| x l] eqn:E; [| done].
  exfalso. apply (elem_of_nil b). rewrite <- E.
  apply list_elem_of_filter. done.
Qed.

Lemma Validate_conflict m c i k sch b :
  m !! i = Some (k, sch) ->
  is_Some (c !! k) -> b ∈ ConflictsWith sch -> is_Some (c !! b) ->
  Validate m c <> [].
Proof.
  intros Hi Hk Hb Hc HV.
  destruct (validate k sch c) as [| e l] eqn:E.
  - by apply (validate_conflict k sch c b).
  - apply (elem_of_nil e). rewrite <- HV. unfold Validate.
    apply list_elem_of_bind. exists (k, sch). split.
    + cbn [fst snd]. rewrite E. by left.
    + by apply list_elem_of_lookup_2 in Hi.
Qed.

Lemma exclusive_pairs_declared a b :
  (a, b) ∈ exclusive_pairs ->
  exists i sa j sb,
    Schema_ resourceCloudStackInstance !! i = Some (a, sa) /\
    b ∈ ConflictsWith sa /\
    Schema_ resourceCloudStackInstance !! j = Some (b, sb) /\
    a ∈ ConflictsWith sb.
Proof.
  unfold exclusive_pairs. intros H.
  repeat (apply elem_of_cons in H as [[= -> ->] | H]); [.. | by inversion H].
  - exists 16%nat; eexists; exists 17%nat; eexists.
    repeat split; first [reflexivity | by left].
  - exists 10%nat; eexists; exists 11%nat; eexists.
    repeat split; first [reflexivity | by left].
  - exists 12%nat; eexists; exists 13%nat; eexists.
    repeat split; first [reflexivity | by left].
Qed.

(** C8. An instance configuration that sets both attributes of a pair
    that exclude each other (keypair and keypairs, affinity groups by id
    and by name, security groups by id and by name) does not validate, and
    creating the instance from it fails in the state it started in: no
    remote call is issued. *)
Theorem conflicting_pair_rejected c a b s :
  (a, b) ∈ exclusive_pairs ->
  is_Some (c !! a) -> is_Some (c !! b) ->
  Validate (Schema_ resourceCloudStackInstance) c <> [] /\
  exists err,
    ValidateAndCreate resourceCloudStackInstance c s = (Err err, s).
Proof.
  intros Hab Ha Hb.
  destruct (exclusive_pairs_declared a b Hab) as (i & sa & _ & _ & Hi & Hc & _).
  assert (HV : Validate (Schema_ resourceCloudStackInstance) c <> [])
    by exact (Validate_conflict _ c i a sa b Hi Ha Hc Hb).
  split; [exact HV |].
  unfold ValidateAndCreate.
  destruct (Validate (Schema_ resourceCloudStackInstance) c) as [| err l];
    [done |].
  exists err. reflexivity.
Qed.

End Validation.

(** A configuration with both keypair and keypairs. *)
Lemma conflicting_pair_rejected_witness :
  let c : gmap string value :=
    list_to_map [("name", VString "web"); ("keypair", VString "k1");
                 ("keypairs", VList ["k1"; "k2"])] in
  let s := mkSt (cs := vm_gone_client) (resource_data "" [] []) tt [] in
  Validate (Schema_ (resourceCloudStackInstance (cs := vm_gone_client))) c
    <> [] /\
  exists err,
    ValidateAndCreate (resourceCloudStackInstance (cs := vm_gone_client)) c s
    = (Err err, s).
Proof.
  intros c s.
  apply (conflicting_pair_rejected (cs := vm_gone_client) c
           "keypair" "keypairs" s).
  - apply list_elem_of_here.
  - eexists. vm_compute; reflexivity.
  - eexists. vm_compute; reflexivity.
Defined.

(** ** Instance create and the first NIC *)

Section NoPanic.
Context {cs : CloudStackClient}.

Lemma no_panic_ret {A} (a : A) : no_panic (ret a).
Proof. intros s o s' [-> _]%ret_inv msg. discriminate. Qed.

Lemma no_panic_fail {A} e : no_panic (fail (A := A) e).
Proof. intros s o s' [-> _]%fail_inv msg. discriminate. Qed.

Lemma no_panic_read {A} (f : ResourceData -> A) : no_panic (read f).
Proof. intros s o s' [-> _]%read_inv msg. discriminate. Qed.

Lemma no_panic_write f : no_panic (write f).
Proof. intros s o s' [-> _]%write_inv msg. discriminate. Qed.

Lemma no_panic_call a p : no_panic (call a p).
Proof. intros s o s' (r & w' & _ & -> & _)%call_inv msg. discriminate. Qed.

Lemma no_panic_bind {A B} (m : M A) (k : A -> M B) :
  no_panic m -> (forall a, no_panic (k a)) -> no_panic (bind m k).
Proof.
  intros Hm Hk s o s' H msg.
  apply bind_inv in H as [(a & s1 & H1 & H2) | [(e & H1 & ->) | (e & H1 & ->)]].
  - eapply Hk; eauto.
  - discriminate.
  - intros _. by apply (Hm _ _ _ H1 e).
Qed.

(** The value a [ret] passes on is known to the continuation. *)
Lemma no_panic_ret_bind {A B} (a : A) (k : A -> M B) :
  no_panic (k a) -> no_panic (bind (ret a) k).
Proof. intros Hk s o s' H. apply (Hk s o s' H). Qed.

(** Nothing runs after a failure. *)
Lemma no_panic_fail_bind {A B} e (k : A -> M B) : no_panic (bind (fail e) k).
Proof. intros s o s' H msg. cbv in H. by injection H as <- _. Qed.

(** So is the reply of a remote call, as one the client can give. *)
Lemma no_panic_call_bind a p {B} (k : reply (shape_of a) -> M B) :
  (forall r w1 w2, remote a p w1 = (r, w2) -> no_panic (k r)) ->
  no_panic (bind (call a p) k).
Proof.
  intros Hk s o s' H msg.
  apply bind_inv in H as [(r & s1 & H1 & H2) | [(e & H1 & ->) | (e & H1 & ->)]].
  - apply call_inv in H1 as (r' & w' & Hr & [= <-] & ->).
    eapply Hk; eauto.
  - discriminate.
  - apply call_inv in H1 as (r' & w' & Hr & [=] & _).
Qed.

End NoPanic.

Ltac no_panic_step :=
  first
    [ lazymatch goal with
      | |- no_panic (ret _) => apply no_panic_ret
      | |- no_panic (fail _) => apply no_panic_fail
      | |- no_panic (read _) => apply no_panic_read
      | |- no_panic (write _) => apply no_panic_write
      | |- no_panic (call ?a ?p) => apply (no_panic_call a p)
      | |- no_panic (panic _) => exfalso
      | |- no_panic (bind (ret ?a) ?k) => apply (no_panic_ret_bind a k)
      | |- no_panic (bind (fail ?e) ?k) => apply (no_panic_fail_bind e k)
      | |- no_panic (bind (call ?a ?p) ?k) =>
          let r := fresh "r" in
          apply (no_panic_call_bind a p k); intros r ? ? ?;
          cbv [reply shape_of] in r
      | |- no_panic (bind (check ?r _) _) =>
          destruct r; unfold check at 1; cbv beta iota
      | |- no_panic (bind _ _) => apply no_panic_bind; [| intros ?]
      | |- no_panic (match ?x with _ => _ end) => destruct x eqn:?
      | |- no_panic (if ?b then _ else _) => destruct b
      | |- no_panic (let (_, _) := ?x in _) => destruct x
      end
    | progress (unfold when, check, Id, Get_string, Get_int, Get_bool,
                Get_list, Get_map, GetOk_string, GetOk_int, GetOk_bool,
                GetOk_list, GetOk_map, HasChange, Set_, SetId, SetConnInfo,
                retrieveID, retrieveTemplateID, setProjectid, setTags,
                updateTags, setValueOrID)
    | progress (cbv beta zeta) ].

Section Panics.
Context {cs : CloudStackClient}.

Lemma before_deploy_post s s' :
  Forall (fun e => ev_api e <> DeployVirtualMachine) (st_log s) ->
  before_deploy s s' ->
  Forall (fun e => ev_api e <> DeployVirtualMachine) (st_log s').
Proof. intros Hlog (l & -> & Hl). by apply Forall_app. Qed.

Lemma no_deploy_yet l p :
  Forall (fun e => ev_api e <> DeployVirtualMachine) l ->
  mkEvent DeployVirtualMachine p None ∉ l.
Proof.
  intros Hall Hin. rewrite Forall_forall in Hall. by apply (Hall _ Hin).
Qed.

Lemma panic_spec_bind {A} (m : M A) (k : A -> M unit) :
  preserves before_deploy m ->
  (forall x, panic_spec (k x)) ->
  panic_spec (bind m k).
Proof.
  intros Hm Hk s o s' Hlog H [p Hin] Htags.
  apply bind_inv in H as [(x & s1 & H1 & H2) | [(e & H1 & ->) | (e & H1 & ->)]].
  - apply (Hk x s1 o s'); eauto.
    eapply before_deploy_post; [exact Hlog | exact (Hm _ _ _ H1)].
  - exfalso. apply (no_deploy_yet (st_log s') p); [| exact Hin].
    eapply before_deploy_post; [exact Hlog | exact (Hm _ _ _ H1)].
  - exfalso. apply (no_deploy_yet (st_log s') p); [| exact Hin].
    eapply before_deploy_post; [exact Hlog | exact (Hm _ _ _ H1)].
Qed.

Lemma panic_spec_fail msg : panic_spec (fail msg).
Proof.
  intros s o s' Hlog [-> ->]%fail_inv [p Hin]. exfalso.
  eapply no_deploy_yet; eauto.
Qed.

(** The deploy call: after an error nothing else is called; after a
    success the rest of Create panics unless setting the tags fails. *)
Lemma panic_spec_deploy p (k : string + VirtualMachine -> M unit) :
  deploys_without_nic ->
  (forall e, exists msg, forall s, k (inl e) s = (Err msg, s)) ->
  (forall vm s o s',
     vm_Nic vm = [] ->
     k (inr vm) s = (o, s') ->
     (forall p e, mkEvent CreateTags p (Some e) ∉ st_log s') ->
     exists msg, o = Panic msg) ->
  panic_spec (bind (call DeployVirtualMachine p) k).
Proof.
  intros Hnil Hfail Hok s o s' Hlog H [p0 Hin] Htags.
  apply bind_inv in H as [(r & s1 & H1 & H2) | [(e & H1 & ->) | (e & H1 & ->)]];
    [| apply call_inv in H1 as (? & ? & _ & [=] & _) ..].
  apply call_inv in H1 as (r' & w' & Hr & [= <-] & ->).
  destruct r as [e | vm].
  - exfalso. destruct (Hfail e) as [msg Hk]. rewrite Hk in H2.
    injection H2 as <- <-. cbn [st_log] in Hin.
    apply elem_of_app in Hin as [Hin | Hin].
    + eapply no_deploy_yet; eauto.
    + apply list_elem_of_singleton in Hin. discriminate Hin.
  - eapply Hok; eauto.
Qed.

End Panics.

Ltac panic_spec_step :=
  lazymatch goal with
  | |- panic_spec (bind (call DeployVirtualMachine ?p) ?k) =>
      apply (panic_spec_deploy p k); [assumption | |]
  | |- panic_spec (bind _ _) =>
      apply panic_spec_bind; [unfold before_deploy; pres | intros ?]
  | |- panic_spec (fail _) => apply panic_spec_fail
  | |- panic_spec (match ?x with _ => _ end) => destruct x
  | |- panic_spec (if ?b then _ else _) => destruct b
  | |- panic_spec _ => progress (cbv beta zeta)
  end.

Section CreateNic.
Context {cs : CloudStackClient}.

Lemma InstanceRead_no_panic : no_panic resourceCloudStackInstanceRead.
Proof. unfold resourceCloudStackInstanceRead. repeat no_panic_step. Qed.

Lemma InstanceCreate_panics :
  deploys_without_nic ->
  panic_spec resourceCloudStackInstanceCreate.
Proof.
  intros Hnil. unfold resourceCloudStackInstanceCreate.
  repeat panic_spec_step.
  - intros e. eexists. intros s. reflexivity.
  - intros vm s o s' Hvm H Htags. bstep H; bstep H0.
    rewrite Hvm in H1. exec.
    + exfalso. cbv [reply shape_of] in r. destruct r as [e | []]; [| done].
      eapply Htags. apply elem_of_app. right.
      apply list_elem_of_singleton. reflexivity.
    + eauto.
    + eauto.
Qed.

Lemma InstanceRead_without_nic s vm w1 o1 s1 k :
  remote GetVirtualMachineByID
    (byid (d_id (st_d s)) (get_string (st_d s) "project")) (st_w s)
    = (Found vm, w1) ->
  vm_Nic vm = [] ->
  resourceCloudStackInstanceRead s = (o1, s1) ->
  k ∈ network_fields ->
  d_new (st_d s1) !! k = d_new (st_d s) !! k.
Proof.
  intros Hr Hvm H Hk. unfold resourceCloudStackInstanceRead in H.
  bstep H. bstep H1. bstep H0.
  rewrite Hr in Hr0. injection Hr0 as <- <-. rewrite Hvm in H1.
  match type of H1 with
  | ?m ?s0 = _ =>
      assert (Hkeep : preserves (keeps k) m);
      [| apply Hkeep in H1; exact H1]
  end.
  unfold network_fields in Hk.
  repeat (apply elem_of_cons in Hk as [-> | Hk]); [.. | by inversion Hk].
  all: pres.
Qed.

End CreateNic.


(** ** Running a controller on known resource data *)

Section YieldsRules.
Context {cs : CloudStackClient}.

Lemma yields_mono d {A} (Φ Ψ : Outcome A -> list Event -> ResourceData -> Prop)
    (m : M A) :
  (forall o l d', Φ o l d' -> Ψ o l d') -> yields d Φ m -> yields d Ψ m.
Proof.
  intros HΦ Hm s o s' Hd H. destruct (Hm s o s' Hd H) as (l & Hl & Hq).
  exists l. auto.
Qed.

Lemma yields_ret d {A} Φ (a : A) : Φ (Ok a) [] d -> yields d Φ (ret a).
Proof.
  intros HΦ s o s' Hd [-> ->]%ret_inv. exists []. rewrite app_nil_r, Hd. done.
Qed.

Lemma yields_fail d {A} (Φ : Outcome A -> _) msg :
  Φ (Err msg) [] d -> yields d Φ (fail msg).
Proof.
  intros HΦ s o s' Hd [-> ->]%fail_inv. exists []. rewrite app_nil_r, Hd. done.
Qed.

Lemma yields_panic d {A} (Φ : Outcome A -> _) msg :
  Φ (Panic msg) [] d -> yields d Φ (panic msg).
Proof.
  intros HΦ s o s' Hd [-> ->]%panic_inv. exists [].
  rewrite app_nil_r, Hd. done.
Qed.

(** A computation is the bind of itself and [ret]. *)
Lemma yields_bind_ret d {A} Φ (m : M A) :
  yields d Φ (bind m (fun x => ret x)) -> yields d Φ m.
Proof.
  intros Hm s o s' Hd H. apply (Hm s o s' Hd).
  unfold bind, ret. rewrite H. by destruct o.
Qed.

Lemma yields_assoc d {A B C} Φ (m : M A) (f : A -> M B) (k : B -> M C) :
  yields d Φ (bind m (fun x => bind (f x) k)) ->
  yields d Φ (bind (bind m f) k).
Proof.
  intros Hm s o s' Hd H. apply (Hm s o s' Hd).
  unfold bind in *. by destruct (m s) as [[a | e | e] s1].
Qed.

Lemma yields_ret_bind d {A B} Φ (a : A) (k : A -> M B) :
  yields d Φ (k a) -> yields d Φ (bind (ret a) k).
Proof. intros Hk s o s' Hd H. exact (Hk s o s' Hd H). Qed.

Lemma yields_fail_bind d {A B} (Φ : Outcome B -> _) msg (k : A -> M B) :
  Φ (Err msg) [] d -> yields d Φ (bind (fail msg) k).
Proof.
  intros HΦ s o s' Hd H. cbv in H. injection H as <- <-.
  exists []. rewrite app_nil_r, Hd. done.
Qed.

Lemma yields_panic_bind d {A B} (Φ : Outcome B -> _) msg (k : A -> M B) :
  Φ (Panic msg) [] d -> yields d Φ (bind (panic msg) k).
Proof.
  intros HΦ s o s' Hd H. cbv in H. injection H as <- <-.
  exists []. rewrite app_nil_r, Hd. done.
Qed.

Lemma yields_lift_bind d {A B} (Φ : Outcome B -> _) (x : Outcome A)
    (k : A -> M B) :
  match x with
  | Ok a => yields d Φ (k a)
  | Err e => Φ (Err e) [] d
  | Panic e => Φ (Panic e) [] d
  end ->
  yields d Φ (bind (lift x) k).
Proof.
  intros Hx s o s' Hd H. unfold bind, lift in H. destruct x as [a | e | e].
  - exact (Hx s o s' Hd H).
  - injection H as <- <-. exists []. rewrite app_nil_r, Hd. done.
  - injection H as <- <-. exists []. rewrite app_nil_r, Hd. done.
Qed.

(** What a read returns is known from the resource data. *)
Lemma yields_read_bind d {A B} Φ (f : ResourceData -> A) (k : A -> M B) :
  yields d Φ (k (f d)) -> yields d Φ (bind (read f) k).
Proof.
  intros Hk s o s' Hd H. unfold bind, read in H. rewrite Hd in H.
  exact (Hk s o s' Hd H).
Qed.

(** A write changes the resource data the rest runs on. *)
Lemma yields_write_bind d {B} Φ (f : ResourceData -> ResourceData)
    (k : unit -> M B) :
  yields (f d) Φ (k tt) -> yields d Φ (bind (write f) k).
Proof.
  intros Hk s o s' Hd H. unfold bind, write in H.
  assert (Hd' : st_d (mkSt (f (st_d s)) (st_w s) (st_log s)) = f d)
    by (cbn; by rewrite Hd).
  destruct (Hk _ o s' Hd' H) as (l & Hl & HΦ).
  exists l. done.
Qed.

(** The reply of a call is one the client can give; the call is the first
    of the calls of the run. *)
Lemma yields_call_bind d a p {B} (Φ : Outcome B -> _)
    (k : reply (shape_of a) -> M B) :
  (forall r w1 w2,
     remote a p w1 = (r, w2) ->
     yields d (fun o l => Φ o (mkEvent a p (reply_err r) :: l)) (k r)) ->
  yields d Φ (bind (call a p) k).
Proof.
  intros Hk s o s' Hd H. unfold bind, call in H.
  destruct (remote a p (st_w s)) as [r w2] eqn:Hr.
  destruct (Hk r _ _ Hr (mkSt (st_d s) w2
              (st_log s ++ [mkEvent a p (reply_err r)])) o s' Hd H)
    as (l & Hl & HΦ).
  cbn [st_log] in Hl. exists (mkEvent a p (reply_err r) :: l).
  split; [| exact HΦ]. by rewrite Hl, <- app_assoc.
Qed.

(** A part that leaves the resource data alone and issues only calls that
    satisfy [P], taken as a whole. *)
Lemma yields_cut d {A B} (P : Event -> Prop) (Φ : Outcome B -> _)
    (m : M A) (k : A -> M B) :
  preserves (both same_d (log_ext P)) m ->
  (forall e l1, Forall P l1 -> Φ (Err e) l1 d) ->
  (forall e l1, Forall P l1 -> Φ (Panic e) l1 d) ->
  (forall a l1, Forall P l1 -> yields d (fun o l => Φ o (l1 ++ l)) (k a)) ->
  yields d Φ (bind m k).
Proof.
  intros Hm He Hp Hk s o s' Hd H.
  apply bind_inv in H as [(a & s1 & H1 & H2) | [(e & H1 & ->) | (e & H1 & ->)]].
  - destruct (Hm _ _ _ H1) as [Hsame (l1 & Hl1 & HP)].
    unfold same_d in Hsame.
    assert (Hd1 : st_d s1 = d) by congruence.
    destruct (Hk a l1 HP s1 o s' Hd1 H2) as (l & Hl & HΦ).
    exists (l1 ++ l). split; [| exact HΦ]. by rewrite Hl, Hl1, app_assoc.
  - destruct (Hm _ _ _ H1) as [Hsame (l1 & Hl1 & HP)].
    exists l1. split; [done |]. unfold same_d in Hsame.
    rewrite Hsame, Hd. by apply He.
  - destruct (Hm _ _ _ H1) as [Hsame (l1 & Hl1 & HP)].
    exists l1. split; [done |]. unfold same_d in Hsame.
    rewrite Hsame, Hd. by apply Hp.
Qed.

(** The last part of a run, of which only the calls matter. *)
Lemma yields_tail d {A} (P : Event -> Prop) (Φ : Outcome A -> _) (m : M A) :
  preserves (log_ext P) m ->
  (forall o l d', Forall P l -> Φ o l d') ->
  yields d Φ m.
Proof.
  intros Hm HΦ s o s' Hd H. destruct (Hm _ _ _ H) as (l & Hl & HP).
  exists l. split; [done |]. by apply HΦ.
Qed.

(** Rewrapping an error, where the message does not matter. *)
Lemma yields_rewrap_bind d {A B} (Φ : Outcome B -> _) (m : M A) wrap
    (k : A -> M B) :
  (forall e e' l d', Φ (Err e) l d' -> Φ (Err e') l d') ->
  yields d Φ (bind m k) -> yields d Φ (bind (rewrap m wrap) k).
Proof.
  intros HΦ Hm s o s' Hd H. unfold bind, rewrap in H.
  destruct (m s) as [[a | e | e] s1] eqn:E.
  - apply (Hm s o s' Hd). unfold bind. by rewrite E.
  - injection H as <- <-.
    destruct (Hm s (Err e) s1 Hd) as (l & Hl & Hq);
      [unfold bind; by rewrite E |].
    exists l. split; [done |]. by apply (HΦ e).
  - injection H as <- <-. apply (Hm s (Panic e) s1 Hd).
    unfold bind. by rewrite E.
Qed.

Lemma run_yields d w {A} Φ (m : M A) :
  yields d Φ m ->
  let r := run m d w in Φ r.1 (st_log r.2) (st_d r.2).
Proof.
  intros Hm. cbv zeta. unfold run.
  destruct (m (mkSt d w [])) as [o s'] eqn:E.
  destruct (Hm (mkSt d w []) o s' eq_refl E) as (l & Hl & HΦ).
  cbn [fst snd]. by rewrite Hl.
Qed.

End YieldsRules.

#[global] Instance id_kept_or_cleared_refl {cs : CloudStackClient} :
  Reflexive id_kept_or_cleared.
Proof. intros s. by left. Qed.

#[global] Instance id_kept_or_cleared_trans {cs : CloudStackClient} :
  Transitive id_kept_or_cleared.
Proof.
  unfold id_kept_or_cleared. intros s1 s2 s3 [H1 | H1] [H2 | H2];
    rewrite ?H2, ?H1; auto.
Qed.

Lemma run_log_ext {cs : CloudStackClient} {A} (m : M A) P d w :
  preserves (log_ext P) m -> Forall P (st_log (run m d w).2).
Proof.
  intros Hm. unfold run. destruct (m (mkSt d w [])) as [o s'] eqn:E.
  destruct (Hm _ _ _ E) as (l & Hl & Hall). cbn [snd]. by rewrite Hl.
Qed.

Ltac unfold_ops :=
  unfold resourceCloudStackInstanceRead, resourceCloudStackDiskRead,
    resourceCloudStackNetworkRead, resourceCloudStackVPCRead,
    resourceCloudStackPrivateGatewayRead, resourceCloudStackNetworkACLRead,
    resourceCloudStackVPNCustomerGatewayRead,
    resourceCloudStackAffinityGroupRead, resourceCloudStackSecurityGroupRead,
    resourceCloudStackInstanceDelete, resourceCloudStackDiskDelete,
    resourceCloudStackNetworkDelete, resourceCloudStackVPCDelete,
    resourceCloudStackPrivateGatewayDelete, resourceCloudStackNetworkACLDelete,
    resourceCloudStackVPNCustomerGatewayDelete,
    resourceCloudStackAffinityGroupDelete,
    resourceCloudStackSecurityGroupDelete,
    resourceCloudStackDiskAttach, resourceCloudStackDiskDetach.

Ltac unfold_creates :=
  unfold resourceCloudStackInstanceCreate, resourceCloudStackDiskCreate,
    resourceCloudStackNetworkCreate, resourceCloudStackVPCCreate,
    resourceCloudStackPrivateGatewayCreate,
    resourceCloudStackNetworkACLCreate,
    resourceCloudStackVPNCustomerGatewayCreate,
    resourceCloudStackAffinityGroupCreate,
    resourceCloudStackSecurityGroupCreate.

(** One step of a run on known resource data. *)
Ltac ystep :=
  lazymatch goal with
  | |- yields _ _ (ret _) => apply yields_ret
  | |- yields _ _ (fail _) => apply yields_fail
  | |- yields _ _ (panic _) => apply yields_panic
  | |- yields _ _ (bind (ret ?a) ?k) =>
      apply (yields_ret_bind _ _ a k); cbv beta
  | |- yields _ _ (bind (fail _) _) => apply yields_fail_bind
  | |- yields _ _ (bind (panic _) _) => apply yields_panic_bind
  | |- yields ?d ?Φ (bind (read ?f) ?k) =>
      apply (yields_read_bind d Φ f k); cbv beta
  | |- yields ?d ?Φ (bind (write ?f) ?k) =>
      apply (yields_write_bind d Φ f k); cbv beta
  | |- yields ?d ?Φ (bind (call ?a ?p) ?k) =>
      let r := fresh "r" in
      let Hr := fresh "Hr" in
      apply (yields_call_bind d a p Φ k); intros r ? ? Hr;
      cbv [reply shape_of] in r; cbv beta
  | |- yields ?d ?Φ (bind (lift ?x) ?k) =>
      apply (yields_lift_bind d Φ x k); destruct x eqn:?
  | |- yields _ _ (bind (bind _ _) _) => apply yields_assoc
  | |- yields _ _ (bind (rewrap _ _) _) => apply yields_rewrap_bind; [|]
  | |- yields _ _ (bind (match ?x with _ => _ end) _) => destruct x eqn:?
  | |- yields _ _ (bind (if ?b then _ else _) _) => destruct b eqn:?
  | |- yields _ _ (bind (Retry_from _ _ _) _) => cbn [Retry_from]
  | |- yields _ _ (bind ?m _) =>
      let h := head_of m in unfold h at 1; cbv beta iota
  | |- yields _ _ (match ?x with _ => _ end) => destruct x eqn:?
  | |- yields _ _ (if ?b then _ else _) => destruct b eqn:?
  | |- yields _ _ _ => apply yields_bind_ret
  end.

(** A block [if c { ... }] whose calls all satisfy [P] and that leaves the
    resource data alone, taken as a whole. *)
Ltac ycut P :=
  lazymatch goal with
  | |- yields ?d ?Φ (bind (when ?c ?body) ?k) =>
      apply (yields_cut d P Φ (when c body) k);
      [ solve [pres] | intros ? ? ? | intros ? ? ? | intros ? ? ? ];
      cbv beta
  end.

(** Deciding the equality of two given calls. *)
Ltac decide_api :=
  match goal with
  | |- context [@decide (@eq Api ?a ?b) ?i] =>
      let E := fresh in
      destruct (@decide (@eq Api a b) i) as [E | E];
      [ first [discriminate E | clear E]
      | first [by destruct E | clear E] ]
  end.

(** The calls of one API in a log. *)
Lemma calls_to_cons a e l :
  calls_to a (e :: l)
  = (if decide (ev_api e = a) then [ev_err e] else []) ++ calls_to a l.
Proof.
  unfold calls_to. cbn [omap list_omap]. by destruct (decide (ev_api e = a)).
Qed.

Lemma calls_to_app a l1 l2 :
  calls_to a (l1 ++ l2) = calls_to a l1 ++ calls_to a l2.
Proof. unfold calls_to. apply omap_app. Qed.

Lemma calls_to_none a l :
  Forall (fun e => ev_api e <> a) l -> calls_to a l = [].
Proof.
  induction 1 as [| e l He _ IH]; [done |].
  rewrite calls_to_cons, IH. by destruct (decide (ev_api e = a)).
Qed.

Lemma calls_to_nil a : calls_to a [] = [].
Proof. reflexivity. Qed.

Ltac calls_to_simpl :=
  repeat first
    [ rewrite calls_to_nil
    | rewrite calls_to_app
    | rewrite calls_to_cons; cbn [ev_api ev_err]; decide_api
    | match goal with
      | H : Forall _ ?l |- context [calls_to ?a ?l] =>
          rewrite (calls_to_none a l H)
      end ];
  cbn [app].

(** The requests sent to one API in a log. *)
Lemma requests_cons a e l :
  requests a (e :: l)
  = (if decide (ev_api e = a) then [ev_params e] else []) ++ requests a l.
Proof.
  unfold requests. cbn [omap list_omap]. by destruct (decide (ev_api e = a)).
Qed.

Lemma requests_app a l1 l2 :
  requests a (l1 ++ l2) = requests a l1 ++ requests a l2.
Proof. unfold requests. apply omap_app. Qed.

Lemma requests_none a l :
  Forall (fun e => ev_api e <> a) l -> requests a l = [].
Proof.
  induction 1 as [| e l He _ IH]; [done |].
  rewrite requests_cons, IH. by destruct (decide (ev_api e = a)).
Qed.

Lemma requests_nil a : requests a [] = [].
Proof. reflexivity. Qed.

Ltac requests_simpl :=
  repeat first
    [ rewrite requests_nil
    | rewrite requests_app
    | rewrite requests_cons; cbn [ev_api ev_params]; decide_api
    | match goal with
      | H : Forall _ ?l |- context [requests ?a ?l] =>
          rewrite (requests_none a l H)
      end ];
  cbn [app].

(** The tail of a run whose calls do not matter for the requests of the
    API in the goal. *)
Ltac requests_tail :=
  lazymatch goal with
  | |- yields _ ?Φ ?m =>
      lazymatch Φ with
      | context [requests ?a] =>
          lazymatch m with
          | context [call a] => fail
          | _ =>
              apply (yields_tail _ (fun e => ev_api e <> a));
              [unfold_ops; solve [pres] |]
          end
      end
  end.

(** A block [if c { ... }] that issues no call of the API in the goal and
    leaves the resource data alone, taken as a whole. *)
Ltac requests_cut :=
  lazymatch goal with
  | |- yields _ ?Φ (bind (when ?c ?body) _) =>
      lazymatch Φ with
      | context [requests ?a] =>
          lazymatch body with
          | context [call a] => fail
          | _ => ycut (fun e => ev_api e <> a)
          end
      end
  end.

(** Looking a parameter up in a request built by setters. *)
Lemma lookup_SetP k v p k' :
  SetP k v p !! k' = if decide (k = k') then Some v else p !! k'.
Proof.
  unfold SetP. destruct (decide (k = k')) as [-> | Hne].
  - apply lookup_insert_eq.
  - by apply lookup_insert_ne.
Qed.

Lemma lookup_SetP_opt k o p k' :
  SetP_opt k o p !! k'
  = match o with
    | Some v => if decide (k = k') then Some v else p !! k'
    | None => p !! k'
    end.
Proof. destruct o; [apply lookup_SetP | done]. Qed.

Lemma lookup_params_nil k : params [] !! k = None.
Proof. apply lookup_empty. Qed.

Lemma lookup_params_cons k v l k' :
  params ((k, v) :: l) !! k'
  = if decide (k = k') then Some v else params l !! k'.
Proof. apply (lookup_SetP k v (params l) k'). Qed.

Lemma lookup_SetP_ne k v p k' : k <> k' -> SetP k v p !! k' = p !! k'.
Proof. intros H. by apply lookup_insert_ne. Qed.

Lemma lookup_SetP_eq k v p : SetP k v p !! k = Some v.
Proof. apply lookup_insert_eq. Qed.

Lemma lookup_SetP_opt_ne k o p k' :
  k <> k' -> SetP_opt k o p !! k' = p !! k'.
Proof. intros H. destruct o; [by apply lookup_SetP_ne | done]. Qed.

Lemma lookup_params_cons_ne k v l k' :
  k <> k' -> params ((k, v) :: l) !! k' = params l !! k'.
Proof. apply (lookup_SetP_ne k v (params l) k'). Qed.

Lemma lookup_params_cons_eq k v l : params ((k, v) :: l) !! k = Some v.
Proof. apply (lookup_SetP_eq k v (params l)). Qed.

Lemma lookup_SetP_opt_eq k o p :
  SetP_opt k o p !! k = match o with Some v => Some v | None => p !! k end.
Proof. destruct o; [apply lookup_SetP_eq | done]. Qed.

(** One lookup through one setter. *)
Ltac lookup_step :=
  match goal with
  | |- context [SetP ?k ?v ?p !! ?k'] =>
      first [ rewrite (lookup_SetP_ne k v p k') by discriminate
            | constr_eq k k'; rewrite (lookup_SetP_eq k v p) ]
  | |- context [SetP_opt ?k ?o ?p !! ?k'] =>
      first [ rewrite (lookup_SetP_opt_ne k o p k') by discriminate
            | constr_eq k k'; rewrite (lookup_SetP_opt_eq k o p) ]
  | |- context [params ((?k, ?v) :: ?l) !! ?k'] =>
      first [ rewrite (lookup_params_cons_ne k v l k') by discriminate
            | constr_eq k k'; rewrite (lookup_params_cons_eq k v l) ]
  | |- context [params [] !! ?k] => rewrite (lookup_params_nil k)
  | |- context [<[?k := ?v]> ?m !! ?k'] =>
      first [ rewrite (lookup_insert_ne m k k' v) by discriminate
            | constr_eq k k'; rewrite (lookup_insert_eq m k v) ]
  | |- context [@lookup _ _ (gmap string _) _ ?k ∅] =>
      rewrite (lookup_empty k)
  end.

(** A parameter that a request built by setters does not carry. *)
Ltac absent :=
  repeat first
    [ lookup_step
    | match goal with
      | |- (if ?b then _ else _) !! _ = None => destruct b
      | |- match ?o with Some _ => _ | None => _ end !! _ = None => destruct o
      end ];
  try reflexivity.

Ltac lookup_request :=
  repeat lookup_step;
  cbn [fmap option_fmap option_map default].

(** ** Read and Delete, for every kind *)

Section ReadsAndDeletes.
Context {cs : CloudStackClient}.

(** X1. For every resource kind, Read only looks things up: every call it
    issues is a lookup by ID, a list call or a call of the identifier
    resolver. *)
Theorem Read_only_queries k d w :
  Forall (fun e => is_query (ev_api e) = true)
         (st_log (run (Read_of k) d w).2).
Proof.
  apply run_log_ext. destruct k; cbn [Read_of]; unfold_ops; pres.
Qed.

(** X2. For every resource kind, the identity after a Read is the one
    before it, or the empty identity: Read never assigns another one. *)
Theorem Read_identity k d w :
  let s' := (run (Read_of k) d w).2 in
  d_id (st_d s') = d_id d \/ d_id (st_d s') = "".
Proof.
  cbv zeta.
  assert (H : preserves id_kept_or_cleared (Read_of k)).
  { destruct k; cbn [Read_of]; unfold_ops; pres.
    all: lazymatch goal with
         | |- preserves ?R (call ?a ?p) => apply (preserves_call R a p)
         | |- preserves ?R (write _) => apply (preserves_write R)
         end; intros; unfold id_kept_or_cleared; cbn; auto. }
  unfold run. destruct (Read_of k _) as [o s'] eqn:E.
  exact (H _ _ _ E).
Qed.

(** X3. For every resource kind, Delete leaves the resource data as it
    was; and, the disk apart (which detaches the volume first), the only
    remote calls a Delete issues are the delete call of its kind and the
    resolver call for the project. *)
Theorem Delete_keeps_data k d w :
  let s' := (run (Delete_of k) d w).2 in
  st_d s' = d /\
  (k <> KDisk ->
   Forall (fun e => ev_api e = delete_api k \/ ev_api e = ResolveID)
          (st_log s')).
Proof.
  cbv zeta. split.
  - assert (H : preserves same_d (Delete_of k))
      by (destruct k; cbn [Delete_of]; unfold_ops; pres).
    unfold run. destruct (Delete_of k _) as [o s'] eqn:E.
    exact (H _ _ _ E).
  - intros Hk. apply run_log_ext.
    destruct k; try done; cbn [Delete_of delete_api]; unfold_ops; pres.
Qed.

End ReadsAndDeletes.

(** ** Instance update: when the machine restarts *)

Section UpdateRestart.
Context {cs : CloudStackClient}.

Lemma restart_field_changed d :
  existsb (has_change d) restart_fields
  = has_change d "name" || has_change d "service_offering"
    || has_change d "affinity_group_ids" || has_change d "affinity_group_names"
    || has_change d "keypair" || has_change d "keypairs"
    || has_change d "user_data".
Proof.
  cbn [existsb restart_fields].
  repeat match goal with |- context [has_change ?d ?k] =>
    destruct (has_change d k) end; reflexivity.
Qed.

Lemma power_trace_cons e l :
  power_trace (e :: l)
  = (if is_power_call e then [(ev_api e, ev_err e)] else []) ++ power_trace l.
Proof. unfold power_trace. cbn [omap list_omap]. by destruct (is_power_call e). Qed.

Ltac power_trace_simpl :=
  repeat first
    [ rewrite power_trace_app
    | rewrite power_trace_cons; cbn [is_power_call ev_api ev_err app]
    | match goal with
      | H : Forall _ ?l |- context [power_trace ?l] =>
          rewrite (power_trace_silent l H)
      end ];
  cbn [app].

Ltac read_tail P :=
  lazymatch goal with
  | |- yields _ _ resourceCloudStackInstanceRead =>
      apply (yields_tail _ P);
      [unfold resourceCloudStackInstanceRead; pres |]
  end.

(** X4. An instance Update in which none of the fields that need a
    stopped machine has changed issues no stop, start, change-offering,
    affinity-group or SSH-key call. *)
Theorem InstanceUpdate_no_restart d w :
  existsb (has_change d) restart_fields = false ->
  Forall (fun e => restart_only (ev_api e) = false)
         (st_log (run resourceCloudStackInstanceUpdate d w).2).
Proof.
  intros Hch. rewrite restart_field_changed in Hch.
  apply (run_yields d w (fun _ l _ =>
           Forall (fun e => restart_only (ev_api e) = false) l)).
  unfold resourceCloudStackInstanceUpdate.
  repeat first
    [ read_tail (fun e => restart_only (ev_api e) = false)
    | progress (rewrite ?Hch)
    | ystep ].
  all: intros; repeat (apply Forall_cons; split; [reflexivity |]); auto.
Qed.

(** X5. An instance Update in which a field that needs a stopped machine
    has changed and that returns no error has stopped the machine, then
    changed the offering exactly when service_offering changed, then
    started the machine; and issued no other stop, start or
    change-offering call. *)
Theorem InstanceUpdate_restart d w :
  existsb (has_change d) restart_fields = true ->
  let r := run resourceCloudStackInstanceUpdate d w in
  r.1 = Ok tt ->
  power_trace (st_log r.2)
  = (StopVirtualMachine, None)
    :: (if has_change d "service_offering"
        then [(ChangeServiceForVirtualMachine, None)] else [])
    ++ [(StartVirtualMachine, None)].
Proof.
  intros Hch. rewrite restart_field_changed in Hch.
  apply (run_yields d w (fun o l _ =>
           o = Ok tt ->
           power_trace l
           = (StopVirtualMachine, None)
             :: (if has_change d "service_offering"
                 then [(ChangeServiceForVirtualMachine, None)] else [])
             ++ [(StartVirtualMachine, None)])).
  unfold resourceCloudStackInstanceUpdate.
  repeat first
    [ read_tail (fun e => is_power_call e = false)
    | ycut (fun e => is_power_call e = false)
    | progress (rewrite ?Hch)
    | ystep ].
  all: intros; try discriminate.
  all: power_trace_simpl; reflexivity.
Qed.

Lemma existsb_false_elem {A} (f : A -> bool) l x :
  existsb f l = false -> x ∈ l -> f x = false.
Proof.
  induction l as [| y l IH]; cbn [existsb]; intros H Hx.
  - by apply elem_of_nil in Hx.
  - apply orb_false_iff in H as [Hy Hl].
    apply elem_of_cons in Hx as [-> | Hx]; auto.
Qed.

(** X6. An instance Update in which none of display_name, group, the
    fields that need a stopped machine and tags has changed issues only
    lookups: a change of details alone is not sent to the remote API. *)
Theorem InstanceUpdate_details_not_sent d w :
  existsb (has_change d) update_fields = false ->
  Forall (fun e => is_query (ev_api e) = true)
         (st_log (run resourceCloudStackInstanceUpdate d w).2).
Proof.
  intros Hch.
  assert (Hf : forall k, k ∈ update_fields -> has_change d k = false)
    by (intros k; by apply existsb_false_elem).
  assert (Hin : forall k, bool_decide (k ∈ update_fields) = true ->
                          has_change d k = false)
    by (intros k Hk; apply Hf; by apply bool_decide_eq_true in Hk).
  apply (run_yields d w (fun _ l _ =>
           Forall (fun e => is_query (ev_api e) = true) l)).
  unfold resourceCloudStackInstanceUpdate.
  repeat first
    [ read_tail (fun e => is_query (ev_api e) = true)
    | match goal with
      | |- context [has_change d ?k] =>
          rewrite (Hin k) by (vm_compute; reflexivity); cbn [orb]
      end
    | ystep ].
  all: intros; repeat (apply Forall_cons; split; [reflexivity |]); auto.
Qed.

End UpdateRestart.

(** ** Create: one create call *)

(** The Read at the end of an operation, of which only the calls matter. *)
Ltac is_read m :=
  lazymatch m with
  | resourceCloudStackInstanceRead => idtac
  | resourceCloudStackDiskRead => idtac
  | resourceCloudStackNetworkRead => idtac
  | resourceCloudStackVPCRead => idtac
  | resourceCloudStackPrivateGatewayRead => idtac
  | resourceCloudStackNetworkACLRead => idtac
  | resourceCloudStackVPNCustomerGatewayRead => idtac
  | resourceCloudStackAffinityGroupRead => idtac
  | resourceCloudStackSecurityGroupRead => idtac
  end.

Ltac create_tail :=
  lazymatch goal with
  | |- yields _ ?Φ ?m =>
      is_read m;
      lazymatch Φ with
      | context [calls_to ?a] =>
          apply (yields_tail _ (fun e => ev_api e <> a)); [unfold_ops; pres |]
      end
  end.

Section CreateOnce.
Context {cs : CloudStackClient}.

(** X7. For every resource kind, a Create that returns no error has
    issued the create call of its kind exactly once, and that call
    succeeded. *)
Theorem Create_success_once k d w :
  let r := run (Create_of k) d w in
  r.1 = Ok tt -> calls_to (create_api k) (st_log r.2) = [None].
Proof.
  apply (run_yields d w (fun o l _ =>
           o = Ok tt -> calls_to (create_api k) l = [None])).
  destruct k; cbn [Create_of create_api]; unfold_creates.
  all: repeat first [create_tail | ystep].
  all: intros; try discriminate.
  all: calls_to_simpl; reflexivity.
Qed.

End CreateOnce.

(** ** The result of [parseCIDR] *)

(** ** [parseCIDR]: the keys of the result and the netmask *)

(** What [parseCIDR] computes on a CIDR that parses, field by field. *)
Lemma parseCIDR_parsed d b a0 b0 c0 e0 n :
  net.ParseCIDR (get_string d "cidr")
    = Some (net.v4InV6Prefix ++ [a0; b0; c0; e0], net.CIDRMask n) ->
  0 <= n <= 32 ->
  exists m0 m1 m2 m3 gw st en,
    addr_of m0 m1 m2 m3 = 2 ^ 32 - 2 ^ (32 - n) /\
    is_octet m0 /\ is_octet m1 /\ is_octet m2 /\ is_octet m3 /\
    parseCIDR d b =
      Ok (let m := <["netmask" := dotted m0 m1 m2 m3]> ∅ in
          let m := <["gateway" := default gw (getok_string d "gateway")]> m in
          let m := match getok_string d "startip" with
                   | Some s => <["startip" := s]> m
                   | None => if b then <["startip" := st]> m else m
                   end in
          match getok_string d "endip" with
          | Some s => <["endip" := s]> m
          | None => if b then <["endip" := en]> m else m
          end).
Proof.
  intros Hparse Hn.
  destruct (ParseCIDR_shape _ _ _ Hparse)
    as (a' & b' & c' & e' & n' & Hip & _ & Ha & Hb & Hc & He & _).
  apply app_inv_head in Hip. injection Hip as <- <- <- <-.
  destruct (subnet_octets_of a0 b0 c0 e0 n Ha Hb Hc He Hn) as [Hso].
  destruct Hso as (m0 & m1 & m2 & m3 & s0 & s1 & s2 & s3 & Hmsk & Hsub
                   & H0 & H1 & H2 & H3 & Hbase & Hhost & H30 & H31).
  exists m0, m1, m2, m3.
  rewrite Hmsk in Hsub, Hparse.
  unfold parseCIDR. rewrite Hparse, Hsub. simpl index. cbn [obind].
  do 3 eexists. split; [unfold addr_of in *; lia |].
  repeat (split; [unfold is_octet; lia |]).
  destruct (getok_string d "gateway") as [g |];
    destruct (getok_string d "startip") as [s |];
    destruct (getok_string d "endip") as [x |];
    destruct b; cbn [obind default]; reflexivity.
Qed.

Lemma split_slash_None s :
  "/"%char ∉ String.list_ascii_of_string s -> net.split_slash s = None.
Proof.
  induction s as [| c s IH]; [done |].
  cbn [String.list_ascii_of_string net.split_slash]. intros Hc.
  apply not_elem_of_cons in Hc as [Hne Hs].
  destruct (Ascii.eqb c "/") eqn:E.
  - apply Ascii.eqb_eq in E. by subst.
  - by rewrite (IH Hs).
Qed.

(** X8. [parseCIDR] fails on a text without a slash. On a dotted-quad
    CIDR that parses it never fails, and the keys of its result are:
    netmask and gateway always, startip (endip) exactly when IP ranges are
    to be specified or a startip (an endip) is configured. *)
Theorem parseCIDR_keys d b :
  ("/"%char ∉ String.list_ascii_of_string (get_string d "cidr") ->
   exists msg, parseCIDR d b = Err msg) /\
  (forall ip msk,
     net.ParseCIDR (get_string d "cidr") = Some (ip, msk) ->
     exists m, parseCIDR d b = Ok m /\
       is_Some (m !! "netmask") /\ is_Some (m !! "gateway") /\
       (is_Some (m !! "startip")
        <-> b = true \/ is_Some (getok_string d "startip")) /\
       (is_Some (m !! "endip")
        <-> b = true \/ is_Some (getok_string d "endip"))).
Proof.
  split.
  - intros Hs. unfold parseCIDR, net.ParseCIDR. cbv zeta.
    rewrite (split_slash_None _ Hs). eauto.
  - intros ip msk Hparse.
    destruct (ParseCIDR_shape _ _ _ Hparse)
      as (a0 & b0 & c0 & e0 & n & -> & -> & _ & _ & _ & _ & Hn).
    destruct (parseCIDR_parsed d b a0 b0 c0 e0 n Hparse Hn)
      as (m0 & m1 & m2 & m3 & gw & st & en & _ & _ & _ & _ & _ & ->).
    eexists. split; [reflexivity |]. cbv zeta.
    destruct (getok_string d "startip") as [s |];
      destruct (getok_string d "endip") as [x |];
      destruct b.
    all: rewrite ?lookup_insert_eq, ?lookup_insert_ne by done;
         rewrite ?lookup_insert_eq, ?lookup_insert_ne by done;
         rewrite ?lookup_insert_eq, ?lookup_insert_ne by done;
         rewrite ?lookup_insert_eq, ?lookup_empty.
    all: repeat split; eauto.
    all: try (intros [? | [? ?]]; discriminate).
    all: try (intros [? ?]; discriminate).
Qed.


(** X9. The netmask [parseCIDR] returns for a CIDR of prefix length [n]
    is the dotted form of the mask with the first [n] bits set. *)
Theorem parseCIDR_netmask d b a0 b0 c0 e0 n m :
  net.ParseCIDR (get_string d "cidr")
    = Some (net.v4InV6Prefix ++ [a0; b0; c0; e0], net.CIDRMask n) ->
  0 <= n <= 32 ->
  parseCIDR d b = Ok m ->
  m !! "netmask" = Some (dotted_addr (2 ^ 32 - 2 ^ (32 - n))).
Proof.
  intros Hparse Hn Hm.
  destruct (parseCIDR_parsed d b a0 b0 c0 e0 n Hparse Hn)
    as (m0 & m1 & m2 & m3 & gw & st & en & Hmask & H0 & H1 & H2 & H3 & Heq).
  rewrite Heq in Hm. injection Hm as <-. cbv zeta.
  rewrite <- Hmask, dotted_addr_of by done.
  destruct (getok_string d "startip") as [s |];
    destruct (getok_string d "endip") as [x |];
    destruct b.
  all: rewrite ?lookup_insert_eq, ?lookup_insert_ne by done;
       rewrite ?lookup_insert_eq, ?lookup_insert_ne by done;
       rewrite ?lookup_insert_eq, ?lookup_insert_ne by done;
       rewrite ?lookup_insert_eq; reflexivity.
Qed.

(** ** The requests of a network Create *)

Section NetworkRequest.
Context {cs : CloudStackClient}.

(** [parseCIDR] succeeds only on a CIDR that parses. *)
Lemma parseCIDR_Ok_parsed d b m :
  parseCIDR d b = Ok m ->
  exists a0 b0 c0 e0 n,
    net.ParseCIDR (get_string d "cidr")
      = Some (net.v4InV6Prefix ++ [a0; b0; c0; e0], net.CIDRMask n) /\
    0 <= n <= 32.
Proof.
  intros Hm.
  destruct (net.ParseCIDR (get_string d "cidr")) as [[ip msk] |] eqn:Hparse.
  - destruct (ParseCIDR_shape _ _ _ Hparse)
      as (a0 & b0 & c0 & e0 & n & -> & -> & _ & _ & _ & _ & Hn).
    by exists a0, b0, c0, e0, n.
  - unfold parseCIDR in Hm. by rewrite Hparse in Hm.
Qed.

Lemma ip_config_sent_ext d p p' :
  (forall k, k ∈ ["gateway"; "netmask"; "startip"; "endip"] ->
             p' !! k = p !! k) ->
  ip_config_sent d p -> ip_config_sent d p'.
Proof.
  intros Hk. unfold ip_config_sent.
  rewrite !Hk by (apply (bool_decide_unpack _); vm_compute; reflexivity).
  done.
Qed.

(** The parameters set from the result of [parseCIDR]. *)
Lemma ip_config_sent_parseCIDR d b m p :
  parseCIDR d b = Ok m ->
  (forall k, k ∈ ["gateway"; "netmask"; "startip"; "endip"] ->
             p !! k = None) ->
  ip_config_sent d
    (SetP_opt "endip" (VString <$> m !! "endip")
       (SetP_opt "startip" (VString <$> m !! "startip")
          (SetP "netmask" (VString (default "" (m !! "netmask")))
             (SetP "gateway" (VString (default "" (m !! "gateway"))) p)))).
Proof.
  intros Hm Hp.
  destruct (parseCIDR_Ok_parsed d b m Hm)
    as (a0 & b0 & c0 & e0 & n & Hparse & Hn).
  destruct (parseCIDR_parsed d b a0 b0 c0 e0 n Hparse Hn)
    as (m0 & m1 & m2 & m3 & gw & st & en & _ & _ & _ & _ & _ & Heq).
  rewrite Heq in Hm. injection Hm as <-. clear Heq. cbv zeta.
  unfold ip_config_sent.
  destruct (getok_string d "startip") as [sip |];
    destruct (getok_string d "endip") as [eip |]; destruct b.
  all: lookup_request.
  all: rewrite ?Hp by (apply (bool_decide_unpack _); vm_compute; reflexivity).
  all: repeat split; intros; simplify_eq; try done.
  all: by destruct 1.
Qed.

(** The requests of a network Create are those of [network_request]. *)
Lemma NetworkCreate_requests d w :
  Forall (is_network_request d)
         (requests CreateNetwork
            (st_log (run resourceCloudStackNetworkCreate d w).2)).
Proof.
  apply (run_yields d w (fun _ l _ =>
           Forall (is_network_request d) (requests CreateNetwork l))).
  unfold resourceCloudStackNetworkCreate.
  repeat first [requests_tail | ystep].
  all: intros; requests_simpl; try apply Forall_nil_2.
  all: apply Forall_cons; split; [| apply Forall_nil_2].
  all: do 4 eexists; split; [eassumption |].
  - right. eexists. reflexivity.
  - left. reflexivity.
Qed.

Lemma network_request_ip_config d oid zid b m :
  parseCIDR d b = Ok m -> ip_config_sent d (network_request d oid zid m).
Proof.
  intros Hm. unfold network_request. cbv zeta.
  match goal with
  | |- context [SetP_opt "endip" ?o ?q] =>
      apply (ip_config_sent_ext _ (SetP_opt "endip" o q))
  end.
  - intros k Hk.
    destruct (getok_string d "vpc_id"); [destruct (getok_string d "acl_id");
      [destruct (decide (_ = none)) |] |].
    all: repeat (apply elem_of_cons in Hk as [-> | Hk]);
      [repeat lookup_step; reflexivity .. | by apply elem_of_nil in Hk].
  - eapply ip_config_sent_parseCIDR; [eassumption |].
    intros k Hk. repeat (apply elem_of_cons in Hk as [-> | Hk]);
      [lookup_request; reflexivity .. | by apply elem_of_nil in Hk].
Qed.

Lemma network_request_acl d oid zid m : acl_sent d (network_request d oid zid m).
Proof.
  unfold network_request, acl_sent. cbv zeta.
  destruct (getok_string d "vpc_id") as [vpcid |];
    [destruct (getok_string d "acl_id") as [aclid |];
      [destruct (decide (aclid = none)) |] |].
  all: lookup_request.
  all: destruct (m !! "startip"), (m !! "endip"),
         (getok_string d "network_domain"), (getok_int d "vlan");
       cbn [fmap option_fmap option_map].
  all: split; [split; intros [? ?]; by eauto |].
  all: intros v Hv; simplify_eq; eauto 10.
Qed.

(** X10. Every CreateNetwork request of a network Create carries a
    gateway and a netmask; it carries the configured startip and endip as
    they are; and when neither is configured it carries both a startip and
    an endip, or neither. *)
Theorem NetworkCreate_ip_config d w :
  Forall (ip_config_sent d)
         (requests CreateNetwork
            (st_log (run resourceCloudStackNetworkCreate d w).2)).
Proof.
  eapply Forall_impl; [apply NetworkCreate_requests |].
  intros p (oid & zid & b & m & Hm & [-> | [pid ->]]).
  - by eapply network_request_ip_config.
  - eapply ip_config_sent_ext; [| by eapply network_request_ip_config].
    intros k Hk. repeat (apply elem_of_cons in Hk as [-> | Hk]);
      [by rewrite lookup_SetP_ne .. | by apply elem_of_nil in Hk].
Qed.

(** X11. Every CreateNetwork request of a network Create carries a VPC ID
    exactly when one is configured, and an ACL ID only for a network in a
    VPC: then it is the configured acl_id, and never the sentinel none. *)
Theorem NetworkCreate_acl d w :
  Forall (acl_sent d)
         (requests CreateNetwork
            (st_log (run resourceCloudStackNetworkCreate d w).2)).
Proof.
  eapply Forall_impl; [apply NetworkCreate_requests |].
  intros p (oid & zid & b & m & Hm & [-> | [pid ->]]).
  - apply network_request_acl.
  - destruct (network_request_acl d oid zid m) as [Hvpc Hacl].
    unfold acl_sent. rewrite !lookup_SetP_ne by done. by split.
Qed.

End NetworkRequest.

(** ** Network read: the ACL sentinel *)

Section ReadsWrite.
Context {cs : CloudStackClient}.

Lemma get_string_set_field_eq k s d : get_string (set_field k (VString s) d) k = s.
Proof. unfold get_string. cbn [d_new set_field]. by rewrite lookup_insert_eq. Qed.

Lemma get_string_set_field_ne k k' v d :
  k <> k' -> get_string (set_field k v d) k' = get_string d k'.
Proof.
  intros H. unfold get_string. cbn [d_new set_field].
  by rewrite lookup_insert_ne.
Qed.

(** X12. After a network Read whose lookup found the network, acl_id is
    never empty: a network without ACL is recorded with the sentinel
    none. *)
Theorem NetworkRead_acl_id d w :
  let r := run resourceCloudStackNetworkRead d w in
  (exists p, head (st_log r.2) = Some (mkEvent GetNetworkByID p None)) ->
  get_string (st_d r.2) "acl_id" <> "".
Proof.
  apply (run_yields d w (fun _ l d' =>
           (exists p, head l = Some (mkEvent GetNetworkByID p None)) ->
           get_string d' "acl_id" <> "")).
  unfold resourceCloudStackNetworkRead.
  repeat ystep.
  all: cbn [head reply_err]; intros [p Hp]; simplify_eq.
  all: repeat (rewrite get_string_set_field_ne by done).
  all: rewrite get_string_set_field_eq.
  all: unfold none; match goal with |- context [decide ?P] => destruct (decide P) as [E|E]; [discriminate | exact E] end.
Qed.

End ReadsWrite.

(** ** Disks: delete, read and tags *)

Section DiskProps.
Context {cs : CloudStackClient}.

(** X14. A disk Delete sends DeleteVolume only after a clean detach: the
    lookup of the volume succeeded, and either the volume was not
    attached or the first DetachVolume call succeeded; the virtual
    machine was not stopped. *)
Theorem DiskDelete_after_detach d w :
  let l := st_log (run resourceCloudStackDiskDelete d w).2 in
  calls_to DeleteVolume l <> [] ->
  calls_to GetVolumeByID l = [None] /\
  calls_to StopVirtualMachine l = [] /\
  (calls_to DetachVolume l = [] \/ calls_to DetachVolume l = [None]).
Proof.
  apply (run_yields d w (fun _ l _ =>
           calls_to DeleteVolume l <> [] ->
           calls_to GetVolumeByID l = [None] /\
           calls_to StopVirtualMachine l = [] /\
           (calls_to DetachVolume l = [] \/ calls_to DetachVolume l = [None]))).
  unfold resourceCloudStackDiskDelete.
  repeat ystep.
  all: cbn [reply_err]; calls_to_simpl; intros H; try done.
  all: auto.
Qed.

(** X15. A disk Read that finds the volume records whether it is
    attached; for an attached volume it records the device and the
    virtual machine, for a detached one it leaves both fields as they
    were. *)
Theorem DiskRead_attachment d w v w' :
  remote GetVolumeByID (byid (d_id d) (get_string d "project")) w
  = (Found v, w') ->
  let d' := st_d (run resourceCloudStackDiskRead d w).2 in
  get_bool d' "attach" = negb (bool_decide (vol_Virtualmachineid v = "")) /\
  (vol_Virtualmachineid v = "" ->
   d_new d' !! "device_id" = d_new d !! "device_id" /\
   d_new d' !! "virtual_machine_id" = d_new d !! "virtual_machine_id") /\
  (vol_Virtualmachineid v <> "" ->
   d_new d' !! "device_id" = Some (VInt (vol_Deviceid v)) /\
   d_new d' !! "virtual_machine_id"
   = Some (VString (vol_Virtualmachineid v))).
Proof.
  intros Hr. cbv zeta.
  cbv [run resourceCloudStackDiskRead bind Id Get_string read call Set_
       setValueOrID write when ret st_d st_w st_log].
  rewrite Hr.
  destruct (bool_decide (vol_Virtualmachineid v = "")) eqn:E;
    cbn [negb snd st_d]; unfold get_bool; cbn [d_new set_field].
  - apply bool_decide_eq_true in E.
    repeat lookup_step. split; [done |]. split; [done |]. done.
  - apply bool_decide_eq_false in E.
    repeat lookup_step. split; [done |]. split; [done |]. done.
Qed.

(** X16. The tags a Read records map every key to the value of the last
    tag of the response with that key. *)
Theorem tags_of_last tags :
  exists m, tags_of tags = VMap m /\
            forall k, m !! k = Value <$> last (filter (fun t => Key t = k) tags).
Proof.
  unfold tags_of. eexists. split; [reflexivity |]. intros k.
  induction tags as [| t tags IH] using rev_ind; [apply lookup_empty |].
  rewrite foldl_app, filter_app. cbn [foldl].
  destruct (decide (Key t = k)) as [<- | Hne].
  - rewrite lookup_insert_eq, filter_cons_True, filter_nil by done.
    by rewrite last_snoc.
  - rewrite lookup_insert_ne, filter_cons_False, filter_nil, app_nil_r by done.
    exact IH.
Qed.

End DiskProps.

(** ** Panics *)

Section NeverPanics.
Context {cs : CloudStackClient}.

(** X17. No Read and no Delete panics, for any resource kind, as long as
    a source NAT list of count one holds an address (the VPC Read
    indexes it unguarded). *)
Theorem Read_Delete_no_panic k d w msg :
  (k = KVPC -> source_nat_listed) ->
  (run (Read_of k) d w).1 <> Panic msg /\
  (run (Delete_of k) d w).1 <> Panic msg.
Proof.
  intros Hl.
  assert (HR : no_panic (Read_of k)).
  { destruct k; cbn [Read_of]; unfold_ops; repeat no_panic_step.
    eapply (Hl eq_refl); eassumption. }
  assert (HD : no_panic (Delete_of k)).
  { destruct k; cbn [Delete_of]; unfold_ops;
      repeat first [ no_panic_step
                   | progress (unfold isAttached, Retry; cbn [Retry_from]) ]. }
  unfold run. split.
  - destruct (Read_of k _) as [o s'] eqn:E. exact (HR _ _ _ E msg).
  - destruct (Delete_of k _) as [o s'] eqn:E. exact (HD _ _ _ E msg).
Qed.

End NeverPanics.

(** ** Create requests *)

Section CreateRequests.
Context {cs : CloudStackClient}.

(** X18. Every CreateVpnCustomerGateway request of a VPN customer gateway
    Create carries the name and the five required settings as configured;
    it carries dpd only when dead peer detection is enabled, and a
    lifetime only when it is not zero. *)
Theorem VPNCustomerGatewayCreate_request d w :
  Forall (vpn_gateway_sent d)
         (requests CreateVpnCustomerGateway
            (st_log (run resourceCloudStackVPNCustomerGatewayCreate d w).2)).
Proof.
  apply (run_yields d w (fun _ l _ =>
           Forall (vpn_gateway_sent d)
                  (requests CreateVpnCustomerGateway l))).
  unfold resourceCloudStackVPNCustomerGatewayCreate.
  repeat first [requests_tail | ystep].
  all: intros; requests_simpl; try apply Forall_nil_2.
  all: apply Forall_cons; split; [| apply Forall_nil_2].
  all: unfold vpn_gateway_sent; repeat split; lookup_request.
  all: try reflexivity.
  all: unfold getok_bool, getok_int; cbv zeta.
  all: repeat match goal with
         | |- context [get_bool ?d0 ?k] => destruct (get_bool d0 k)
         | |- context [decide (?x = 0)] => destruct (decide (x = 0))
         end; reflexivity.
Qed.

(** X22. For the kinds that describe the resource (network, VPC, network
    ACL list, affinity group, security group), every create request
    carries the configured description, and the name of the resource
    where none is configured. *)
Theorem Create_description_default k field param d w :
  description_of k = Some (field, param) ->
  Forall (fun p => p !! param
                   = Some (VString (if decide (get_string d field = "")
                                    then get_string d "name"
                                    else get_string d field)))
         (requests (create_api k) (st_log (run (Create_of k) d w).2)).
Proof.
  intros Hk. destruct k; cbn [description_of] in Hk; simplify_eq.
  { eapply Forall_impl; [apply NetworkCreate_requests |].
    intros p (oid & zid & b & m & Hm & [-> | [pid ->]]);
      rewrite ?lookup_SetP_ne by done.
    all: unfold network_request, getok_string; cbv zeta.
    all: repeat match goal with
           | |- context [decide (?x = "")] => destruct (decide (x = ""))
           | |- context [decide (?x = none)] => destruct (decide (x = none))
           end.
    all: lookup_request; reflexivity. }
  all: cbn [Create_of create_api].
  all: match goal with
       | |- Forall ?Q (requests ?a _) =>
           apply (run_yields _ _ (fun _ l _ => Forall Q (requests a l)))
       end.
  all: unfold_creates.
  all: repeat first [requests_tail | ystep].
  all: intros; requests_simpl; try apply Forall_nil_2.
  all: apply Forall_cons; split; [| apply Forall_nil_2].
  all: unfold getok_string; cbv zeta.
  all: repeat match goal with
         | |- context [decide (?x = "")] => destruct (decide (x = ""))
         end.
  all: lookup_request; reflexivity.
Qed.

End CreateRequests.

(** ** Retried calls *)

Section Retries.
Context {cs : CloudStackClient}.

Ltac retried_leaf :=
  unfold retried; cbn [length last];
  split; [lia |];
  split; [| first [reflexivity | intros ?; exfalso; lia]];
  let i := fresh "i" in
  intros i; do 10 (try (destruct i as [| i]; [cbn; try done |]));
  cbn; try done.

(** X19. A network ACL list Delete tries the delete call up to three
    times: it stops at the first success, and returns no error then. *)
Theorem NetworkACLDelete_retries d w :
  let r := run resourceCloudStackNetworkACLDelete d w in
  let c := calls_to DeleteNetworkACLList (st_log r.2) in
  retried 3 c /\ (last c = Some None -> r.1 = Ok tt).
Proof.
  apply (run_yields d w (fun o l _ =>
           retried 3 (calls_to DeleteNetworkACLList l) /\
           (last (calls_to DeleteNetworkACLList l) = Some None -> o = Ok tt))).
  unfold resourceCloudStackNetworkACLDelete.
  repeat ystep.
  all: cbv [reply_err shape_of]; calls_to_simpl.
  all: split; [retried_leaf | cbn [last]; intros; by simplify_eq].
Qed.

(** X20. A disk Attach sends no call at all when no virtual machine is
    configured, and no AttachVolume call when the volume is already
    attached; otherwise it tries AttachVolume up to ten times and stops
    at the first success. It returns no error only when it sent no
    AttachVolume call or the last one succeeded. *)
Theorem DiskAttach_retries d w :
  let r := run resourceCloudStackDiskAttach d w in
  let c := calls_to AttachVolume (st_log r.2) in
  (getok_string d "virtual_machine_id" = None -> st_log r.2 = []) /\
  (c = [] \/ retried 10 c) /\
  (r.1 = Ok tt -> c = [] \/ last c = Some None).
Proof.
  apply (run_yields d w (fun o l _ =>
           (getok_string d "virtual_machine_id" = None -> l = []) /\
           (calls_to AttachVolume l = [] \/
            retried 10 (calls_to AttachVolume l)) /\
           (o = Ok tt -> calls_to AttachVolume l = [] \/
                         last (calls_to AttachVolume l) = Some None))).
  unfold resourceCloudStackDiskAttach.
  repeat ystep.
  all: cbv [reply_err shape_of]; calls_to_simpl.
  all: split; [intros; by simplify_eq |].
  all: split; [first [by left | right; retried_leaf]
              | intros; simplify_eq; first [by left | by right]].
Qed.

End Retries.

(** ** User data on the wire *)

Section UserData.
Context {cs : CloudStackClient}.

Lemma getUserData_decodes userData :
  is_Some (base64.DecodeString (getUserData userData).1).
Proof.
  unfold getUserData. cbv zeta.
  destruct (base64.DecodeString userData) as [bytes |] eqn:E; cbn [fst].
  - by rewrite E.
  - by rewrite DecodeString_EncodeToString.
Qed.

Lemma userdata_encoded_set ud e p :
  getUserData ud = (e, None) ->
  userdata_encoded (SetP "userdata" (VString e) p).
Proof.
  intros H v Hv. rewrite lookup_SetP_eq in Hv. injection Hv as <-.
  exists e. split; [done |].
  pose proof (getUserData_decodes ud) as Hd. by rewrite H in Hd.
Qed.

Lemma userdata_encoded_absent p : p !! "userdata" = None -> userdata_encoded p.
Proof. intros H v Hv. by rewrite H in Hv. Qed.

(** X21. The user data an instance Create sends with the deploy request
    always decodes as base64. *)
Theorem InstanceCreate_userdata_encoded d w :
  Forall userdata_encoded
         (requests DeployVirtualMachine
            (st_log (run resourceCloudStackInstanceCreate d w).2)).
Proof.
  apply (run_yields d w (fun _ l _ =>
           Forall userdata_encoded (requests DeployVirtualMachine l))).
  unfold resourceCloudStackInstanceCreate.
  repeat first [requests_tail | ystep].
  all: intros; requests_simpl; try apply Forall_nil_2.
  all: apply Forall_cons; split; [| apply Forall_nil_2].
  all: try (eapply userdata_encoded_set; eassumption).
  all: apply userdata_encoded_absent; absent.
Qed.

(** X23. So does the user data an instance Update sends; its other
    update requests carry none. *)
Theorem InstanceUpdate_userdata_encoded d w :
  Forall userdata_encoded
         (requests UpdateVirtualMachine
            (st_log (run resourceCloudStackInstanceUpdate d w).2)).
Proof.
  apply (run_yields d w (fun _ l _ =>
           Forall userdata_encoded (requests UpdateVirtualMachine l))).
  unfold resourceCloudStackInstanceUpdate.
  repeat first [requests_tail | requests_cut | ystep].
  all: intros; requests_simpl; try apply Forall_nil_2.
  all: repeat (apply Forall_cons; split); try apply Forall_nil_2.
  all: try (eapply userdata_encoded_set; eassumption).
  all: apply userdata_encoded_absent; absent.
Qed.

End UserData.

(** ** The deploy request *)

Section DeployRequest.
Context {cs : CloudStackClient}.

Lemma deploy_sent_ext d p p' :
  (forall k, k ∈ ["name"; "displayname"; "boottype"; "bootmode";
                  "networkids"] -> p' !! k = p !! k) ->
  deploy_sent d p -> deploy_sent d p'.
Proof.
  intros Hk. unfold deploy_sent.
  rewrite !Hk by (apply (bool_decide_unpack _); vm_compute; reflexivity).
  done.
Qed.

Lemma deploy_request_sent d so t z nnl q w1 w2 :
  remote GetZoneByID q w1 = (Found z, w2) ->
  deploy_sent d (deploy_request d so t z nnl).
Proof.
  intros Hz. unfold deploy_sent, deploy_request. cbv zeta.
  destruct (decide (zone_Networktype z = "Advanced")) as [Ht | Ht];
    destruct (get_bool d "uefi");
    destruct (getok_string d "display_name");
    destruct (getok_string d "name").
  all: (split; [lookup_request; reflexivity |]).
  all: (split; [lookup_request; reflexivity |]).
  all: (split; [lookup_request; reflexivity |]).
  all: split; intros Hall; specialize (Hall _ _ _ _ Hz);
    cbv beta in Hall; first [done | lookup_request; reflexivity].
Qed.

(** X24. Every deploy request of an instance Create carries the
    configured name; the display name, or the name where no display name
    is configured; UEFI boot in legacy mode exactly when uefi is set;
    and the configured network (even an empty one) when the zones are of
    type Advanced, and no network when they are not. *)
Theorem InstanceCreate_request d w :
  Forall (deploy_sent d)
         (requests DeployVirtualMachine
            (st_log (run resourceCloudStackInstanceCreate d w).2)).
Proof.
  apply (run_yields d w (fun _ l _ =>
           Forall (deploy_sent d) (requests DeployVirtualMachine l))).
  unfold resourceCloudStackInstanceCreate.
  repeat first [requests_tail | ystep].
  all: intros; requests_simpl; try apply Forall_nil_2.
  all: apply Forall_cons; split; [| apply Forall_nil_2].
  all: match goal with
       | Hz : remote GetZoneByID _ _ = (Found ?z, _)
         |- context [SetP_opt "securitygroupnames" ?o ?q] =>
           lazymatch q with
           | context [params [("serviceofferingid", VString ?so);
                              ("templateid", VString ?t); _]] =>
               let nnl :=
                 lazymatch q with
                 | context [SetP "nicnetworklist" ?v _] => constr:(Some v)
                 | _ => constr:(@None value)
                 end in
               change (SetP_opt "securitygroupnames" o q)
                 with (deploy_request d so t z nnl);
               eapply deploy_sent_ext;
               [| exact (deploy_request_sent d so t z nnl _ _ _ Hz)]
           end
       end.
  all: intros k Hk; repeat (apply elem_of_cons in Hk as [-> | Hk]);
    [repeat lookup_step; reflexivity .. | by apply elem_of_nil in Hk].
Qed.

End DeployRequest.

(** ** Private gateway read: the VLAN *)

Section GatewayVlan.
Context {cs : CloudStackClient}.

Lemma Replace_from_digits old new s :
  (forall c rest, old = String c rest -> is_digit c = false) ->
  old <> "" ->
  all_digits s = true -> Replace_from old new s 0 = s.
Proof.
  intros Hold Hne. induction s as [| c s IH]; [done |].
  cbn [all_digits Replace_from]. intros [Hc Hs]%andb_true_iff.
  destruct old as [| o old']; [done |].
  assert (Hp : String.prefix (String o old') (String c s) = false).
  { cbn [String.prefix]. destruct (ascii_dec o c) as [-> | _]; [| done].
    rewrite (Hold c old' eq_refl) in Hc. discriminate. }
  rewrite Hp. by rewrite IH.
Qed.

Lemma append_cons c s t : String c s +:+ t = String c (s +:+ t).
Proof. reflexivity. Qed.

Lemma prefix_append s t : String.prefix s (s +:+ t) = true.
Proof.
  induction s as [| c s IH]; [by destruct t |].
  rewrite append_cons. cbn [String.prefix].
  by destruct (ascii_dec c c).
Qed.

Lemma Replace_from_skip old new pre s :
  Replace_from old new (pre +:+ s) (String.length pre)
  = Replace_from old new s 0.
Proof.
  induction pre as [| c pre IH]; [done |].
  rewrite append_cons. cbn [String.length Replace_from]. exact IH.
Qed.

(** An occurrence of [old] at the head is replaced. *)
Lemma Replace_from_prefix c old' new s :
  Replace_from (String c old') new (String c old' +:+ s) 0
  = new +:+ Replace_from (String c old') new s 0.
Proof.
  pose proof (prefix_append (String c old') s) as Hp.
  rewrite append_cons in Hp |- *.
  cbn [Replace_from]. rewrite Hp.
  cbn [String.length]. rewrite Nat.sub_1_r. cbn [Nat.pred].
  by rewrite Replace_from_skip.
Qed.

(** X25. A private gateway Read records the VLAN without its URI scheme:
    a remote VLAN vlan://N, with N decimal, is recorded as N. *)
Theorem PrivateGatewayRead_vlan d w gw w' n :
  remote GetPrivateGatewayByID (params [("id", VString (d_id d))]) w
  = (Found gw, w') ->
  pgw_Vlan gw = "vlan://" +:+ n ->
  all_digits n = true ->
  get_string (st_d (run resourceCloudStackPrivateGatewayRead d w).2) "vlan"
  = n.
Proof.
  intros Hr Hv Hn.
  cbv [run resourceCloudStackPrivateGatewayRead bind Id read call Set_
       write ret st_d st_w st_log].
  rewrite Hr. cbn [snd st_d].
  rewrite !get_string_set_field_ne by done.
  rewrite get_string_set_field_eq, Hv.
  unfold Replace. rewrite Replace_from_prefix.
  change ("" +:+ ?x) with x.
  apply Replace_from_digits; [| done | done].
  intros c rest [= <- _]. reflexivity.
Qed.

End GatewayVlan.

(** ** Instance update: the calls around a change of offering *)

Section Sequencing.
Context {cs : CloudStackClient}.

(** A part of a run, by what it yields. *)
Lemma yields_seq d {A B} (Ψ : Outcome A -> _) (Φ : Outcome B -> _)
    (m : M A) (k : A -> M B) :
  yields d Ψ m ->
  (forall e l1 d1, Ψ (Err e) l1 d1 -> Φ (Err e) l1 d1) ->
  (forall e l1 d1, Ψ (Panic e) l1 d1 -> Φ (Panic e) l1 d1) ->
  (forall a l1 d1, Ψ (Ok a) l1 d1 ->
     yields d1 (fun o l => Φ o (l1 ++ l)) (k a)) ->
  yields d Φ (bind m k).
Proof.
  intros Hm He Hp Hk s o s' Hd H.
  apply bind_inv in H as [(a & s1 & H1 & H2) | [(e & H1 & ->) | (e & H1 & ->)]].
  - destruct (Hm _ _ _ Hd H1) as (l1 & Hl1 & HΨ).
    destruct (Hk a l1 _ HΨ s1 o s' eq_refl H2) as (l & Hl & HΦ).
    exists (l1 ++ l). split; [| exact HΦ]. by rewrite Hl, Hl1, app_assoc.
  - destruct (Hm _ _ _ Hd H1) as (l1 & Hl1 & HΨ).
    exists l1. split; [done |]. by apply He.
  - destruct (Hm _ _ _ Hd H1) as (l1 & Hl1 & HΨ).
    exists l1. split; [done |]. by apply Hp.
Qed.

Lemma getUserData_no_error userData ud e :
  getUserData userData = (ud, Some e) -> False.
Proof. unfold getUserData. cbv zeta. by intros [= _]. Qed.

(** A failed call that is not a power call leaves the power calls where
    they stood. *)
Lemma stopped_at_quiet a p e l tr :
  Forall (fun e => is_power_call e = false) l ->
  last l = Some (mkEvent a p (Some e)) ->
  tr = [] \/ tr = [(StopVirtualMachine, None)] \/
  tr = [(StopVirtualMachine, None); (ChangeServiceForVirtualMachine, None)] ->
  stopped_at a e tr.
Proof.
  intros Hq Hlast Htr.
  assert (Ha : is_power_call (mkEvent a p (Some e)) = false).
  { rewrite Forall_forall in Hq. apply Hq.
    rewrite last_lookup in Hlast. by eapply list_elem_of_lookup_2. }
  unfold is_power_call in Ha. cbn [ev_api] in Ha.
  destruct a; try discriminate Ha; exact Htr.
Qed.

Lemma last_app_Some {A} (l1 l2 : list A) x :
  last l2 = Some x -> last (l1 ++ l2) = Some x.
Proof. intros H. by rewrite last_app, H. Qed.

Lemma last_cons_Some {A} (y : A) l x :
  last l = Some x -> last (y :: l) = Some x.
Proof. intros H. by rewrite last_cons, H. Qed.

End Sequencing.

Ltac is_quiet_term m :=
  lazymatch m with
  | context [StopVirtualMachine] => fail
  | context [ChangeServiceForVirtualMachine] => fail
  | context [StartVirtualMachine] => fail
  | _ => idtac
  end.

(** The last event of a log given by its events. *)
Ltac last_event :=
  first [ reflexivity
        | eassumption
        | apply last_app_Some; last_event
        | apply last_cons_Some; last_event ].

(** The power calls of a log given by its events. *)
Ltac power_calls :=
  repeat first
    [ rewrite power_trace_app
    | rewrite power_trace_cons; cbn [is_power_call ev_api ev_err app]
    | match goal with
      | H : Forall _ ?l |- context [power_trace ?l] =>
          rewrite (power_trace_silent l H)
      end ];
  cbn [app].

(** A block that issues no power call, taken as a whole. *)
Ltac quiet_block :=
  lazymatch goal with
  | |- yields ?d ?Φ (bind (when ?c ?body) ?k) =>
      is_quiet_term body;
      apply (yields_seq d (quiet_outcome d) Φ (when c body) k);
      [ repeat ystep;
        (unfold quiet_outcome; cbv [reply_err shape_of];
         split; [reflexivity |];
         split; [repeat (apply Forall_cons; split; [reflexivity |]);
                 apply Forall_nil_2 |];
         first [ exact I
               | do 3 eexists; last_event
               | exfalso; eapply getUserData_no_error; eassumption ])
      | intros ? ? ? (-> & ? & (? & ? & ? & ?)) | intros ? ? ? (_ & _ & [])
      | intros ? ? ? (-> & ? & _) ];
      cbv beta
  end.

(** Where a run of the Update ends. *)
Ltac update_end :=
  cbv [reply_err shape_of];
  first
    [ left; power_calls; reflexivity
    | right; split; [eexists; reflexivity |];
      first
        [ match goal with
          | Hl : last ?l = Some (mkEvent ?a ?p (Some ?e)),
            Hq : Forall _ ?l |- _ =>
              exists a, p, e; split; [last_event |];
              apply (stopped_at_quiet a p e l _ Hq Hl);
              power_calls; auto
          end
        | do 3 eexists; split; [last_event |];
          cbn [stopped_at]; power_calls; first [reflexivity | auto] ] ].

Section UpdateOrderThm.
Context {cs : CloudStackClient}.

(** C2. In every run of the instance Update with a changed
    service_offering, either the stop, the change of offering and the
    start were issued in this order, once each, and all succeeded; or the
    Update returns an error, the last remote call is one that failed, and
    the three calls stand where that call stopped them: a failed stop,
    change or start is the last of them, after the ones before it
    succeeded, and any other failed call falls before the stop, between
    the stop and the change, or between the change and the start. So
    when the start fails after the offering was changed, the Update
    returns an error and the failed start is its last remote call: the
    change is neither issued again nor rolled back. *)
Theorem Update_offering_order d w o s' :
  has_change d "service_offering" = true ->
  run resourceCloudStackInstanceUpdate d w = (o, s') ->
  let tr := power_trace (st_log s') in
  tr = [(StopVirtualMachine, None); (ChangeServiceForVirtualMachine, None);
        (StartVirtualMachine, None)] \/
  ((exists msg, o = Err msg) /\
   exists a p e,
     last (st_log s') = Some (mkEvent a p (Some e)) /\ stopped_at a e tr).
Proof.
  intros Hso H.
  pose proof (run_yields d w (fun o l _ =>
    power_trace l
    = [(StopVirtualMachine, None); (ChangeServiceForVirtualMachine, None);
       (StartVirtualMachine, None)] \/
    ((exists msg, o = Err msg) /\
     exists a p e,
       last l = Some (mkEvent a p (Some e)) /\
       stopped_at a e (power_trace l))) resourceCloudStackInstanceUpdate)
    as R.
  cbv zeta in R. rewrite H in R. apply R. clear R H.
  unfold resourceCloudStackInstanceUpdate.
  repeat first
    [ progress (rewrite ?Hso, ?orb_true_r; cbn [orb])
    | lazymatch goal with
      | |- yields _ _ (fail _) => ystep
      | |- yields _ _ (bind (fail _) _) => ystep
      | |- yields _ _ (bind (check _ _) _) => ystep
      | |- yields _ _ (bind (match _ with _ => _ end) _) => ystep
      | |- yields _ _ (bind (when _ _) _) => first [quiet_block | ystep]
      | |- yields _ _ ?m =>
          first [ is_quiet_term m;
                  apply (yields_tail _ (fun e => is_power_call e = false));
                  [unfold_ops; solve [pres] | intros ? ? ? ?]
                | ystep ]
      end ].
  all: update_end.
Qed.

End UpdateOrderThm.

(** An update to a larger offering on a client whose start call fails:
    stop, change, and the failed start as the last call. *)
Lemma Update_offering_order_witness :
  let d := resource_data "vm-1"
             [("name", VString "web"); ("service_offering", VString "small")]
             [("name", VString "web"); ("service_offering", VString "large")] in
  let r := run (cs := start_fails_client) resourceCloudStackInstanceUpdate
             d tt in
  power_trace (st_log r.2)
  = [(StopVirtualMachine, None); (ChangeServiceForVirtualMachine, None);
     (StartVirtualMachine, Some "insufficient capacity")] /\
  (exists msg, r.1 = Err msg) /\
  last (st_log r.2)
  = Some (mkEvent StartVirtualMachine (params [("id", VString "vm-1")])
            (Some "insufficient capacity")).
Proof.
  intros d r.
  destruct (Update_offering_order (cs := start_fails_client) d tt r.1 r.2
              ltac:(vm_compute; reflexivity) ltac:(vm_compute; reflexivity))
    as [Hfull | (Herr & a & p & e & Hlast & Hstop)].
  - vm_compute in Hfull. discriminate Hfull.
  - assert (Hl : last (st_log r.2)
                 = Some (mkEvent StartVirtualMachine
                           (params [("id", VString "vm-1")])
                           (Some "insufficient capacity")))
      by (vm_compute; reflexivity).
    rewrite Hl in Hlast. injection Hlast as <- _ <-.
    split; [exact Hstop |]. split; [exact Herr | exact Hl].
Defined.

(** ** Private gateway update *)

Section GatewayUpdate.
Context {cs : CloudStackClient}.

Ltac declared_fields :=
  repeat match goal with
    | |- context [bool_decide (?k ∈ ?fields)] =>
        let b := eval vm_compute in (bool_decide (k ∈ fields)) in
        change (bool_decide (k ∈ fields)) with b
    end;
  cbv iota.

(** On the schema of the network resource, which declares every field
    the network Read uses, the Read by schema is the network Read. *)
Lemma NetworkRead_in_network_schema s :
  resourceCloudStackNetworkRead_in network_schema_fields s
  = resourceCloudStackNetworkRead s.
Proof.
  unfold resourceCloudStackNetworkRead_in, resourceCloudStackNetworkRead,
    Get_string_in, Get_bool_in, Set_in, setValueOrID_in, setValueOrID.
  declared_fields.
  cbv [bind Id Get_string read call].
  destruct (remote _ _ _) as [[n | count err] w']; [reflexivity |].
  destruct (decide (count = 0)); reflexivity.
Qed.

(** C9. The private gateway Update does not refresh the state with the
    private gateway's own Read: it ends with the network Read, run on the
    resource data of the private gateway. Its schema declares no field
    project, so the first statement of that Read panics. In every run
    the resource data is left as it was and the only remote calls are
    those replacing the ACL (no lookup of the private gateway, nor of
    anything else); unless replacing the ACL failed the Update panics,
    and it never returns without error. *)
Theorem PrivateGatewayUpdate_no_refresh d w o s' :
  run resourceCloudStackPrivateGatewayUpdate d w = (o, s') ->
  st_d s' = d /\
  Forall (fun e => ev_api e = ReplaceNetworkACLList) (st_log s') /\
  ((forall p e, mkEvent ReplaceNetworkACLList p (Some e) ∉ st_log s') ->
   exists msg, o = Panic msg) /\
  o <> Ok tt.
Proof.
  intros H.
  pose proof (run_yields d w (fun o l d' =>
    d' = d /\
    Forall (fun e => ev_api e = ReplaceNetworkACLList) l /\
    ((forall p e, mkEvent ReplaceNetworkACLList p (Some e) ∉ l) ->
     exists msg, o = Panic msg) /\
    o <> Ok tt) resourceCloudStackPrivateGatewayUpdate) as R.
  cbv zeta in R. rewrite H in R. apply R. clear R H.
  unfold resourceCloudStackPrivateGatewayUpdate,
    resourceCloudStackNetworkRead_in, Get_string_in.
  declared_fields.
  repeat ystep.
  all: cbv [reply_err shape_of].
  all: split; [reflexivity |].
  all: split; [repeat (apply Forall_cons; split; [reflexivity |]);
               apply Forall_nil_2 |].
  all: split; [| discriminate].
  all: intros Hacl; first [by eexists | exfalso].
  all: eapply Hacl; apply list_elem_of_here.
Qed.

End GatewayUpdate.

(** Updating the gateway gw-1, whose ACL has not changed. *)
Lemma PrivateGatewayUpdate_no_refresh_witness :
  let d := resource_data "gw-1" [("acl_id", VString "acl-1")]
             [("acl_id", VString "acl-1")] in
  let r := run (cs := gateway_only_client)
             resourceCloudStackPrivateGatewayUpdate d tt in
  r.1 = Panic "interface conversion: interface {} is nil, not string" /\
  st_d r.2 = d /\ st_log r.2 = [].
Proof.
  intros d r.
  destruct (PrivateGatewayUpdate_no_refresh (cs := gateway_only_client)
              d tt r.1 r.2 ltac:(vm_compute; reflexivity))
    as (Hd & Hlog & Hpanic & _).
  split; [| split; [exact Hd |]].
  - destruct Hpanic as [msg Hmsg].
    + intros p e Hin. vm_compute in Hin. inversion Hin.
    + vm_compute in Hmsg |- *. exact eq_refl.
  - vm_compute. reflexivity.
Defined.

(** ** Instance create: when it panics *)

Section CreateNicThm.
Context {cs : CloudStackClient}.

(** A computation that never panics, as what it yields. *)
Lemma yields_no_panic d {A} (m : M A) :
  no_panic m ->
  preserves (log_ext (fun _ => True)) m ->
  yields d (fun o _ _ => forall msg, o <> Panic msg) m.
Proof.
  intros Hm Hl s o s' Hd H. destruct (Hl _ _ _ H) as (l & Hlog & _).
  exists l. split; [exact Hlog |]. exact (Hm _ _ _ H).
Qed.

Lemma InstanceCreate_no_panic d :
  deploys_with_nic ->
  nicnetworklist_complete d ->
  yields d (fun o _ _ => forall msg, o <> Panic msg)
         resourceCloudStackInstanceCreate.
Proof.
  intros Hnic Hlist. unfold resourceCloudStackInstanceCreate.
  repeat first
    [ lazymatch goal with
      | |- yields _ _ resourceCloudStackInstanceRead =>
          apply yields_no_panic;
          [ apply InstanceRead_no_panic
          | unfold resourceCloudStackInstanceRead; solve [pres] ]
      end
    | ystep ].
  all: try (intros msg; discriminate).
  all: exfalso.
  all: try match goal with
         | Hl : nicnetworklist_complete _,
           Hm : getok_map _ "nicnetworklist" = Some ?m |- _ =>
             destruct (Hl m Hm) as [[? ?] [? ?]]; congruence
         end.
  all: match goal with
       | Hn : deploys_with_nic |- _ => eapply Hn; eassumption
       end.
Qed.

(** C10. Instance Create reads [Nic[0]] of the deploy response unguarded:
    against a client whose successful deploy replies always carry a NIC it
    never panics, as long as a configured NIC to network list names both
    a NIC and a network (its entries are asserted unchecked before the
    deploy call); and against a client whose successful deploy replies
    carry no NIC it panics whenever the deploy call succeeded and setting
    the tags did not fail. Instance Read guards the access: when the
    lookup returns a virtual machine without NIC, the network fields of
    the configuration are left as they were. *)
Theorem InstanceCreate_needs_nic d w o s' :
  run resourceCloudStackInstanceCreate d w = (o, s') ->
  (deploys_with_nic -> nicnetworklist_complete d ->
   forall msg, o <> Panic msg) /\
  (deploys_without_nic ->
   (exists p, mkEvent DeployVirtualMachine p None ∈ st_log s') ->
   (forall p e, mkEvent CreateTags p (Some e) ∉ st_log s') ->
   exists msg, o = Panic msg) /\
  (forall s vm w1 o1 s1 k,
     remote GetVirtualMachineByID
       (byid (d_id (st_d s)) (get_string (st_d s) "project")) (st_w s)
       = (Found vm, w1) ->
     vm_Nic vm = [] ->
     resourceCloudStackInstanceRead s = (o1, s1) ->
     k ∈ network_fields ->
     d_new (st_d s1) !! k = d_new (st_d s) !! k).
Proof.
  intros H. split; [| split].
  - intros Hnic Hlist.
    pose proof (run_yields d w _ _ (InstanceCreate_no_panic d Hnic Hlist))
      as R.
    cbv zeta in R. by rewrite H in R.
  - intros Hnil. unfold run in H.
    apply (InstanceCreate_panics Hnil (mkSt d w []) o s' (Forall_nil_2 _) H).
  - intros s vm w1 o1 s1 k. apply InstanceRead_without_nic.
Qed.

End CreateNicThm.

(** Creating an instance with a NIC to network list on a client that
    deploys with one NIC, and on one that deploys without. *)
Lemma InstanceCreate_needs_nic_witness :
  let d := resource_data "" []
             [("name", VString "web"); ("service_offering", VString "small");
              ("zone", VString "zone1"); ("template", VString "debian");
              ("nicnetworklist",
               VMap (list_to_map [("nic", "0"); ("network", "net-1")]))] in
  (forall msg,
     (run (cs := deploy_client [mkNic "net-1" "10.0.0.5" "" ""])
        resourceCloudStackInstanceCreate d tt).1 <> Panic msg) /\
  (exists msg,
     (run (cs := deploy_client []) resourceCloudStackInstanceCreate d tt).1
     = Panic msg).
Proof.
  intros d. split.
  - set (r := run (cs := deploy_client [mkNic "net-1" "10.0.0.5" "" ""])
                resourceCloudStackInstanceCreate d tt).
    apply (proj1 (InstanceCreate_needs_nic
                    (cs := deploy_client [mkNic "net-1" "10.0.0.5" "" ""])
                    d tt r.1 r.2 ltac:(vm_compute; reflexivity))).
    + intros p w1 vm w2 H. injection H as <- _. discriminate.
    + intros m Hm. vm_compute in Hm. injection Hm as <-.
      split; eexists; vm_compute; reflexivity.
  - set (r := run (cs := deploy_client []) resourceCloudStackInstanceCreate
                d tt).
    apply (proj1 (proj2 (InstanceCreate_needs_nic (cs := deploy_client [])
                           d tt r.1 r.2 ltac:(vm_compute; reflexivity)))).
    + intros p w1 vm w2 H. injection H as <- _. reflexivity.
    + eexists. eapply (list_elem_of_lookup_2 _ 4%nat). vm_compute. reflexivity.
    + intros p e Hin. vm_compute in Hin.
      repeat (apply elem_of_cons in Hin as [Hin | Hin]; [discriminate Hin |]).
      inversion Hin.
Defined.

(** ** The properties at work on example runs *)

(** An update of the display name alone. *)
Lemma InstanceUpdate_no_restart_witness :
  let d := resource_data "vm-1" [("display_name", VString "web")]
             [("display_name", VString "web-1")] in
  Forall (fun e => restart_only (ev_api e) = false)
         (st_log (run (cs := all_ok_client)
                    resourceCloudStackInstanceUpdate d tt).2).
Proof.
  intros d.
  apply (InstanceUpdate_no_restart (cs := all_ok_client) d tt).
  vm_compute; reflexivity.
Defined.

(** An update of the name: the machine is stopped and started. *)
Lemma InstanceUpdate_restart_witness :
  let d := resource_data "vm-1" [("name", VString "web")]
             [("name", VString "web-1")] in
  power_trace (st_log (run (cs := all_ok_client)
                         resourceCloudStackInstanceUpdate d tt).2)
  = [(StopVirtualMachine, None); (StartVirtualMachine, None)].
Proof.
  intros d.
  exact (InstanceUpdate_restart (cs := all_ok_client) d tt
           ltac:(vm_compute; reflexivity) ltac:(vm_compute; reflexivity)).
Defined.

(** An update of the details alone. *)
Lemma InstanceUpdate_details_not_sent_witness :
  let d := resource_data "vm-1" []
             [("details", VMap (list_to_map [("cpuNumber", "2")]))] in
  has_change d "details" = true /\
  Forall (fun e => is_query (ev_api e) = true)
         (st_log (run (cs := all_ok_client)
                    resourceCloudStackInstanceUpdate d tt).2).
Proof.
  intros d. split; [vm_compute; reflexivity |].
  apply (InstanceUpdate_details_not_sent (cs := all_ok_client) d tt).
  vm_compute; reflexivity.
Defined.

(** Creating a network ACL list. *)
Lemma Create_success_once_witness :
  let d := resource_data "" []
             [("name", VString "web"); ("vpc_id", VString "vpc-1")] in
  calls_to CreateNetworkACLList
    (st_log (run (cs := all_ok_client)
               resourceCloudStackNetworkACLCreate d tt).2)
  = [None].
Proof.
  intros d.
  exact (Create_success_once (cs := all_ok_client) KNetworkACL d tt
           ltac:(vm_compute; reflexivity)).
Defined.

(** The netmask of a /20. *)
Lemma parseCIDR_netmask_witness :
  exists m,
    parseCIDR (config_of [("cidr", "10.1.2.3/20")]) false = Ok m /\
    m !! "netmask" = Some "255.255.240.0".
Proof.
  eexists. split; [vm_compute; reflexivity |].
  refine (parseCIDR_netmask (config_of [("cidr", "10.1.2.3/20")]) false
            10 1 2 3 20 _ _ _ _);
    [vm_compute; reflexivity | lia | vm_compute; reflexivity].
Defined.

(** Reading a network without ACL. *)
Lemma NetworkRead_acl_id_witness :
  let d := resource_data "net-1" [] [] in
  get_string (st_d (run (cs := all_ok_client)
                      resourceCloudStackNetworkRead d tt).2) "acl_id"
  <> "".
Proof.
  intros d.
  apply (NetworkRead_acl_id (cs := all_ok_client) d tt).
  eexists. vm_compute. reflexivity.
Defined.

(** Deleting a volume that detaches at once. *)
Lemma DiskDelete_after_detach_witness :
  let d := resource_data "vol-1" [] [] in
  let l := st_log (run (cs := all_ok_client)
                     resourceCloudStackDiskDelete d tt).2 in
  calls_to GetVolumeByID l = [None] /\
  calls_to StopVirtualMachine l = [] /\
  (calls_to DetachVolume l = [] \/ calls_to DetachVolume l = [None]).
Proof.
  intros d l.
  apply (DiskDelete_after_detach (cs := all_ok_client) d tt).
  vm_compute. discriminate.
Defined.

(** Reading a volume attached to the machine vm-1. *)
Lemma DiskRead_attachment_witness :
  let d := resource_data "vol-1" [] [] in
  let d' := st_d (run (cs := all_ok_client)
                    resourceCloudStackDiskRead d tt).2 in
  get_bool d' "attach" = true /\
  d_new d' !! "virtual_machine_id" = Some (VString "vm-1").
Proof.
  intros d d'.
  destruct (DiskRead_attachment (cs := all_ok_client) d tt sample_volume tt
              eq_refl) as (Hattach & _ & Hvm).
  split; [exact Hattach |].
  apply Hvm. discriminate.
Defined.

(** Reading and deleting a VPC whose source NAT list holds an address. *)
Lemma Read_Delete_no_panic_witness :
  let d := resource_data "vpc-1" [] [] in
  (run (cs := all_ok_client) resourceCloudStackVPCRead d tt).1
    <> Panic "index out of range [0] with length 0" /\
  (run (cs := all_ok_client) resourceCloudStackVPCDelete d tt).1
    <> Panic "index out of range [0] with length 0".
Proof.
  intros d.
  apply (Read_Delete_no_panic (cs := all_ok_client) KVPC d tt).
  intros _ p w1 l w2 H. injection H as <- _. discriminate.
Defined.

(** Creating a VPC without display text. *)
Lemma Create_description_default_witness :
  let d := resource_data "" []
             [("name", VString "main"); ("cidr", VString "10.1.0.0/16");
              ("vpc_offering", VString "default");
              ("zone", VString "zone1")] in
  Forall (fun p => p !! "displaytext" = Some (VString "main"))
         (requests CreateVPC
            (st_log (run (cs := all_ok_client)
                       resourceCloudStackVPCCreate d tt).2)).
Proof.
  intros d.
  exact (Create_description_default (cs := all_ok_client) KVPC
           "display_text" "displaytext" d tt eq_refl).
Defined.

(** Reading the private gateway on VLAN 100. *)
Lemma PrivateGatewayRead_vlan_witness :
  let d := resource_data "gw-1" [] [] in
  get_string (st_d (run (cs := all_ok_client)
                      resourceCloudStackPrivateGatewayRead d tt).2) "vlan"
  = "100".
Proof.
  intros d.
  exact (PrivateGatewayRead_vlan (cs := all_ok_client) d tt
           (mkPrivateGateway "gw-1" "10.0.0.1" "10.0.0.2" "255.255.255.0"
              "vlan://100" "acl-1" "vpc-1") tt "100"
           eq_refl eq_refl eq_refl).
Defined.

(** A /20 without configured addresses, and a text without slash. *)
Lemma parseCIDR_keys_witness :
  (exists msg, parseCIDR (config_of [("cidr", "10.1.2.3")]) false = Err msg) /\
  exists m,
    parseCIDR (config_of [("cidr", "10.1.2.3/20")]) true = Ok m /\
    is_Some (m !! "netmask") /\ is_Some (m !! "gateway") /\
    is_Some (m !! "startip") /\ is_Some (m !! "endip").
Proof.
  split.
  - apply (proj1 (parseCIDR_keys (config_of [("cidr", "10.1.2.3")]) false)).
    apply (bool_decide_unpack _). vm_compute. reflexivity.
  - destruct (proj2 (parseCIDR_keys (config_of [("cidr", "10.1.2.3/20")])
                       true) _ _ ltac:(vm_compute; reflexivity))
      as (m & Hm & Hmask & Hgw & Hstart & Hend).
    exists m. repeat split; try assumption.
    + apply Hstart. by left.
    + apply Hend. by left.
Defined.
